(** * Teardown of a static site: S3 bucket and CloudFront distribution

    A shallow embedding of [deployment-python/cleanup.py].  The script talks
    to three collaborators: the S3 and CloudFront clients of boto3 and the
    operator at the terminal.  They are gathered in one interface, [Cloud],
    over an abstract world [W]; the script itself is transcribed into a
    state-and-exception monad that threads the world and records every
    collaborator call, stamped with the wall clock, in a trace.

    Conventions of the model:
    - logging and printing do not influence control flow and are left out;
    - a service failure is botocore's [ClientError] carrying an error code;
    - [time.time()] reads the world's clock, in whole seconds;
    - a boto3 paginator is the finite sequence of page results that the
      [for] loop pulls one by one, the first failing page raising;
    - Python strings are sequences of code points below 256;
    - the two [while True] polling loops take fuel. *)

From Stdlib Require Import List String Ascii ZArith NArith Lia Bool DecimalString.
Import ListNotations.
Local Open Scope string_scope.

(** ** Python string primitives used by the script *)

Module Py.

(** [str.isspace] on a single code point below 256. *)
Definition isspace (c : ascii) : bool :=
  let n := N_of_ascii c in
  (((9 <=? n) && (n <=? 13)) || ((28 <=? n) && (n <=? 32))
   || (n =? 133) || (n =? 160))%N.

Fixpoint lstrip (s : string) : string :=
  match s with
  | EmptyString => EmptyString
  | String c s' => if isspace c then lstrip s' else s
  end.

Fixpoint rstrip (s : string) : string :=
  match s with
  | EmptyString => EmptyString
  | String c s' =>
      match rstrip s' with
      | EmptyString => if isspace c then EmptyString else String c EmptyString
      | r => String c r
      end
  end.

(** [str.strip()] *)
Definition strip (s : string) : string := rstrip (lstrip s).

Definition lower_char (c : ascii) : ascii :=
  let n := N_of_ascii c in
  if (((65 <=? n) && (n <=? 90))
      || ((192 <=? n) && (n <=? 222) && negb (n =? 215)))%N
  then ascii_of_N (n + 32) else c.

(** [str.lower()] *)
Fixpoint lower (s : string) : string :=
  match s with
  | EmptyString => EmptyString
  | String c s' => String (lower_char c) (lower s')
  end.

(** Truth value of a string: non-empty. *)
Definition truthy (s : string) : bool :=
  match s with EmptyString => false | _ => true end.

End Py.

(** ** Constants *)

Definition POLLING_INTERVAL_SECONDS : Z := 10.
Definition CLOUDFRONT_TIMEOUT_SECONDS : Z := 600.
Definition S3_DELETE_TIMEOUT_SECONDS : Z := 300.

(** The literal 1000 of the emptier: the size of a full deletion batch. *)
Definition BATCH_SIZE : nat := 1000.
Arguments BATCH_SIZE : simpl never.

(** ** Collaborator data *)

Definition ErrorCode := string.

Record Origin := { DomainName : option string }.

(** [Origins] of a distribution configuration; [Items] may be absent. *)
Record OriginList := { OriginItems : option (list Origin) }.

Record DistributionConfig := {
  Enabled : bool;
  Origins : option OriginList
}.

(** Response of [get_distribution_config]. *)
Record ConfigResponse := {
  Config : DistributionConfig;
  ETag : string
}.

(** Response of [get_distribution]: only [Distribution.Status] is read. *)
Record DistributionResponse := { Status : string }.

Record DistributionSummary := { Id : string }.

(** A page of [list_distributions]: [DistributionList] and its [Items] may
    each be absent. *)
Record DistributionPage := {
  DistributionList : option (option (list DistributionSummary))
}.

(** An entry of [Versions] or [DeleteMarkers]; also the identifier sent to
    [delete_objects]. *)
Record ObjectIdentifier := { Key : string; VersionId : string }.

(** A page of [list_object_versions]; an absent list reads as []. *)
Record VersionsPage := {
  Versions : list ObjectIdentifier;
  DeleteMarkers : list ObjectIdentifier
}.

(** Response of [delete_objects]: the per-object errors, [] when the key
    [Errors] is absent. *)
Record DeleteObjectsResponse := { Errors : list string }.

(** ** The collaborators *)

Class Cloud (W : Type) := {
  (** wall clock of the world, read by [time.time()] *)
  now : W -> Z;
  (** [time.sleep] *)
  sleep : Z -> W -> W;
  (** [input]: [None] when the stream is closed ([EOFError]) *)
  read_line : string -> W -> option string * W;
  (** [boto3.client]; an error stands for any [Exception] *)
  boto3_client : string -> W -> (ErrorCode + unit) * W;
  get_bucket_location : string -> W -> (ErrorCode + option string) * W;
  (** the pages of the [list_distributions] paginator *)
  list_distributions : W -> list (ErrorCode + DistributionPage);
  get_distribution_config : string -> W -> (ErrorCode + ConfigResponse) * W;
  (** arguments: configuration, id, IfMatch; answer: the new ETag *)
  update_distribution :
    DistributionConfig -> string -> string -> W -> (ErrorCode + string) * W;
  get_distribution : string -> W -> (ErrorCode + DistributionResponse) * W;
  (** arguments: id, IfMatch *)
  delete_distribution : string -> string -> W -> (ErrorCode + unit) * W;
  get_bucket_versioning : string -> W -> (ErrorCode + option string) * W;
  (** the pages of the [list_object_versions] paginator *)
  list_object_versions : string -> W -> list (ErrorCode + VersionsPage);
  (** the world moves on while a page is fetched *)
  fetch_page : W -> W;
  delete_objects :
    string -> list ObjectIdentifier -> W -> (ErrorCode + DeleteObjectsResponse) * W;
  delete_bucket : string -> W -> (ErrorCode + unit) * W;
  (** the [bucket_not_exists] waiter; [false] is [WaiterError] *)
  wait_bucket_not_exists : string -> W -> bool * W
}.

(** ** Calls recorded in the trace *)

Inductive event :=
| Input (prompt : string) (line : option string)
| ClientInit (service : string)
| GetBucketLocation (bucket : string)
| ListDistributions (answered : bool)
| GetDistributionConfig (id : string) (etag : option string)
| UpdateDistribution (id : string) (config : DistributionConfig)
    (if_match : string) (etag : option string)
| GetDistribution (id : string) (status : option string)
| DeleteDistribution (id if_match : string)
| GetBucketVersioning (bucket : string) (answered : bool)
| ListObjectVersions (bucket : string) (answered : bool)
| DeleteObjects (bucket : string) (batch : list ObjectIdentifier)
    (errors : option (list string))
| DeleteBucket (bucket : string)
| WaitBucketNotExists (bucket : string)
| Sleep (seconds : Z).

(** ** Exceptions and the monad of the script *)

Inductive exn :=
| ClientError (code : ErrorCode)
| WaiterError
| EOFError
| SystemExit (status : Z).

Inductive res (A : Type) :=
| Ok (a : A)
| Raise (e : exn)
| OutOfFuel.
Arguments Ok {A} a.
Arguments Raise {A} e.
Arguments OutOfFuel {A}.

(** Outcome of a loop body: go on with a new loop state, or leave the
    enclosing function with a value. *)
Inductive flow (S R : Type) :=
| Continue (s : S)
| Return (r : R).
Arguments Continue {S R} s.
Arguments Return {S R} r.

Section Script.

Context {W : Type} {cloud : Cloud W}.

Record st := { world : W; trace : list (Z * event) }.

Definition M (A : Type) := st -> res A * st.

Definition ret {A} (a : A) : M A := fun s => (Ok a, s).

Definition bind {A B} (m : M A) (k : A -> M B) : M B :=
  fun s =>
    match m s with
    | (Ok a, s') => k a s'
    | (Raise e, s') => (Raise e, s')
    | (OutOfFuel, s') => (OutOfFuel, s')
    end.

Definition raise {A} (e : exn) : M A := fun s => (Raise e, s).

Definition out_of_fuel {A} : M A := fun s => (OutOfFuel, s).

(** [try: m except ...]: the handler picks the exceptions it catches. *)
Definition try_except {A} (m : M A) (handler : exn -> option (M A)) : M A :=
  fun s =>
    match m s with
    | (Raise e, s') =>
        match handler e with
        | Some h => h s'
        | None => (Raise e, s')
        end
    | r => r
    end.

Definition except_ClientError {A} (h : ErrorCode -> M A) (e : exn) : option (M A) :=
  match e with ClientError code => Some (h code) | _ => None end.

Definition except_EOFError {A} (h : M A) (e : exn) : option (M A) :=
  match e with EOFError => Some h | _ => None end.

(** [except Exception]: everything but [SystemExit]. *)
Definition except_Exception {A} (h : M A) (e : exn) : option (M A) :=
  match e with SystemExit _ => None | _ => Some h end.

Definition sys_exit {A} (status : Z) : M A := raise (SystemExit status).

(** Record a call, stamped with the clock at its completion. *)
Definition record (w : W) (e : event) (s : st) : st :=
  {| world := w; trace := trace s ++ [(now w, e)] |}.

(** A client call: the answer is recorded, an error code is raised. *)
Definition invoke {A} (op : W -> (ErrorCode + A) * W)
           (ev : ErrorCode + A -> event) : M A :=
  fun s =>
    let '(r, w) := op (world s) in
    match r with
    | inl code => (Raise (ClientError code), record w (ev r) s)
    | inr a => (Ok a, record w (ev r) s)
    end.

(** Read something off the world without a call. *)
Definition observe {A} (f : W -> A) : M A := fun s => (Ok (f (world s)), s).

Definition time_time : M Z := observe now.

Definition time_sleep (seconds : Z) : M unit :=
  fun s => (Ok tt, record (sleep seconds (world s)) (Sleep seconds) s).

Definition input (prompt : string) : M string :=
  fun s =>
    let '(r, w) := read_line prompt (world s) in
    match r with
    | None => (Raise EOFError, record w (Input prompt r) s)
    | Some line => (Ok line, record w (Input prompt r) s)
    end.

(** The call was answered, not refused with an error. *)
Definition is_answer {A} (r : ErrorCode + A) : bool :=
  match r with inl _ => false | inr _ => true end.

(** Pull the next page of a paginator. *)
Definition next_page {P} (ev : bool -> event) (page : ErrorCode + P) : M P :=
  fun s =>
    let s' := record (fetch_page (world s)) (ev (is_answer page)) s in
    match page with
    | inl code => (Raise (ClientError code), s')
    | inr p => (Ok p, s')
    end.

(** [for x in xs: body], where the body may return from the function. *)
Fixpoint for_each {X S R} (body : X -> S -> M (flow S R))
         (xs : list X) (acc : S) : M (flow S R) :=
  match xs with
  | [] => ret (Continue acc)
  | x :: xs' =>
      bind (body x acc) (fun f =>
        match f with
        | Continue acc' => for_each body xs' acc'
        | Return r => ret (Return r)
        end)
  end.

(** [while True: body]; [Continue] is one more round, [Return (inl _)]
    a [break], [Return (inr r)] a [return r]. *)
Fixpoint while_true {B R} (fuel : nat) (body : M (flow unit (B + R)))
  : M (B + R) :=
  match fuel with
  | O => out_of_fuel
  | S fuel' =>
      bind body (fun f =>
        match f with
        | Continue _ => while_true fuel' body
        | Return r => ret r
        end)
  end.

End Script.

Declare Scope script_scope.
Delimit Scope script_scope with script.
Notation "x <- m ;; k" := (bind m (fun x => k))
  (at level 61, m at next level, right associativity) : script_scope.
Notation "m ;;; k" := (bind m (fun _ => k))
  (at level 61, right associativity) : script_scope.

Local Open Scope script_scope.

(** ** The script *)

Section Cleanup.

Context {W : Type} {cloud : Cloud W}.

Definition etag_of (r : ErrorCode + ConfigResponse) : option string :=
  match r with inl _ => None | inr c => Some (ETag c) end.

Definition new_etag_of (r : ErrorCode + string) : option string :=
  match r with inl _ => None | inr e => Some e end.

Definition status_of (r : ErrorCode + DistributionResponse) : option string :=
  match r with inl _ => None | inr d => Some (Status d) end.

Definition errors_of (r : ErrorCode + DeleteObjectsResponse) : option (list string) :=
  match r with inl _ => None | inr d => Some (Errors d) end.

(** Truth value of a list: non-empty. *)
Definition nonempty {A} (l : list A) : bool :=
  match l with [] => false | _ => true end.

Definition get_s3_bucket_region (bucket_name : string) : M (option string) :=
  try_except
    (response <- invoke (get_bucket_location bucket_name)
                        (fun _ => GetBucketLocation bucket_name) ;;
     match response with
     | None => ret (Some "us-east-1")
     | Some region => ret (Some region)
     end)
    (except_ClientError (fun _ => ret None)).

(** *** Locator *)

Definition origin_matches (target_origin_domain : string) (origin : Origin) : bool :=
  match DomainName origin with
  | Some d => String.eqb d target_origin_domain
  | None => false
  end.

(** The loop over the origins of one distribution stops at the first origin
    that matches, so a distribution counts at most once. *)
Definition any_origin_matches (target_origin_domain : string)
           (dist_config : DistributionConfig) : bool :=
  match Origins dist_config with
  | Some {| OriginItems := Some items |} =>
      existsb (origin_matches target_origin_domain) items
  | _ => false
  end.

(** [found_distribution] and [distribution_count]. *)
Definition Found := (option (string * string) * nat)%type.

Definition check_distribution (target_origin_domain : string)
           (dist_summary : DistributionSummary) (acc : Found)
  : M (flow Found (option (string * string))) :=
  let dist_id := Id dist_summary in
  try_except
    (config_response <- invoke (get_distribution_config dist_id)
                               (fun r => GetDistributionConfig dist_id (etag_of r)) ;;
     let dist_config := Config config_response in
     let etag := ETag config_response in
     if any_origin_matches target_origin_domain dist_config then
       if (snd acc =? 0)%nat
       then ret (Continue (Some (dist_id, etag), S (snd acc)))
       else ret (Return None)
     else ret (Continue acc))
    (except_ClientError (fun _ => ret (Continue acc))).

Definition check_page (target_origin_domain : string)
           (page : ErrorCode + DistributionPage) (acc : Found)
  : M (flow Found (option (string * string))) :=
  page <- next_page ListDistributions page ;;
  match DistributionList page with
  | Some (Some items) => for_each (check_distribution target_origin_domain) items acc
  | _ => ret (Continue acc)
  end.

Definition target_domain (bucket_name region : string) : string :=
  bucket_name ++ ".s3-website-" ++ region ++ ".amazonaws.com".

Definition find_cloudfront_for_s3_bucket (bucket_name region : string)
  : M (option (string * string)) :=
  let target_origin_domain := target_domain bucket_name region in
  try_except
    (pages <- observe list_distributions ;;
     f <- for_each (check_page target_origin_domain) pages (None, O) ;;
     match f with
     | Return r => ret r
     | Continue (found_distribution, distribution_count) =>
         if (distribution_count =? 1)%nat then ret found_distribution
         else if (distribution_count =? 0)%nat then ret None
         else ret None
     end)
    (except_ClientError (fun _ => ret None)).

(** *** Confirmation gate *)

Definition confirm_prompt : string := "Type 'yes' to confirm deletion: ".

Definition confirm_deletion (bucket_name : string) (distribution_id : option string)
  : M bool :=
  try_except
    (line <- input confirm_prompt ;;
     let confirmation := Py.lower (Py.strip line) in
     if String.eqb confirmation "yes" then ret true else ret false)
    (except_EOFError (ret false)).

(** *** CDN teardown *)

(** One round of the wait for the disablement to be deployed. *)
Definition poll_disabled (distribution_id : string) (disable_start_time : Z)
  : M (flow unit (unit + bool)) :=
  try_except
    (get_dist_response <- invoke (get_distribution distribution_id)
                                 (fun r => GetDistribution distribution_id (status_of r)) ;;
     let current_status := Status get_dist_response in
     t <- time_time ;;
     let elapsed_time := (t - disable_start_time)%Z in
     if String.eqb current_status "Deployed" then ret (Return (inl tt))
     else if (elapsed_time >? CLOUDFRONT_TIMEOUT_SECONDS)%Z then ret (Return (inr false))
     else time_sleep POLLING_INTERVAL_SECONDS ;;; ret (Continue tt))
    (except_ClientError (fun _ => ret (Return (inr false)))).

(** One round of the wait for the deletion; this loop has no [break]. *)
Definition poll_deleted (distribution_id : string) (delete_start_time : Z)
  : M (flow unit (Empty_set + bool)) :=
  try_except
    (_ <- invoke (get_distribution distribution_id)
                 (fun r => GetDistribution distribution_id (status_of r)) ;;
     t <- time_time ;;
     let elapsed_time := (t - delete_start_time)%Z in
     if (elapsed_time >? CLOUDFRONT_TIMEOUT_SECONDS)%Z then ret (Return (inr false))
     else time_sleep POLLING_INTERVAL_SECONDS ;;; ret (Continue tt))
    (except_ClientError (fun code =>
       if String.eqb code "NoSuchDistribution" then ret (Return (inr true))
       else ret (Return (inr false)))).

Definition disable (dist_config : DistributionConfig) : DistributionConfig :=
  {| Enabled := false; Origins := Origins dist_config |}.

(** Step 1, once the configuration is known: nothing to do when the
    distribution is already disabled; otherwise disable it and wait.  The
    answer is the latest token, or the value [False] returned from inside
    the wait. *)
Definition disable_and_wait (distribution_id : string)
           (dist_config : DistributionConfig) (current_etag : string) (fuel : nat)
  : M (string + bool) :=
  if negb (Enabled dist_config) then ret (inl current_etag)
  else
    update_response <- invoke
        (update_distribution (disable dist_config) distribution_id current_etag)
        (fun r => UpdateDistribution distribution_id (disable dist_config)
                                     current_etag (new_etag_of r)) ;;
    let latest_etag := update_response in
    disable_start_time <- time_time ;;
    w <- while_true fuel (poll_disabled distribution_id disable_start_time) ;;
    match w with
    | inl _ => ret (inl latest_etag)
    | inr b => ret (inr b)
    end.

(** Steps 2 and 3: delete with the latest token, then wait until the
    distribution is gone. *)
Definition delete_and_wait (distribution_id latest_etag : string) (fuel : nat)
  : M bool :=
  invoke (delete_distribution distribution_id latest_etag)
         (fun _ => DeleteDistribution distribution_id latest_etag) ;;;
  delete_start_time <- time_time ;;
  w <- while_true fuel (poll_deleted distribution_id delete_start_time) ;;
  match w with
  | inl e => match e with end
  | inr b => ret b
  end.

(** The handler of the outer [try]: every branch but the first returns
    [False]. *)
Definition cdn_error (code : ErrorCode) : @M W bool :=
  if String.eqb code "NoSuchDistribution" then ret true
  else if String.eqb code "DistributionNotDisabled" then ret false
  else if String.eqb code "IllegalUpdate" then ret false
  else if String.eqb code "InvalidIfMatchVersion" then ret false
  else ret false.

(** The body of the outer [try]. *)
Definition disable_then_delete (distribution_id : string) (fuel : nat) : M bool :=
  get_config_response <- invoke (get_distribution_config distribution_id)
      (fun r => GetDistributionConfig distribution_id (etag_of r)) ;;
  let dist_config := Config get_config_response in
  let current_etag := ETag get_config_response in
  step1 <- disable_and_wait distribution_id dist_config current_etag fuel ;;
  match step1 with
  | inr b => ret b
  | inl latest_etag => delete_and_wait distribution_id latest_etag fuel
  end.

(** The token passed in is overwritten by the first configuration fetch
    before any use. *)
Definition delete_cloudfront_distribution (distribution_id etag : string) (fuel : nat)
  : M bool :=
  try_except (disable_then_delete distribution_id fuel)
             (except_ClientError cdn_error).

(** *** Bucket emptier *)

(** [while len(objects_to_delete) >= 1000]: every round removes 1000
    entries, so [len(objects_to_delete)] rounds are always enough. *)
Fixpoint delete_full_batches (rounds : nat) (bucket_name : string) (start_time : Z)
         (objects_to_delete : list ObjectIdentifier)
  : M (flow (list ObjectIdentifier) bool) :=
  if (BATCH_SIZE <=? List.length objects_to_delete)%nat then
    match rounds with
    | O => out_of_fuel
    | S rounds' =>
        let batch := firstn BATCH_SIZE objects_to_delete in
        let objects_to_delete := skipn BATCH_SIZE objects_to_delete in
        delete_response <- invoke (delete_objects bucket_name batch)
                                  (fun r => DeleteObjects bucket_name batch (errors_of r)) ;;
        if nonempty (Errors delete_response) then ret (Return false)
        else
          t <- time_time ;;
          if (t - start_time >? S3_DELETE_TIMEOUT_SECONDS)%Z then ret (Return false)
          else delete_full_batches rounds' bucket_name start_time objects_to_delete
    end
  else ret (Continue objects_to_delete).

Definition collect_page (bucket_name : string) (start_time : Z)
           (page : ErrorCode + VersionsPage) (objects_to_delete : list ObjectIdentifier)
  : M (flow (list ObjectIdentifier) bool) :=
  page <- next_page (ListObjectVersions bucket_name) page ;;
  let versions := Versions page in
  let delete_markers := DeleteMarkers page in
  if negb (nonempty versions) && negb (nonempty delete_markers)
  then ret (Continue objects_to_delete)
  else
    let objects_to_delete := (objects_to_delete ++ versions ++ delete_markers)%list in
    delete_full_batches (List.length objects_to_delete) bucket_name start_time
                        objects_to_delete.

Definition empty_s3_bucket (bucket_name : string) : M bool :=
  start_time <- time_time ;;
  try_except
    (_ <- invoke (get_bucket_versioning bucket_name)
                 (fun r => GetBucketVersioning bucket_name (is_answer r)) ;;
     pages <- observe (list_object_versions bucket_name) ;;
     f <- for_each (collect_page bucket_name start_time) pages [] ;;
     match f with
     | Return r => ret r
     | Continue objects_to_delete =>
         if nonempty objects_to_delete then
           delete_response <- invoke (delete_objects bucket_name objects_to_delete)
                                     (fun r => DeleteObjects bucket_name objects_to_delete
                                                            (errors_of r)) ;;
           if nonempty (Errors delete_response) then ret false else ret true
         else ret true
     end)
    (except_ClientError (fun code =>
       if String.eqb code "NoSuchBucket" then ret true else ret false)).

(** *** Bucket deleter *)

Definition bucket_not_exists_waiter (bucket_name : string) : M unit :=
  fun s =>
    let '(ok, w) := wait_bucket_not_exists bucket_name (world s) in
    (if ok then Ok tt else Raise WaiterError,
     record w (WaitBucketNotExists bucket_name) s).

Definition delete_s3_bucket (bucket_name : string) : M bool :=
  try_except
    (invoke (delete_bucket bucket_name) (fun _ => DeleteBucket bucket_name) ;;;
     bucket_not_exists_waiter bucket_name ;;;
     ret true)
    (fun e =>
       match e with
       | WaiterError => Some (ret false)
       | ClientError code =>
           Some (if String.eqb code "NoSuchBucket" then ret true else ret false)
       | _ => None
       end).

(** *** Orchestrator *)

Definition bucket_prompt : string := "Enter the name of the S3 bucket to delete: ".

Definition region_prompt (bucket_name : string) : string :=
  "Could not determine region for bucket '" ++ bucket_name
  ++ "'. Please enter the region manually: ".

(** Steps 5 to 7 of [main] and its final verdict. *)
Definition teardown (bucket_name : string) (cf_info : option (string * string))
           (fuel : nat) : M unit :=
  let distribution_id := option_map fst cf_info in
  let distribution_etag := option_map snd cf_info in
  cloudfront_deleted_successfully <-
    (match distribution_id, distribution_etag with
     | Some id, Some etag =>
         if Py.truthy id && Py.truthy etag then
           ok <- delete_cloudfront_distribution id etag fuel ;;
           if negb ok then sys_exit 1 else ret ok
         else ret true
     | _, _ => ret true
     end) ;;
  bucket_emptied_successfully <-
    (if cloudfront_deleted_successfully : bool then
       ok <- empty_s3_bucket bucket_name ;;
       if negb ok then sys_exit 1 else ret ok
     else ret false) ;;
  bucket_deleted_successfully <-
    (if bucket_emptied_successfully : bool then delete_s3_bucket bucket_name
     else ret false) ;;
  if cloudfront_deleted_successfully && bucket_emptied_successfully
     && bucket_deleted_successfully
  then ret tt else sys_exit 1.

Definition main (fuel : nat) : M unit :=
  try_except
    (invoke (boto3_client "s3") (fun _ => ClientInit "s3") ;;;
     invoke (boto3_client "cloudfront") (fun _ => ClientInit "cloudfront"))
    (except_Exception (sys_exit 1)) ;;;
  line <- input bucket_prompt ;;
  let bucket_name := Py.strip line in
  if negb (Py.truthy bucket_name) then sys_exit 1 else
  found_region <- get_s3_bucket_region bucket_name ;;
  region <- (match found_region with
             | Some region =>
                 if Py.truthy region then ret region
                 else
                   line <- input (region_prompt bucket_name) ;;
                   let region := Py.strip line in
                   if negb (Py.truthy region) then sys_exit 1 else ret region
             | None =>
                 line <- input (region_prompt bucket_name) ;;
                 let region := Py.strip line in
                 if negb (Py.truthy region) then sys_exit 1 else ret region
             end) ;;
  cf_info <- find_cloudfront_for_s3_bucket bucket_name region ;;
  let distribution_id := option_map fst cf_info in
  confirmed <- confirm_deletion bucket_name distribution_id ;;
  if negb confirmed then sys_exit 0 else
  teardown bucket_name cf_info fuel.

(** A run starts with an empty trace. *)
Definition run {A} (m : M A) (w : W) : res A * st :=
  m {| world := w; trace := [] |}.

Definition calls (s : @st W) : list event := map snd (trace s).

End Cleanup.

(** ** A world on a timeline

    A concrete instance of [Cloud] for running the script.  The state of the
    world is the time; an account fixes what each operation answers, possibly
    depending on the time of the answer, and how long the slow operations
    take. *)

Module Timeline.

Record account := {
  (** what the operator types at a prompt; [None] is a closed stream *)
  typed : string -> option string;
  location : ErrorCode + option string;
  dist_pages : list (ErrorCode + DistributionPage);
  config_of : string -> ErrorCode + ConfigResponse;
  update_answer : ErrorCode + string;
  status_at : Z -> ErrorCode + DistributionResponse;
  delete_distribution_answer : ErrorCode + unit;
  versioning : ErrorCode + option string;
  object_pages : list (ErrorCode + VersionsPage);
  bulk_delete_at : Z -> ErrorCode + DeleteObjectsResponse;
  delete_bucket_answer : ErrorCode + unit;
  waiter_answer : bool;
  poll_latency : Z;
  page_latency : Z;
  bulk_delete_latency : Z
}.

Definition cloud (a : account) : Cloud Z := {|
  now := fun t => t;
  sleep := fun d t => (t + d)%Z;
  read_line := fun prompt t => (typed a prompt, t);
  boto3_client := fun _ t => (inr tt, t);
  get_bucket_location := fun _ t => (location a, t);
  list_distributions := fun _ => dist_pages a;
  get_distribution_config := fun id t => (config_of a id, t);
  update_distribution := fun _ _ _ t => (update_answer a, t);
  get_distribution := fun _ t =>
    (status_at a (t + poll_latency a), t + poll_latency a)%Z;
  delete_distribution := fun _ _ t => (delete_distribution_answer a, t);
  get_bucket_versioning := fun _ t => (versioning a, t);
  list_object_versions := fun _ _ => object_pages a;
  fetch_page := fun t => (t + page_latency a)%Z;
  delete_objects := fun _ _ t =>
    (bulk_delete_at a (t + bulk_delete_latency a), t + bulk_delete_latency a)%Z;
  delete_bucket := fun _ t => (delete_bucket_answer a, t);
  wait_bucket_not_exists := fun _ t => (waiter_answer a, t)
|}.

(** Run a script against an account, from time 0; the outcome and the
    stamped calls. *)
Definition play {A} (a : account) (m : forall W, Cloud W -> @M W A)
  : res A * list (Z * event) :=
  let '(r, s) := run (m Z (cloud a)) 0%Z in (r, trace s).

Definition gone : ErrorCode + DistributionResponse := inl "NoSuchDistribution".

(** A quiet account: the operator types the bucket name [site] and then
    [yes]; the bucket lies in us-east-1, is empty, and has no distribution. *)
Definition quiet : account :=
  {| typed := fun prompt =>
       if String.eqb prompt bucket_prompt then Some "site" else Some "yes";
     location := inr None;
     dist_pages := [];
     config_of := fun _ => inl "NoSuchDistribution";
     update_answer := inl "NoSuchDistribution";
     status_at := fun _ => gone;
     delete_distribution_answer := inr tt;
     versioning := inr None;
     object_pages := [];
     bulk_delete_at := fun _ => inr {| Errors := [] |};
     delete_bucket_answer := inr tt;
     waiter_answer := true;
     poll_latency := 1; page_latency := 0; bulk_delete_latency := 0 |}.

End Timeline.

(** ** Vocabulary of the specification *)

Local Open Scope list_scope.

(** The calls each stage may issue. *)
Definition locator_call (e : event) : bool :=
  match e with
  | ListDistributions _ | GetDistributionConfig _ _ => true
  | _ => false
  end.

Definition cdn_call (e : event) : bool :=
  match e with
  | GetDistributionConfig _ _ | UpdateDistribution _ _ _ _
  | GetDistribution _ _ | DeleteDistribution _ _ | Sleep _ => true
  | _ => false
  end.

Definition polling_call (e : event) : bool :=
  match e with
  | GetDistribution _ _ | Sleep _ => true
  | _ => false
  end.

Definition emptier_call (e : event) : bool :=
  match e with
  | GetBucketVersioning _ _ | ListObjectVersions _ _ | DeleteObjects _ _ _ => true
  | _ => false
  end.

Definition deleter_call (e : event) : bool :=
  match e with
  | DeleteBucket _ | WaitBucketNotExists _ => true
  | _ => false
  end.

(** Calls that change or remove a resource. *)
Definition mutating (e : event) : bool :=
  match e with
  | UpdateDistribution _ _ _ _ | DeleteDistribution _ _
  | DeleteObjects _ _ _ | DeleteBucket _ => true
  | _ => false
  end.

(** Calls of the CDN teardown proper: everything it issues after its
    opening configuration fetch. *)
Definition cdn_stage_call (e : event) : bool :=
  match e with
  | UpdateDistribution _ _ _ _ | GetDistribution _ _ | DeleteDistribution _ _ => true
  | _ => false
  end.


Section Vocabulary.

Context {W : Type} {cloud : Cloud W}.

(** [m] only appends to the trace, and only calls satisfying [P]. *)
Definition emits {A} (P : event -> Prop) (m : @M W A) : Prop :=
  forall s r s', m s = (r, s') ->
    exists l, trace s' = trace s ++ l /\ Forall (fun te => P (snd te)) l.

End Vocabulary.

Definition is_update (e : event) : bool :=
  match e with UpdateDistribution _ _ _ _ => true | _ => false end.

Definition is_delete_distribution (e : event) : bool :=
  match e with DeleteDistribution _ _ => true | _ => false end.

(** *** Concurrency-control tokens along a trace *)







(** The outcomes of a CDN teardown and the calls each leaves behind. *)
Inductive cdn_run (id : string) : res bool -> list event -> Prop :=
| config_fetch_failed b :
    cdn_run id (Ok b) [GetDistributionConfig id None]
| already_disabled r t l :
    Forall (fun e => polling_call e = true) l ->
    cdn_run id r (GetDistributionConfig id (Some t) :: DeleteDistribution id t :: l)
| update_failed b t config :
    cdn_run id (Ok b) [GetDistributionConfig id (Some t);
                       UpdateDistribution id config t None]
| disable_wait_failed r t config t' l :
    r = Ok false \/ r = OutOfFuel ->
    Forall (fun e => polling_call e = true) l ->
    Forall (fun e => e <> GetDistribution id (Some "Deployed")) l ->
    cdn_run id r (GetDistributionConfig id (Some t)
                  :: UpdateDistribution id config t (Some t') :: l)
| disabled_then_deleted r t config t' l l' :
    Forall (fun e => polling_call e = true) l ->
    Forall (fun e => polling_call e = true) l' ->
    cdn_run id r (GetDistributionConfig id (Some t)
                  :: UpdateDistribution id config t (Some t')
                  :: l ++ GetDistribution id (Some "Deployed")
                  :: DeleteDistribution id t' :: l').

(** What the outer handler of the CDN teardown makes of an outcome. *)
Definition absorbed (r : res bool) : res bool :=
  match r with
  | Raise (ClientError code) => Ok (String.eqb code "NoSuchDistribution")
  | _ => r
  end.

(** The clock of the world moves forward: a status poll does not set it
    back, and a sleep lasts at least as long as asked. *)
Definition clock_advances {W : Type} {cloud : Cloud W} (id : string) : Prop :=
  (forall w : W, now w <= now (snd (get_distribution id w)))%Z
  /\ (forall n (w : W), now w + n <= now (sleep n w))%Z.

(** Rounds of polling after which a wait of 600 seconds has timed out. *)
Definition POLLING_ROUNDS : nat := 62.

(** The script does not run out of fuel. *)
Definition returns {W : Type} {A : Type} (m : @M W A) : Prop :=
  forall s, fst (m s) <> OutOfFuel.

(** An update call that was accepted: the disable wait begins. *)
Definition update_accepted (e : event) : bool :=
  match e with UpdateDistribution _ _ _ (Some _) => true | _ => false end.

(** A status poll that reported [Deployed]. *)
Definition saw_deployed (e : event) : bool :=
  match e with
  | GetDistribution _ (Some status) => String.eqb status "Deployed"
  | _ => false
  end.

(** *** The locator on a stable account

    When the configuration of a distribution does not change during the
    search, [config] gives it by id, and the search is a function of the
    listing. *)

Section Stable_search.

Variable target : string.
Variable config : string -> ErrorCode + ConfigResponse.

(** The distribution has an origin whose domain is the target, and its
    configuration can be fetched. *)
Definition is_match (d : DistributionSummary) : bool :=
  match config (Id d) with
  | inr c => any_origin_matches target (Config c)
  | inl _ => false
  end.

Definition token_of (d : DistributionSummary) : string :=
  match config (Id d) with
  | inr c => ETag c
  | inl _ => ""
  end.

Definition items_of (page : DistributionPage) : list DistributionSummary :=
  match DistributionList page with
  | Some (Some items) => items
  | _ => []
  end.

(** The distributions the paginator hands out: those of the pages before the
    first failing page. *)
Fixpoint listed (pages : list (ErrorCode + DistributionPage))
  : list DistributionSummary :=
  match pages with
  | inr page :: pages' => items_of page ++ listed pages'
  | _ => []
  end.

Definition matches (l : list DistributionSummary) : nat :=
  List.length (filter is_match l).

(** The search over a list of distributions: its outcome, and the
    distributions whose configuration it fetches. *)
Fixpoint scan (l : list DistributionSummary) (acc : Found)
  : flow Found (option (string * string)) :=
  match l with
  | [] => Continue acc
  | d :: l' =>
      if is_match d then
        if (snd acc =? 0)%nat then scan l' (Some (Id d, token_of d), S (snd acc))
        else Return None
      else scan l' acc
  end.

Fixpoint visited (l : list DistributionSummary) (acc : Found)
  : list DistributionSummary :=
  match l with
  | [] => []
  | d :: l' =>
      d :: (if is_match d then
              if (snd acc =? 0)%nat then visited l' (Some (Id d, token_of d), S (snd acc))
              else []
            else visited l' acc)
  end.

(** The same over the pages, where a failing page raises. *)
Fixpoint scan_pages (pages : list (ErrorCode + DistributionPage)) (acc : Found)
  : res (flow Found (option (string * string))) :=
  match pages with
  | [] => Ok (Continue acc)
  | inl code :: _ => Raise (ClientError code)
  | inr page :: pages' =>
      match scan (items_of page) acc with
      | Continue acc' => scan_pages pages' acc'
      | Return r => Ok (Return r)
      end
  end.

Fixpoint visited_pages (pages : list (ErrorCode + DistributionPage)) (acc : Found)
  : list DistributionSummary :=
  match pages with
  | inr page :: pages' =>
      visited (items_of page) acc
      ++ match scan (items_of page) acc with
         | Continue acc' => visited_pages pages' acc'
         | Return _ => []
         end
  | _ => []
  end.

End Stable_search.

(** The ids of the configurations fetched, in order. *)
Definition fetched (l : list event) : list string :=
  flat_map (fun e => match e with GetDistributionConfig id _ => [id] | _ => [] end) l.

(** *** The orchestrator *)

(** Calls issued before the locator starts. *)
Definition prelude_call (e : event) : bool :=
  match e with
  | ClientInit _ | GetBucketLocation _ => true
  | Input prompt _ => negb (String.eqb prompt confirm_prompt)
  | _ => false
  end.

(** Calls issued before the confirmation gate is reached. *)
Definition before_gate (e : event) : bool :=
  match e with
  | ClientInit _ | GetBucketLocation _ | ListDistributions _
  | GetDistributionConfig _ _ => true
  | Input prompt _ => negb (String.eqb prompt confirm_prompt)
  | _ => false
  end.

(** What the operator typed confirms the deletion. *)
Definition affirmative (answer : option string) : bool :=
  match answer with
  | Some line => String.eqb (Py.lower (Py.strip line)) "yes"
  | None => false
  end.

(** The distribution the orchestrator hands to the CDN teardown: the one the
    locator returned, provided its id and token are non-empty (the test
    [if distribution_id and distribution_etag] of [main]). *)
Definition identified (cf_info : option (string * string)) : option (string * string) :=
  match cf_info with
  | Some (id, etag) => if Py.truthy id && Py.truthy etag then Some (id, etag) else None
  | None => None
  end.

(** Calls on the bucket. *)
Definition bucket_call (e : event) : bool := emptier_call e || deleter_call e.

(** *** The emptier *)

(** The enumeration: versions, then delete markers, page after page. *)
Definition keys_of (pages : list (ErrorCode + VersionsPage)) : list ObjectIdentifier :=
  flat_map (fun p => match p with
                     | inr page => Versions page ++ DeleteMarkers page
                     | inl _ => []
                     end) pages.

(** The batches handed to [delete_objects], in order. *)
Definition batches (l : list event) : list (list ObjectIdentifier) :=
  flat_map (fun e => match e with DeleteObjects _ batch _ => [batch] | _ => [] end) l.

(** The storage call was answered, and without per-object errors. *)
Definition answered (e : event) : bool :=
  match e with
  | GetBucketVersioning _ ok | ListObjectVersions _ ok | ListDistributions ok => ok
  | DeleteObjects _ _ errors => match errors with Some [] => true | _ => false end
  | _ => true
  end.

(** A call that completes more than 300 seconds after [start]. *)
Definition over_budget (start : Z) (te : Z * event) : bool :=
  (S3_DELETE_TIMEOUT_SECONDS <? fst te - start)%Z.

(** A full batch deleted without error, the deletion completing more than
    300 seconds after [start]. *)
Definition late_full_batch (start : Z) (te : Z * event) : bool :=
  match snd te with
  | DeleteObjects _ batch (Some []) =>
      (List.length batch =? BATCH_SIZE)%nat && over_budget start te
  | _ => false
  end.

(** What a loop of the emptier guarantees: [before] are the entries to
    delete, [new] the calls it appended, [r] its outcome. *)
Definition emptier_loop_post (start : Z) (before : list ObjectIdentifier)
           (new : list (Z * event)) (r : res (flow (list ObjectIdentifier) bool)) : Prop :=
  (existsb (late_full_batch start) new = true -> r = Ok (Return false))
  /\ match r with
     | Ok (Continue after) =>
         before = List.concat (batches (map snd new)) ++ after
         /\ Forall (fun b => List.length b = BATCH_SIZE) (batches (map snd new))
         /\ (List.length after < BATCH_SIZE)%nat
     | Ok (Return b) => b = false
     | Raise _ => forallb answered (map snd new) = false
     | OutOfFuel => False
     end.

(** ** Accounts used to exercise the statements *)

Module Accounts.

Import Timeline.

(** The bucket of a previous, complete run: it is gone. *)
Definition vanished : account :=
  {| typed := typed quiet;
     location := inl "NoSuchBucket";
     dist_pages := [];
     config_of := config_of quiet;
     update_answer := update_answer quiet;
     status_at := status_at quiet;
     delete_distribution_answer := inr tt;
     versioning := inl "NoSuchBucket";
     object_pages := [];
     bulk_delete_at := bulk_delete_at quiet;
     delete_bucket_answer := inl "NoSuchBucket";
     waiter_answer := true;
     poll_latency := 1; page_latency := 0; bulk_delete_latency := 0 |}.

Definition site_origin : Origin :=
  {| DomainName := Some "site.s3-website-us-east-1.amazonaws.com" |}.

Definition site_config (enabled : bool) : DistributionConfig :=
  {| Enabled := enabled; Origins := Some {| OriginItems := Some [site_origin] |} |}.

(** One distribution [E1] in front of the bucket, with token [T1]; an update
    is answered with token [T2]; the distribution is [InProgress] until time
    [deployed_from], [Deployed] until [gone_from], and gone afterwards. *)
Definition fronted (enabled : bool) (deployed_from gone_from : Z) : account :=
  {| typed := typed quiet;
     location := inr None;
     dist_pages := [inr {| DistributionList := Some (Some [{| Id := "E1" |}]) |}];
     config_of := fun id =>
       if String.eqb id "E1"
       then inr {| Config := site_config enabled; ETag := "T1" |}
       else inl "NoSuchDistribution";
     update_answer := inr "T2";
     status_at := fun t =>
       if (t <? deployed_from)%Z then inr {| Status := "InProgress" |}
       else if (t <? gone_from)%Z then inr {| Status := "Deployed" |}
       else gone;
     delete_distribution_answer := inr tt;
     versioning := inr None;
     object_pages := [];
     bulk_delete_at := bulk_delete_at quiet;
     delete_bucket_answer := inr tt;
     waiter_answer := true;
     poll_latency := 1; page_latency := 0; bulk_delete_latency := 0 |}.

(** The operator answers the confirmation prompt with [answer]. *)
Definition answering (answer : option string) (a : account) : account :=
  {| typed := fun prompt =>
       if String.eqb prompt confirm_prompt then answer else typed a prompt;
     location := location a;
     dist_pages := dist_pages a;
     config_of := config_of a;
     update_answer := update_answer a;
     status_at := status_at a;
     delete_distribution_answer := delete_distribution_answer a;
     versioning := versioning a;
     object_pages := object_pages a;
     bulk_delete_at := bulk_delete_at a;
     delete_bucket_answer := delete_bucket_answer a;
     waiter_answer := waiter_answer a;
     poll_latency := poll_latency a;
     page_latency := page_latency a;
     bulk_delete_latency := bulk_delete_latency a |}.

(** The listing of distributions fails on its second page. *)
Definition unlistable : account :=
  {| typed := typed quiet;
     location := inr None;
     dist_pages := [inr {| DistributionList := Some (Some [{| Id := "E1" |}]) |};
                    inl "Throttling"];
     config_of := config_of (fronted true 0 20);
     update_answer := inr "T2";
     status_at := status_at (fronted true 0 20);
     delete_distribution_answer := inr tt;
     versioning := inr None;
     object_pages := [];
     bulk_delete_at := bulk_delete_at quiet;
     delete_bucket_answer := inr tt;
     waiter_answer := true;
     poll_latency := 1; page_latency := 0; bulk_delete_latency := 0 |}.

(** Three distributions in front of the bucket, on two pages. *)
Definition thrice_fronted : account :=
  {| typed := typed quiet;
     location := inr None;
     dist_pages := [inr {| DistributionList := Some (Some [{| Id := "E0" |}; {| Id := "E1" |}]) |};
                    inr {| DistributionList := Some (Some [{| Id := "E2" |}; {| Id := "E3" |}]) |}];
     config_of := fun id =>
       if String.eqb id "E0" then inl "AccessDenied"
       else inr {| Config := site_config true; ETag := "T-" ++ id |};
     update_answer := inr "T2";
     status_at := fun _ => inr {| Status := "Deployed" |};
     delete_distribution_answer := inr tt;
     versioning := inr None;
     object_pages := [];
     bulk_delete_at := bulk_delete_at quiet;
     delete_bucket_answer := inr tt;
     waiter_answer := true;
     poll_latency := 1; page_latency := 0; bulk_delete_latency := 0 |}.

Definition object (n : nat) : ObjectIdentifier :=
  {| Key := "index.html"; VersionId := NilEmpty.string_of_uint (Nat.to_uint n) |}.

(** Objects number [from], [from + 1], ... *)
Definition objects (from count : nat) : list ObjectIdentifier :=
  map object (seq from count).

(** A bucket whose listing comes in the given pages; fetching a page takes
    [listing] seconds, a bulk delete [deleting] seconds and is answered with
    the per-object errors [errors]. *)
Definition stocked (pages : list VersionsPage) (listing deleting : Z)
           (errors : list string) : account :=
  {| typed := typed quiet;
     location := inr None;
     dist_pages := [];
     config_of := config_of quiet;
     update_answer := update_answer quiet;
     status_at := status_at quiet;
     delete_distribution_answer := inr tt;
     versioning := inr (Some "Enabled");
     object_pages := map inr pages;
     bulk_delete_at := fun _ => inr {| Errors := errors |};
     delete_bucket_answer := inr tt;
     waiter_answer := true;
     poll_latency := 1; page_latency := listing; bulk_delete_latency := deleting |}.

(** 2500 entries on three pages: 900 versions and 300 delete markers, then
    1300 versions, then an empty page. *)
Definition pages_2500 : list VersionsPage :=
  [ {| Versions := objects 0 900; DeleteMarkers := objects 900 300 |};
    {| Versions := objects 1200 1300; DeleteMarkers := [] |};
    {| Versions := []; DeleteMarkers := [] |} ].

(** 1500 entries on two pages. *)
Definition pages_1500 : list VersionsPage :=
  [ {| Versions := objects 0 1000; DeleteMarkers := [] |};
    {| Versions := objects 1000 500; DeleteMarkers := [] |} ].

(** The bucket [site] with 42 object versions on one page and no
    distribution. *)
Definition small_site : account :=
  stocked [ {| Versions := objects 0 42; DeleteMarkers := [] |} ] 0 0 [].

End Accounts.

(** ** Further vocabulary *)

(** [m] raises only exceptions that satisfy [P]. *)
Definition throws {W : Type} {A : Type} (P : exn -> Prop) (m : @M W A) : Prop :=
  forall s e s', m s = (Raise e, s') -> P e.

Definition is_client_error (e : exn) : Prop :=
  match e with ClientError _ => True | _ => False end.

(** No exception at all. *)
Definition no_exception (e : exn) : Prop := False.

(** What may escape [main]. *)
Definition exit_or_closed_input (e : exn) : Prop :=
  e = SystemExit 0 \/ e = SystemExit 1 \/ e = EOFError.

(** A [ClientError] with a code other than [NoSuchDistribution]. *)
Definition other_client_error (e : exn) : Prop :=
  match e with ClientError code => code <> "NoSuchDistribution" | _ => False end.

(** [m] returns only values that satisfy [P]. *)
Definition yields {W : Type} {A : Type} (P : A -> Prop) (m : @M W A) : Prop :=
  forall s a s', m s = (Ok a, s') -> P a.

(** The service never answers a call on the distribution [id] with
    [NoSuchDistribution]. *)
Definition never_reported_gone {W : Type} {cloud : Cloud W} (id : string) : Prop :=
  (forall w : W, fst (get_distribution_config id w) <> inl "NoSuchDistribution")
  /\ (forall config t (w : W),
        fst (update_distribution config id t w) <> inl "NoSuchDistribution")
  /\ (forall w : W, fst (get_distribution id w) <> inl "NoSuchDistribution")
  /\ (forall t (w : W), fst (delete_distribution id t w) <> inl "NoSuchDistribution").

(** Every update call sends a configuration with [Enabled] false. *)
Definition update_disables (e : event) : Prop :=
  match e with
  | UpdateDistribution _ config _ _ => Enabled config = false
  | _ => True
  end.

(** The pair held in [found_distribution] was returned by a configuration
    fetch among the calls [l]. *)
Definition found_was_fetched (acc : Found) (l : list event) : Prop :=
  match fst acc with
  | Some (id, etag) => In (GetDistributionConfig id (Some etag)) l
  | None => True
  end.

(** A string of white space only. *)
Definition blank (s : string) : bool :=
  forallb Py.isspace (list_ascii_of_string s).

(** A call that is not a blank answer to the prompt for the bucket name or
    for the region. *)
Definition usable_answer (e : event) : Prop :=
  match e with
  | Input prompt (Some line) => prompt = confirm_prompt \/ blank line = false
  | _ => True
  end.

(** A bulk delete that was answered with per-object errors. *)
Definition reports_errors (e : event) : bool :=
  match e with
  | DeleteObjects _ _ (Some (_ :: _)) => true
  | _ => false
  end.

(** What a loop of the emptier guarantees whatever its outcome: the batches
    sent are full and are cut, in order, off the front of [before]; only the
    last call can have failed; reported errors end the function with
    [False]; a [False] and an exception have a cause. *)
Definition emptier_loop_sent (start : Z) (before : list ObjectIdentifier)
           (new : list (Z * event)) (r : res (flow (list ObjectIdentifier) bool)) : Prop :=
  Forall (fun b => List.length b = BATCH_SIZE) (batches (map snd new))
  /\ (exists rest,
        before = List.concat (batches (map snd new)) ++ rest
        /\ forall after, r = Ok (Continue after) -> rest = after)
  /\ forallb answered (removelast (map snd new)) = true
  /\ (existsb reports_errors (map snd new) = true -> r = Ok (Return false))
  /\ match r with
     | Ok (Continue after) =>
         forallb answered (map snd new) = true
         /\ (List.length after < BATCH_SIZE)%nat
     | Ok (Return b) =>
         b = false
         /\ (forallb answered (map snd new) = false
             \/ existsb (late_full_batch start) new = true)
     | Raise e => is_client_error e /\ forallb answered (map snd new) = false
     | OutOfFuel => False
     end.


(** No two status polls in a row, and every sleep lasts the polling
    interval. *)
Fixpoint spaced (l : list event) : bool :=
  match l with
  | [] => true
  | e :: rest =>
      match e, rest with
      | GetDistribution _ _, GetDistribution _ _ :: _ => false
      | Sleep seconds, _ => (seconds =? POLLING_INTERVAL_SECONDS)%Z
      | _, _ => true
      end && spaced rest
  end.

(** One round of a wait: a status poll that was answered, and a sleep. *)
Definition round (id : string) (status : string) : list event :=
  [GetDistribution id (Some status); Sleep POLLING_INTERVAL_SECONDS].

(** The confirmation prompt. *)
Definition gate_call (e : event) : bool :=
  match e with
  | Input prompt _ => String.eqb prompt confirm_prompt
  | _ => false
  end.

(** ** Further accounts *)

Module Scenes.

Import Timeline.

(** The operator's answers are replaced by [answers]. *)
Definition hearing (answers : string -> option string) (a : account) : account :=
  {| typed := answers;
     location := location a;
     dist_pages := dist_pages a;
     config_of := config_of a;
     update_answer := update_answer a;
     status_at := status_at a;
     delete_distribution_answer := delete_distribution_answer a;
     versioning := versioning a;
     object_pages := object_pages a;
     bulk_delete_at := bulk_delete_at a;
     delete_bucket_answer := delete_bucket_answer a;
     waiter_answer := waiter_answer a;
     poll_latency := poll_latency a;
     page_latency := page_latency a;
     bulk_delete_latency := bulk_delete_latency a |}.

Definition docs_config : DistributionConfig :=
  {| Enabled := true;
     Origins := Some {| OriginItems :=
       Some [ {| DomainName := Some "docs.s3-website-eu-west-1.amazonaws.com" |};
              {| DomainName := None |} ] |} |}.

(** Four distributions on three pages, the second page without a list:
    the configuration of [E0] cannot be fetched, [E1] fronts the bucket
    [site], [E2] and [E3] front another bucket. *)
Definition crowded : account :=
  {| typed := typed quiet;
     location := inr None;
     dist_pages :=
       [ inr {| DistributionList := Some (Some [{| Id := "E0" |}; {| Id := "E1" |}]) |};
         inr {| DistributionList := Some None |};
         inr {| DistributionList := Some (Some [{| Id := "E2" |}; {| Id := "E3" |}]) |} ];
     config_of := fun id =>
       if String.eqb id "E0" then inl "AccessDenied"
       else if String.eqb id "E1"
            then inr {| Config := Accounts.site_config true; ETag := "T1" |}
            else inr {| Config := docs_config; ETag := "T9" |};
     update_answer := inr "T2";
     status_at := fun t =>
       if (t <? 25)%Z then inr {| Status := "InProgress" |}
       else if (t <? 40)%Z then inr {| Status := "Deployed" |}
       else gone;
     delete_distribution_answer := inr tt;
     versioning := inr (Some "Enabled");
     object_pages := map inr Accounts.pages_1500;
     bulk_delete_at := fun _ => inr {| Errors := [] |};
     delete_bucket_answer := inr tt;
     waiter_answer := true;
     poll_latency := 1; page_latency := 1; bulk_delete_latency := 2 |}.

(** The bucket is deleted, but the waiter gives up. *)
Definition lingering : account :=
  {| typed := typed quiet;
     location := inr (Some "eu-west-1");
     dist_pages := [];
     config_of := config_of quiet;
     update_answer := update_answer quiet;
     status_at := status_at quiet;
     delete_distribution_answer := inr tt;
     versioning := inr None;
     object_pages := [];
     bulk_delete_at := bulk_delete_at quiet;
     delete_bucket_answer := inr tt;
     waiter_answer := false;
     poll_latency := 1; page_latency := 0; bulk_delete_latency := 0 |}.

End Scenes.

(** ** Times and buckets *)

(** One round of a wait with the times at which the poll and the sleep
    completed. *)
Definition stamped_round (id : string) (r : Z * string * Z) : list (Z * event) :=
  [ (fst (fst r), GetDistribution id (Some (snd (fst r))));
    (snd r, Sleep POLLING_INTERVAL_SECONDS) ].

(** A wait does not go on past its budget: a status poll is followed by a
    sleep only when it completed within 600 seconds of the call, update or
    delete, that started the wait. *)
Fixpoint within_budget (started : option Z) (tr : list (Z * event)) : bool :=
  match tr with
  | [] => true
  | (t, e) :: rest =>
      match e, rest with
      | GetDistribution _ _, (_, Sleep _) :: _ =>
          match started with
          | Some t0 => (t - t0 <=? CLOUDFRONT_TIMEOUT_SECONDS)%Z
          | None => false
          end
      | _, _ => true
      end
      && within_budget (match e with
                        | UpdateDistribution _ _ _ _ | DeleteDistribution _ _ => Some t
                        | _ => started
                        end) rest
  end.

(** The bucket a storage call is made on. *)
Definition bucket_of (e : event) : option string :=
  match e with
  | GetBucketLocation b | GetBucketVersioning b _ | ListObjectVersions b _
  | DeleteObjects b _ _ | DeleteBucket b | WaitBucketNotExists b => Some b
  | _ => None
  end.


(** ** Pace of the emptier *)

(** A request for a page of the object listing. *)
Definition is_page_request (e : event) : bool :=
  match e with ListObjectVersions _ _ => true | _ => false end.

(** The number of pages requested among the calls [l]. *)
Definition pages_requested (l : list event) : nat :=
  List.length (filter is_page_request l).

(** A call after which the emptier goes on: it was answered, without
    per-object errors, and it is not a full batch whose deletion completed
    over the budget. *)
Definition goes_on (start : Z) (te : Z * event) : bool :=
  answered (snd te) && negb (late_full_batch start te).

(** * Reasoning about the script *)

Section Reasoning.

Context {W : Type} {cloud : Cloud W}.

Lemma bind_inv {A B} (m : @M W A) (k : A -> @M W B) s r s' :
  bind m k s = (r, s') ->
  (exists a s1, m s = (Ok a, s1) /\ k a s1 = (r, s'))
  \/ (exists e, m s = (Raise e, s') /\ r = Raise e)
  \/ (m s = (OutOfFuel, s') /\ r = OutOfFuel).
Proof.
  unfold bind. destruct (m s) as [[a|e|] s1]; intros E.
  - left. eauto.
  - right. left. inversion E; subst. eauto.
  - right. right. inversion E; subst. eauto.
Qed.

Lemma try_except_inv {A} (m : @M W A) handler s r s' :
  try_except m handler s = (r, s') ->
  (m s = (r, s') /\ (forall e, r = Raise e -> handler e = None))
  \/ (exists e h s1, m s = (Raise e, s1) /\ handler e = Some h /\ h s1 = (r, s')).
Proof.
  unfold try_except. destruct (m s) as [[a|e|] s1] eqn:E; intros E'.
  - left. inversion E'; subst. split; [reflexivity | discriminate].
  - destruct (handler e) as [h|] eqn:Hh.
    + right. eauto 6.
    + left. inversion E'; subst. split; [reflexivity|].
      intros e' He'. inversion He'; subst. exact Hh.
  - left. inversion E'; subst. split; [reflexivity | discriminate].
Qed.

Lemma bind_ok {A B} (m : @M W A) (k : A -> @M W B) s a s1 :
  m s = (Ok a, s1) -> bind m k s = k a s1.
Proof. unfold bind. intros ->. reflexivity. Qed.

Lemma bind_raise {A B} (m : @M W A) (k : A -> @M W B) s e s1 :
  m s = (Raise e, s1) -> bind m k s = (Raise e, s1).
Proof. unfold bind. intros ->. reflexivity. Qed.

Lemma bind_out_of_fuel {A B} (m : @M W A) (k : A -> @M W B) s s1 :
  m s = (OutOfFuel, s1) -> bind m k s = (OutOfFuel, s1).
Proof. unfold bind. intros ->. reflexivity. Qed.

Lemma try_except_ok {A} (m : @M W A) handler s a s1 :
  m s = (Ok a, s1) -> try_except m handler s = (Ok a, s1).
Proof. unfold try_except. intros ->. reflexivity. Qed.

Lemma try_except_caught {A} (m : @M W A) handler s e h s1 :
  m s = (Raise e, s1) -> handler e = Some h -> try_except m handler s = h s1.
Proof. unfold try_except. intros -> ->. reflexivity. Qed.

Lemma try_except_uncaught {A} (m : @M W A) handler s e s1 :
  m s = (Raise e, s1) -> handler e = None -> try_except m handler s = (Raise e, s1).
Proof. unfold try_except. intros -> ->. reflexivity. Qed.

Lemma try_except_out_of_fuel {A} (m : @M W A) handler s s1 :
  m s = (OutOfFuel, s1) -> try_except m handler s = (OutOfFuel, s1).
Proof. unfold try_except. intros ->. reflexivity. Qed.

Lemma invoke_ok {A} (op : W -> (ErrorCode + A) * W) ev s a w :
  op (world s) = (inr a, w) -> invoke op ev s = (Ok a, record w (ev (inr a)) s).
Proof. unfold invoke. intros ->. reflexivity. Qed.

Lemma invoke_error {A} (op : W -> (ErrorCode + A) * W) ev s code w :
  op (world s) = (inl code, w) ->
  invoke op ev s = (Raise (ClientError code), record w (ev (inl code)) s).
Proof. unfold invoke. intros ->. reflexivity. Qed.

Lemma invoke_cases {A} (op : W -> (ErrorCode + A) * W) ev s :
  (exists a w, op (world s) = (inr a, w)
               /\ invoke op ev s = (Ok a, record w (ev (inr a)) s))
  \/ (exists code w, op (world s) = (inl code, w)
                     /\ invoke op ev s
                        = (Raise (ClientError code), record w (ev (inl code)) s)).
Proof.
  destruct (op (world s)) as [[code|a] w] eqn:E.
  - right. exists code, w. split; [reflexivity | apply invoke_error; exact E].
  - left. exists a, w. split; [reflexivity | apply invoke_ok; exact E].
Qed.

Lemma bind_assoc {A B C} (m : @M W A) (k : A -> @M W B) (k' : B -> @M W C) s :
  bind (bind m k) k' s = bind m (fun a => bind (k a) k') s.
Proof. unfold bind. destruct (m s) as [[a|e|] s1]; reflexivity. Qed.

Lemma for_each_cons {X S R} (body : X -> S -> @M W (flow S R)) x xs acc :
  for_each body (x :: xs) acc
  = bind (body x acc) (fun f =>
      match f with
      | Continue acc' => for_each body xs acc'
      | Return r => ret (Return r)
      end).
Proof. reflexivity. Qed.

(** Steps that only compute leave the state as it is. *)
Lemma bind_state {A B} (m : @M W A) (k : A -> @M W B) s :
  (forall a s1, snd (k a s1) = s1) -> snd (bind m k s) = snd (m s).
Proof.
  intros Hk. unfold bind. destruct (m s) as [[a|e|] s1]; simpl; auto.
Qed.

Lemma try_except_state {A} (m : @M W A) handler s :
  (forall e h s1, handler e = Some h -> snd (h s1) = s1) ->
  snd (try_except m handler s) = snd (m s).
Proof.
  intros Hh. unfold try_except. destruct (m s) as [[a|e|] s1]; simpl; auto.
  destruct (handler e) as [h|] eqn:E; simpl; eauto.
Qed.

Lemma calls_app (s s' : @st W) l :
  trace s' = trace s ++ l -> calls s' = calls s ++ map snd l.
Proof. unfold calls. intros ->. apply map_app. Qed.

Lemma emits_calls {A} P (m : @M W A) s r s' :
  emits P m -> m s = (r, s') ->
  exists l, calls s' = calls s ++ l /\ Forall P l.
Proof.
  intros Hm E. destruct (Hm _ _ _ E) as (l & Hl & Hf).
  exists (map snd l). split; [apply calls_app; exact Hl|].
  apply Forall_map. exact Hf.
Qed.

Lemma world_record w e (s : @st W) : world (record w e s) = w.
Proof. reflexivity. Qed.

Lemma calls_record w e (s : @st W) : calls (record w e s) = calls s ++ [e].
Proof. unfold calls, record. simpl. rewrite map_app. reflexivity. Qed.


Lemma emits_ret {A} P (a : A) : emits P (@ret W A a).
Proof. intros s r s' E. inversion E; subst. exists []. rewrite app_nil_r. auto. Qed.

Lemma emits_raise {A} P e : emits P (@raise W A e).
Proof. intros s r s' E. inversion E; subst. exists []. rewrite app_nil_r. auto. Qed.

Lemma emits_sys_exit {A} P n : emits P (@sys_exit W A n).
Proof. apply emits_raise. Qed.

Lemma emits_out_of_fuel {A} P : emits P (@out_of_fuel W A).
Proof. intros s r s' E. inversion E; subst. exists []. rewrite app_nil_r. auto. Qed.

Lemma emits_observe {A} P (f : W -> A) : emits P (observe f).
Proof. intros s r s' E. inversion E; subst. exists []. rewrite app_nil_r. auto. Qed.

Lemma emits_time_time P : emits P time_time.
Proof. apply emits_observe. Qed.

Lemma emits_bind {A B} P (m : @M W A) (k : A -> @M W B) :
  emits P m -> (forall a, emits P (k a)) -> emits P (bind m k).
Proof.
  intros Hm Hk s r s' E.
  destruct (bind_inv _ _ _ _ _ E) as [(a & s1 & E1 & E2) | [(e & E1 & _) | (E1 & _)]].
  - destruct (Hm _ _ _ E1) as (l1 & T1 & F1).
    destruct (Hk a _ _ _ E2) as (l2 & T2 & F2).
    exists (l1 ++ l2). rewrite T2, T1, app_assoc. split; [reflexivity|].
    apply Forall_app; auto.
  - eauto.
  - eauto.
Qed.

Lemma emits_try_except {A} P (m : @M W A) handler :
  emits P m -> (forall e h, handler e = Some h -> emits P h) ->
  emits P (try_except m handler).
Proof.
  intros Hm Hh s r s' E.
  destruct (try_except_inv _ _ _ _ _ E) as [(E1 & _) | (e & h & s1 & E1 & He & E2)].
  - eauto.
  - destruct (Hm _ _ _ E1) as (l1 & T1 & F1).
    destruct (Hh e h He _ _ _ E2) as (l2 & T2 & F2).
    exists (l1 ++ l2). rewrite T2, T1, app_assoc. split; [reflexivity|].
    apply Forall_app; auto.
Qed.

Lemma emits_except_ClientError {A} P (h : ErrorCode -> @M W A) e m :
  (forall code, emits P (h code)) -> except_ClientError h e = Some m -> emits P m.
Proof. destruct e; simpl; intros Hh E; inversion E; subst; auto. Qed.

Lemma emits_except_EOFError {A} P (h : @M W A) e m :
  emits P h -> except_EOFError h e = Some m -> emits P m.
Proof. destruct e; simpl; intros Hh E; inversion E; subst; auto. Qed.

Lemma emits_except_Exception {A} P (h : @M W A) e m :
  emits P h -> except_Exception h e = Some m -> emits P m.
Proof. destruct e; simpl; intros Hh E; inversion E; subst; auto. Qed.

Lemma emits_record P w e (s : @st W) :
  P e -> exists l, trace (record w e s) = trace s ++ l /\ Forall (fun te => P (snd te)) l.
Proof. intros He. exists [(now w, e)]. split; [reflexivity|]. repeat constructor. exact He. Qed.

Lemma emits_invoke {A} P (op : W -> (ErrorCode + A) * W) ev :
  (forall r, P (ev r)) -> emits P (invoke op ev).
Proof.
  intros Hev s r s' E. unfold invoke in E.
  destruct (op (world s)) as [[code|a] w]; inversion E; subst; apply emits_record; auto.
Qed.

Lemma emits_input P prompt :
  (forall r, P (Input prompt r)) -> emits P (input prompt).
Proof.
  intros Hev s r s' E. unfold input in E.
  destruct (read_line prompt (world s)) as [[line|] w]; inversion E; subst;
    apply emits_record; auto.
Qed.

Lemma emits_time_sleep P n : P (Sleep n) -> emits P (time_sleep n).
Proof. intros Hev s r s' E. inversion E; subst. apply emits_record; auto. Qed.

Lemma emits_next_page {X} P ev (page : ErrorCode + X) :
  (forall ok, P (ev ok)) -> emits P (next_page ev page).
Proof.
  intros Hev s r s' E. unfold next_page in E.
  destruct page; inversion E; subst; apply emits_record; auto.
Qed.

Lemma emits_for_each {X S R} P (body : X -> S -> @M W (flow S R)) xs :
  (forall x acc, emits P (body x acc)) -> forall acc, emits P (for_each body xs acc).
Proof.
  intros Hb. induction xs as [|x xs IH]; intros acc; simpl.
  - apply emits_ret.
  - apply emits_bind; [apply Hb|]. intros [acc'|r]; [apply IH | apply emits_ret].
Qed.

Lemma emits_while_true {B R} P fuel (body : @M W (flow unit (B + R))) :
  emits P body -> emits P (while_true fuel body).
Proof.
  intros Hb. induction fuel as [|fuel IH]; simpl.
  - apply emits_out_of_fuel.
  - apply emits_bind; [exact Hb|]. intros [[]|r]; [exact IH | apply emits_ret].
Qed.

End Reasoning.

Create HintDb emits.

#[global] Hint Resolve emits_ret emits_raise emits_sys_exit emits_out_of_fuel
  emits_observe emits_time_time : emits.

(** Break a script into its steps; the side conditions on single calls are
    left to [auto]. *)
Ltac emits_step :=
  match goal with
  | |- emits _ (bind _ _) => apply emits_bind; [|intros ?; cbv beta]
  | |- emits _ (try_except _ _) => apply emits_try_except; [|intros ? ? ?]
  | H : except_ClientError _ _ = Some _ |- emits _ _ =>
      eapply emits_except_ClientError; [|exact H]; clear H; intros ?; cbv beta
  | H : except_EOFError _ _ = Some _ |- emits _ _ =>
      eapply emits_except_EOFError; [|exact H]; clear H
  | H : except_Exception _ _ = Some _ |- emits _ _ =>
      eapply emits_except_Exception; [|exact H]; clear H
  | |- emits _ (invoke _ _) => apply emits_invoke; intros ?
  | |- emits _ (input _) => apply emits_input; intros ?
  | |- emits _ (time_sleep _) => apply emits_time_sleep
  | |- emits _ (next_page _ _) => apply emits_next_page; intros ?
  | |- emits _ (for_each _ _ _) => apply emits_for_each; intros ? ?
  | |- emits _ (while_true _ _) => apply emits_while_true
  | |- emits _ (ret _) => apply emits_ret
  | |- emits _ (sys_exit _) => apply emits_sys_exit
  | |- emits _ (raise _) => apply emits_raise
  | |- emits _ out_of_fuel => apply emits_out_of_fuel
  | |- emits _ time_time => apply emits_time_time
  | |- emits _ (observe _) => apply emits_observe
  | |- emits _ (if ?b then _ else _) => destruct b
  | |- emits _ (match ?x with _ => _ end) => destruct x
  end.

Ltac emits_auto := repeat emits_step; auto with emits.

(** ** What each stage may call *)

Section Stages.

Context {W : Type} {cloud : Cloud W}.

Variable P : event -> Prop.

Lemma get_s3_bucket_region_emits bucket_name :
  P (GetBucketLocation bucket_name) -> emits P (get_s3_bucket_region bucket_name).
Proof. intros HP. unfold get_s3_bucket_region. emits_auto. Qed.

Lemma find_cloudfront_for_s3_bucket_emits bucket_name region :
  (forall e, locator_call e = true -> P e) ->
  emits P (find_cloudfront_for_s3_bucket bucket_name region).
Proof.
  intros HP. unfold find_cloudfront_for_s3_bucket, check_page, check_distribution.
  emits_auto; apply HP; reflexivity.
Qed.

Lemma confirm_deletion_emits bucket_name distribution_id :
  (forall line, P (Input confirm_prompt line)) ->
  emits P (confirm_deletion bucket_name distribution_id).
Proof. intros HP. unfold confirm_deletion. emits_auto. Qed.

Lemma poll_disabled_emits id start :
  (forall e, polling_call e = true -> P e) -> emits P (poll_disabled id start).
Proof. intros HP. unfold poll_disabled. emits_auto; apply HP; reflexivity. Qed.

Lemma poll_deleted_emits id start :
  (forall e, polling_call e = true -> P e) -> emits P (poll_deleted id start).
Proof. intros HP. unfold poll_deleted. emits_auto; apply HP; reflexivity. Qed.

Lemma disable_and_wait_emits id dist_config current_etag fuel :
  (forall e, cdn_call e = true -> P e) ->
  emits P (disable_and_wait id dist_config current_etag fuel).
Proof.
  intros HP. unfold disable_and_wait.
  emits_auto; try (apply HP; reflexivity).
  apply poll_disabled_emits. intros e He. apply HP. destruct e; simpl in *; congruence.
Qed.

Lemma delete_and_wait_emits id latest_etag fuel :
  (forall e, cdn_call e = true -> P e) ->
  emits P (delete_and_wait id latest_etag fuel).
Proof.
  intros HP. unfold delete_and_wait.
  emits_auto; try (apply HP; reflexivity).
  apply poll_deleted_emits. intros e He. apply HP. destruct e; simpl in *; congruence.
Qed.

Lemma delete_cloudfront_distribution_emits id etag fuel :
  (forall e, cdn_call e = true -> P e) ->
  emits P (delete_cloudfront_distribution id etag fuel).
Proof.
  intros HP. unfold delete_cloudfront_distribution, disable_then_delete, cdn_error.
  repeat first [ apply disable_and_wait_emits; exact HP
               | apply delete_and_wait_emits; exact HP
               | emits_step ]; auto; apply HP; reflexivity.
Qed.

Lemma delete_full_batches_unfold rounds bucket_name start_time objs :
  @delete_full_batches W cloud rounds bucket_name start_time objs =
  if (BATCH_SIZE <=? List.length objs)%nat then
    match rounds with
    | O => out_of_fuel
    | S rounds' =>
        bind (invoke (delete_objects bucket_name (firstn BATCH_SIZE objs))
                (fun r => DeleteObjects bucket_name (firstn BATCH_SIZE objs) (errors_of r)))
          (fun delete_response =>
             if nonempty (Errors delete_response) then ret (Return false)
             else
               bind time_time (fun t =>
                 if (t - start_time >? S3_DELETE_TIMEOUT_SECONDS)%Z then ret (Return false)
                 else delete_full_batches rounds' bucket_name start_time
                                          (skipn BATCH_SIZE objs)))
    end
  else ret (Continue objs).
Proof. destruct rounds; reflexivity. Qed.

Lemma delete_full_batches_emits rounds bucket_name start objs :
  (forall e, emptier_call e = true -> P e) ->
  emits P (delete_full_batches rounds bucket_name start objs).
Proof.
  intros HP. revert objs. induction rounds as [|rounds IH]; intros objs;
    rewrite delete_full_batches_unfold;
    destruct (BATCH_SIZE <=? List.length objs)%nat; emits_auto.
Qed.

Lemma empty_s3_bucket_emits bucket_name :
  (forall e, emptier_call e = true -> P e) -> emits P (empty_s3_bucket bucket_name).
Proof.
  intros HP. unfold empty_s3_bucket, collect_page.
  repeat first [ apply delete_full_batches_emits; exact HP | emits_step ];
    auto; try (apply HP; reflexivity).
Qed.

Lemma bucket_not_exists_waiter_emits bucket_name :
  P (WaitBucketNotExists bucket_name) -> emits P (bucket_not_exists_waiter bucket_name).
Proof.
  intros HP s r s' E. unfold bucket_not_exists_waiter in E.
  destruct (wait_bucket_not_exists bucket_name (world s)) as [ok w].
  inversion E; subst. apply emits_record; exact HP.
Qed.

Lemma delete_s3_bucket_emits bucket_name :
  (forall e, deleter_call e = true -> P e) -> emits P (delete_s3_bucket bucket_name).
Proof.
  intros HP. unfold delete_s3_bucket.
  apply emits_try_except.
  - emits_auto; try (apply HP; reflexivity).
    apply bucket_not_exists_waiter_emits. apply HP; reflexivity.
  - intros e h Hh. destruct e; inversion Hh; subst; emits_auto.
Qed.

Lemma teardown_emits bucket_name cf_info fuel :
  (forall e, cdn_call e = true -> P e) ->
  (forall e, emptier_call e = true -> P e) ->
  (forall e, deleter_call e = true -> P e) ->
  emits P (teardown bucket_name cf_info fuel).
Proof.
  intros H1 H2 H3. unfold teardown.
  repeat first
    [ apply delete_cloudfront_distribution_emits; exact H1
    | apply empty_s3_bucket_emits; exact H2
    | apply delete_s3_bucket_emits; exact H3
    | emits_step ]; auto.
Qed.

End Stages.

(** * Properties of the script *)

Section Idempotence.

Context {W : Type} {cloud : Cloud W}.

(** C9.  A bucket that does not exist when it is called on (S3 answers
    [NoSuchBucket]) makes both the emptier and the deleter return success;
    a teardown without distribution run on such a bucket ends with success. *)
Theorem absent_bucket_is_success (bucket : string) (w w' : W) :
  fst (get_bucket_versioning bucket w) = inl "NoSuchBucket" ->
  fst (delete_bucket bucket w') = inl "NoSuchBucket" ->
  fst (run (empty_s3_bucket bucket) w) = Ok true
  /\ fst (run (delete_s3_bucket bucket) w') = Ok true
  /\ (w' = world (snd (run (empty_s3_bucket bucket) w)) ->
      forall fuel, fst (run (teardown bucket None fuel) w) = Ok tt).
Proof.
  intros Hv Hd.
  assert (He : forall s, world s = w ->
             exists s', empty_s3_bucket bucket s = (Ok true, s')).
  { intros s Hs. unfold empty_s3_bucket.
    destruct (get_bucket_versioning bucket (world s)) as [r w1] eqn:E.
    rewrite Hs in E. rewrite E in Hv. simpl in Hv. subst r.
    rewrite <- Hs in E.
    erewrite bind_ok by reflexivity.
    erewrite try_except_caught;
      [ | erewrite bind_raise; [reflexivity | apply invoke_error; exact E]
        | reflexivity ].
    simpl. eexists. reflexivity. }
  assert (Hdel : forall s, world s = w' ->
             exists s', delete_s3_bucket bucket s = (Ok true, s')).
  { intros s Hs. unfold delete_s3_bucket.
    destruct (delete_bucket bucket (world s)) as [r w1] eqn:E.
    rewrite Hs in E. rewrite E in Hd. simpl in Hd. subst r.
    rewrite <- Hs in E.
    erewrite try_except_caught;
      [ | erewrite bind_raise; [reflexivity | apply invoke_error; exact E]
        | reflexivity ].
    simpl. eexists. reflexivity. }
  split; [|split].
  - unfold run. destruct (He {| world := w; trace := [] |} eq_refl) as (s' & ->).
    reflexivity.
  - unfold run. destruct (Hdel {| world := w'; trace := [] |} eq_refl) as (s' & ->).
    reflexivity.
  - intros Hw' fuel. unfold run in *. unfold teardown. simpl option_map. cbv iota.
    destruct (He {| world := w; trace := [] |} eq_refl) as (s1 & E1).
    rewrite E1 in Hw'. simpl in Hw'.
    destruct (Hdel s1 (eq_sym Hw')) as (s2 & E2).
    erewrite bind_ok by reflexivity. cbv iota.
    erewrite bind_ok by (erewrite bind_ok by exact E1; reflexivity).
    cbv iota. erewrite bind_ok by exact E2. reflexivity.
Qed.

End Idempotence.

Lemma absent_bucket_is_success_witness :
  fst (run (empty_s3_bucket (cloud := Timeline.cloud Accounts.vanished) "site") 0%Z)
  = Ok true
  /\ fst (run (delete_s3_bucket (cloud := Timeline.cloud Accounts.vanished) "site") 0%Z)
     = Ok true.
Proof.
  destruct (absent_bucket_is_success (cloud := Timeline.cloud Accounts.vanished)
              "site" 0%Z 0%Z eq_refl eq_refl) as (H1 & H2 & _).
  split; assumption.
Defined.

Section Teardown_of_the_distribution.

Context {W : Type} {cloud : Cloud W}.

(** Calls of the delete step: one delete call with the given token, then
    polling. *)
Lemma delete_and_wait_calls id latest_etag fuel (s : @st W) :
  exists l, calls (snd (delete_and_wait id latest_etag fuel s))
            = calls s ++ DeleteDistribution id latest_etag :: l
            /\ Forall (fun e => polling_call e = true) l.
Proof.
  unfold delete_and_wait.
  destruct (invoke_cases (delete_distribution id latest_etag)
              (fun _ => DeleteDistribution id latest_etag) s)
    as [(a & w & Ew & E) | (code & w & Ew & E)].
  - rewrite !(bind_ok _ _ _ _ _ E).
    rewrite !(bind_ok _ _ _ _ _ (eq_refl : time_time _ = (Ok _, _))).
    rewrite !bind_state by (intros [[]|b] s1; reflexivity).
    match goal with |- context [while_true fuel ?b ?s0] =>
      destruct (while_true fuel b s0) as [r s'] eqn:El end.
    eapply (emits_calls (fun e => polling_call e = true)) in El;
      [|apply emits_while_true, poll_deleted_emits; auto].
    destruct El as (l & Hl & Hf). simpl. rewrite Hl, calls_record, <- app_assoc.
    exists l. auto.
  - rewrite !(bind_raise _ _ _ _ _ E). simpl. rewrite calls_record.
    exists []. auto.
Qed.

(** One round of the disable wait, case by case. *)
Lemma poll_disabled_cases id start (s : @st W) :
  (exists code w,
      get_distribution id (world s) = (inl code, w)
      /\ poll_disabled id start s
         = (Ok (Return (inr false)), record w (GetDistribution id None) s))
  \/ (exists d w,
        get_distribution id (world s) = (inr d, w)
        /\ Status d = "Deployed"
        /\ poll_disabled id start s
           = (Ok (Return (inl tt)),
              record w (GetDistribution id (Some "Deployed")) s))
  \/ (exists d w,
        get_distribution id (world s) = (inr d, w)
        /\ Status d <> "Deployed"
        /\ (now w - start > CLOUDFRONT_TIMEOUT_SECONDS)%Z
        /\ poll_disabled id start s
           = (Ok (Return (inr false)),
              record w (GetDistribution id (Some (Status d))) s))
  \/ (exists d w,
        get_distribution id (world s) = (inr d, w)
        /\ Status d <> "Deployed"
        /\ (now w - start <= CLOUDFRONT_TIMEOUT_SECONDS)%Z
        /\ poll_disabled id start s
           = (Ok (Continue tt),
              record (sleep POLLING_INTERVAL_SECONDS w) (Sleep POLLING_INTERVAL_SECONDS)
                     (record w (GetDistribution id (Some (Status d))) s))).
Proof.
  unfold poll_disabled.
  destruct (invoke_cases (get_distribution id)
              (fun r => GetDistribution id (status_of r)) s)
    as [(d & w & Ew & E) | (code & w & Ew & E)].
  - right.
    match goal with |- context [try_except ?m _ s] =>
      assert (Hin : m s =
        (if String.eqb (Status d) "Deployed" then ret (Return (inl tt))
         else if (now w - start >? CLOUDFRONT_TIMEOUT_SECONDS)%Z
              then ret (Return (inr false))
              else bind (time_sleep POLLING_INTERVAL_SECONDS)
                        (fun _ => ret (Continue tt)))
          (record w (GetDistribution id (Some (Status d))) s))
        by (erewrite bind_ok by exact E; erewrite bind_ok by reflexivity;
            reflexivity) end.
    destruct (String.eqb (Status d) "Deployed") eqn:Hs.
    + apply String.eqb_eq in Hs. left. exists d, w.
      repeat split; auto. apply try_except_ok. rewrite Hs in Hin. exact Hin.
    + apply String.eqb_neq in Hs. right.
      destruct (now w - start >? CLOUDFRONT_TIMEOUT_SECONDS)%Z eqn:Ht.
      * left. exists d, w. repeat split; auto; [lia|].
        apply try_except_ok. exact Hin.
      * right. exists d, w. repeat split; auto; [lia|].
        apply try_except_ok. exact Hin.
  - left. exists code, w. split; [exact Ew|].
    erewrite try_except_caught;
      [ reflexivity | erewrite bind_raise by exact E; reflexivity | reflexivity ].
Qed.

(** The disable wait: it is left by [break] right after a poll that saw
    [Deployed]; otherwise no poll saw [Deployed]. *)
Lemma wait_disabled_calls id start fuel (s : @st W) :
  exists r s' l,
    while_true fuel (poll_disabled id start) s = (r, s')
    /\ Forall (fun e => polling_call e = true) l
    /\ Forall (fun e => e <> GetDistribution id (Some "Deployed")) l
    /\ ((r = Ok (inl tt)
         /\ calls s' = calls s ++ l ++ [GetDistribution id (Some "Deployed")])
        \/ ((r = Ok (inr false) \/ r = OutOfFuel) /\ calls s' = calls s ++ l)).
Proof.
  revert s. induction fuel as [|fuel IH]; intros s.
  - exists OutOfFuel, s, []. simpl. rewrite app_nil_r. repeat split; auto.
  - simpl while_true.
    destruct (poll_disabled_cases id start s)
      as [(code & w & _ & E) | [(d & w & _ & Hd & E) | [(d & w & _ & Hd & Ht & E)
         | (d & w & _ & Hd & Ht & E)]]].
    + rewrite (bind_ok _ _ _ _ _ E). do 2 eexists. exists [GetDistribution id None].
      split; [reflexivity|]. rewrite calls_record.
      repeat split; auto; repeat constructor; discriminate.
    + rewrite (bind_ok _ _ _ _ _ E). do 2 eexists. exists [].
      split; [reflexivity|]. rewrite calls_record. repeat split; auto.
    + rewrite (bind_ok _ _ _ _ _ E). do 2 eexists.
      exists [GetDistribution id (Some (Status d))].
      split; [reflexivity|]. rewrite calls_record.
      repeat split; auto; repeat constructor. congruence.
    + rewrite (bind_ok _ _ _ _ _ E).
      match goal with |- context [while_true fuel _ ?s0] =>
        destruct (IH s0) as (r & s' & l & El & Hp & Hn & Hc) end.
      exists r, s', (GetDistribution id (Some (Status d)) :: Sleep POLLING_INTERVAL_SECONDS :: l).
      split; [exact El|].
      split; [repeat constructor; exact Hp|].
      split; [repeat constructor; [congruence | discriminate | exact Hn]|].
      rewrite !calls_record, <- !app_assoc in Hc. simpl in Hc.
      destruct Hc as [(Hr & Hc) | (Hr & Hc)]; [left | right]; split; auto.
Qed.

(** The handler of the CDN teardown only picks the return value. *)
Lemma delete_cloudfront_distribution_absorbs id etag fuel (s : @st W) :
  delete_cloudfront_distribution id etag fuel s
  = (absorbed (fst (disable_then_delete id fuel s)),
     snd (disable_then_delete id fuel s)).
Proof.
  unfold delete_cloudfront_distribution, try_except.
  destruct (disable_then_delete id fuel s) as [[b|e|] s1]; try reflexivity.
  destruct e; try reflexivity. simpl. unfold cdn_error.
  repeat match goal with |- context [if ?b then _ else _] => destruct b end;
    reflexivity.
Qed.

(** The runs of a CDN teardown follow one of five patterns. *)
Lemma delete_cloudfront_distribution_run id etag fuel (w : W) :
  cdn_run id (fst (run (delete_cloudfront_distribution id etag fuel) w))
             (calls (snd (run (delete_cloudfront_distribution id etag fuel) w))).
Proof.
  unfold run. rewrite delete_cloudfront_distribution_absorbs. simpl fst. simpl snd.
  unfold disable_then_delete.
  destruct (invoke_cases (get_distribution_config id)
              (fun r => GetDistributionConfig id (etag_of r)) {| world := w; trace := [] |})
    as [(c & w1 & _ & E) | (code & w1 & _ & E)].
  2:{ rewrite (bind_raise _ _ _ _ _ E). simpl. rewrite calls_record. constructor. }
  rewrite (bind_ok _ _ _ _ _ E). unfold disable_and_wait.
  destruct (Enabled (Config c)); simpl negb; cbv iota.
  2:{ erewrite bind_ok by reflexivity. cbv iota.
      match goal with |- context [delete_and_wait id ?t fuel ?s0] =>
        destruct (delete_and_wait_calls id t fuel s0) as (l & Hl & Hf) end.
      rewrite Hl, calls_record. simpl. constructor. exact Hf. }
  set (s1 := record w1 (GetDistributionConfig id (etag_of (inr c)))
                  {| world := w; trace := [] |}) in *.
  rewrite bind_assoc.
  destruct (invoke_cases
              (update_distribution (disable (Config c)) id (ETag c))
              (fun r => UpdateDistribution id (disable (Config c)) (ETag c) (new_etag_of r))
              s1) as [(t' & w2 & _ & E2) | (code & w2 & _ & E2)].
  2:{ rewrite (bind_raise _ _ _ _ _ E2). simpl. subst s1.
      rewrite !calls_record. simpl. constructor. }
  rewrite (bind_ok _ _ _ _ _ E2). rewrite bind_assoc.
  erewrite bind_ok by reflexivity. rewrite bind_assoc.
  match goal with |- context [bind (while_true fuel (poll_disabled id ?t0)) _ ?s0] =>
    destruct (wait_disabled_calls id t0 fuel s0)
      as (r & s' & l & El & Hp & Hn & Hc) end.
  subst s1. rewrite !calls_record in Hc. simpl in Hc.
  destruct Hc as [(-> & Hc) | ([-> | ->] & Hc)].
  - rewrite (bind_ok _ _ _ _ _ El). erewrite bind_ok by reflexivity. cbv iota.
    destruct (delete_and_wait_calls id t' fuel s') as (l' & Hl' & Hf').
    rewrite Hl', Hc. simpl app. rewrite <- app_assoc. simpl app.
    apply disabled_then_deleted; assumption.
  - rewrite (bind_ok _ _ _ _ _ El). erewrite bind_ok by reflexivity. simpl.
    rewrite Hc. apply disable_wait_failed; auto.
  - rewrite (bind_out_of_fuel _ _ _ _ El). simpl.
    rewrite Hc. apply disable_wait_failed; auto.
Qed.

(** *** Termination of the polling loops *)

Lemma returns_bind {A B} (m : @M W A) (k : A -> @M W B) :
  returns m -> (forall a, returns (k a)) -> returns (bind m k).
Proof.
  intros Hm Hk s. unfold bind. specialize (Hm s).
  destruct (m s) as [[a|e|] s1]; simpl in *; try discriminate; [apply Hk | congruence].
Qed.

Lemma returns_try_except {A} (m : @M W A) handler :
  returns m -> (forall e h, handler e = Some h -> returns h) ->
  returns (try_except m handler).
Proof.
  intros Hm Hh s. unfold try_except. specialize (Hm s).
  destruct (m s) as [[a|e|] s1]; simpl in *; try discriminate; [|congruence].
  destruct (handler e) as [h|] eqn:E; [eapply Hh; eassumption | discriminate].
Qed.

Lemma returns_invoke {A} (op : W -> (ErrorCode + A) * W) ev : returns (invoke op ev).
Proof.
  intros s. unfold invoke. destruct (op (world s)) as [[c|a] w]; discriminate.
Qed.

Lemma returns_ret {A} (a : A) : returns (@ret W A a).
Proof. intros s. discriminate. Qed.

(** A polling loop whose rounds go on only within the time budget, and
    take at least the polling interval, is over after a bounded number of
    rounds. *)
Lemma while_true_returns {B R} (body : @M W (flow unit (B + R))) (start : Z) :
  (forall s s', body s = (OutOfFuel, s') -> False) ->
  (forall s s', body s = (Ok (Continue tt), s') ->
     (now (world s) - start <= CLOUDFRONT_TIMEOUT_SECONDS
      /\ now (world s) + POLLING_INTERVAL_SECONDS <= now (world s'))%Z) ->
  forall k fuel s,
    (CLOUDFRONT_TIMEOUT_SECONDS - (now (world s) - start)
     < POLLING_INTERVAL_SECONDS * Z.of_nat k)%Z ->
    (k < fuel)%nat ->
    fst (while_true fuel body s) <> OutOfFuel.
Proof.
  intros Hfuel Hround.
  unfold CLOUDFRONT_TIMEOUT_SECONDS, POLLING_INTERVAL_SECONDS in *.
  induction k as [|k IH]; intros fuel s Hk Hf;
    (destruct fuel as [|fuel]; [lia|]); simpl; unfold bind;
    destruct (body s) as [[[[]|r]|e|] s1] eqn:E; simpl; try discriminate;
    try (exfalso; eapply Hfuel; eassumption).
  - destruct (Hround _ _ E). lia.
  - destruct (Hround _ _ E). apply IH; lia.
Qed.

Lemma poll_disabled_round id start :
  clock_advances id ->
  (forall s s', poll_disabled id start s = (OutOfFuel, s') -> False)
  /\ (forall s s', poll_disabled id start s = (Ok (Continue tt), s') ->
        (now (world s) - start <= CLOUDFRONT_TIMEOUT_SECONDS
         /\ now (world s) + POLLING_INTERVAL_SECONDS <= now (world s'))%Z).
Proof.
  intros (Hpoll & Hsleep). split; intros s s' E;
    destruct (poll_disabled_cases id start s)
      as [(code & w & Ew & E') | [(d & w & Ew & Hd & E') | [(d & w & Ew & Hd & Ht & E')
         | (d & w & Ew & Hd & Ht & E')]]];
    rewrite E' in E; inversion E; subst.
  simpl. specialize (Hpoll (world s)). rewrite Ew in Hpoll. simpl in Hpoll.
  specialize (Hsleep POLLING_INTERVAL_SECONDS w). lia.
Qed.

Lemma poll_deleted_round id start :
  clock_advances id ->
  (forall s s', poll_deleted id start s = (OutOfFuel, s') -> False)
  /\ (forall s s', poll_deleted id start s = (Ok (Continue tt), s') ->
        (now (world s) - start <= CLOUDFRONT_TIMEOUT_SECONDS
         /\ now (world s) + POLLING_INTERVAL_SECONDS <= now (world s'))%Z).
Proof.
  intros (Hpoll & Hsleep).
  assert (Hc : forall s,
    (exists code w b,
        poll_deleted id start s = (Ok (Return (inr b)), record w (GetDistribution id None) s)
        /\ get_distribution id (world s) = (inl code, w))
    \/ (exists d w,
          get_distribution id (world s) = (inr d, w)
          /\ poll_deleted id start s
             = (if (now w - start >? CLOUDFRONT_TIMEOUT_SECONDS)%Z
                then ret (Return (inr false))
                else bind (time_sleep POLLING_INTERVAL_SECONDS)
                          (fun _ => ret (Continue tt)))
                 (record w (GetDistribution id (Some (Status d))) s))).
  { intros s. unfold poll_deleted.
    destruct (invoke_cases (get_distribution id)
                (fun r => GetDistribution id (status_of r)) s)
      as [(d & w & Ew & E) | (code & w & Ew & E)].
    - right. exists d, w. split; [exact Ew|].
      match goal with |- try_except ?m _ s = ?rhs =>
        assert (Hin : m s = rhs)
          by (erewrite bind_ok by exact E; erewrite bind_ok by reflexivity;
              reflexivity) end.
      unfold try_except. rewrite Hin.
      destruct (now w - start >? CLOUDFRONT_TIMEOUT_SECONDS)%Z; reflexivity.
    - left. exists code, w.
      exists (String.eqb code "NoSuchDistribution"). split; [|exact Ew].
      erewrite try_except_caught;
        [ | erewrite bind_raise by exact E; reflexivity | reflexivity ].
      destruct (String.eqb code "NoSuchDistribution"); reflexivity. }
  split; intros s s' E;
    destruct (Hc s) as [(code & w & b & E' & Ew) | (d & w & Ew & E')];
    rewrite E' in E; try (inversion E; fail);
    destruct (now w - start >? CLOUDFRONT_TIMEOUT_SECONDS)%Z eqn:Ht;
    inversion E; subst.
  simpl. specialize (Hpoll (world s)). rewrite Ew in Hpoll. simpl in Hpoll.
  specialize (Hsleep POLLING_INTERVAL_SECONDS w). lia.
Qed.

(** With the clock moving forward, [POLLING_ROUNDS] rounds of fuel are
    enough for the CDN teardown to return. *)
Lemma delete_cloudfront_distribution_returns id etag fuel :
  clock_advances id -> (POLLING_ROUNDS <= fuel)%nat ->
  returns (delete_cloudfront_distribution id etag fuel).
Proof.
  intros Hclock Hfuel.
  assert (Hwait : forall B (body : Z -> @M W (flow unit (B + bool))) C (k : B + bool -> @M W C),
             (forall start,
                 (forall s s', body start s = (OutOfFuel, s') -> False)
                 /\ (forall s s', body start s = (Ok (Continue tt), s') ->
                       (now (world s) - start <= CLOUDFRONT_TIMEOUT_SECONDS
                        /\ now (world s) + POLLING_INTERVAL_SECONDS <= now (world s'))%Z)) ->
             (forall a, returns (k a)) ->
             returns (bind time_time (fun start => bind (while_true fuel (body start)) k))).
  { intros B body C k Hbody Hk s.
    erewrite bind_ok by reflexivity.
    destruct (Hbody (now (world s))) as (H1 & H2).
    assert (Hw : fst (while_true fuel (body (now (world s))) s) <> OutOfFuel).
    { apply (while_true_returns (body (now (world s))) (now (world s)) H1 H2 61);
        unfold CLOUDFRONT_TIMEOUT_SECONDS, POLLING_INTERVAL_SECONDS,
               POLLING_ROUNDS in *; lia. }
    unfold bind.
    destruct (while_true fuel (body (now (world s))) s) as [[a|e|] s1];
      simpl fst in *; try discriminate.
    - apply Hk.
    - congruence. }
  unfold delete_cloudfront_distribution.
  apply returns_try_except.
  - unfold disable_then_delete.
    apply returns_bind; [apply returns_invoke|]. intros c.
    apply returns_bind.
    + unfold disable_and_wait. destruct (negb _); [apply returns_ret|].
      apply returns_bind; [apply returns_invoke|]. intros t'.
      apply Hwait.
      * intros start. apply poll_disabled_round. exact Hclock.
      * intros [u|b]; apply returns_ret.
    + intros [t'|b]; [|apply returns_ret].
      unfold delete_and_wait.
      apply returns_bind; [apply returns_invoke|]. intros _.
      apply Hwait.
      * intros start. apply poll_deleted_round. exact Hclock.
      * intros [[]|b]. apply returns_ret.
  - intros e h Hh. destruct e; inversion Hh; subst. unfold cdn_error.
    repeat match goal with |- context [if ?b then _ else _] => destruct b end;
      apply returns_ret.
Qed.

(** C8.  When the configuration fetched at the start reports the distribution
    as disabled, the teardown issues no update call: the configuration fetch
    is followed at once by the delete call, which carries the token of that
    fetch; only status polls and sleeps come after. *)
Theorem already_disabled_goes_straight_to_delete
        (id etag : string) (fuel : nat) (w : W) (response : ConfigResponse) :
  fst (get_distribution_config id w) = inr response ->
  Enabled (Config response) = false ->
  let issued := calls (snd (run (delete_cloudfront_distribution id etag fuel) w)) in
  Forall (fun e => is_update e = false) issued
  /\ exists rest,
      issued = GetDistributionConfig id (Some (ETag response))
               :: DeleteDistribution id (ETag response) :: rest
      /\ Forall (fun e => polling_call e = true) rest.
Proof.
  intros Hc Hd issued.
  assert (Hi : exists rest,
             issued = GetDistributionConfig id (Some (ETag response))
                      :: DeleteDistribution id (ETag response) :: rest
             /\ Forall (fun e => polling_call e = true) rest).
  { subst issued. unfold run. rewrite delete_cloudfront_distribution_absorbs.
    simpl snd. unfold disable_then_delete.
    destruct (get_distribution_config id w) as [r w1] eqn:E.
    simpl in Hc. subst r.
    erewrite bind_ok by (apply invoke_ok; exact E).
    unfold disable_and_wait. rewrite Hd. simpl negb. cbv iota.
    erewrite bind_ok by reflexivity. cbv iota.
    match goal with |- context [delete_and_wait id ?t fuel ?s0] =>
      destruct (delete_and_wait_calls id t fuel s0) as (l & Hl & Hf) end.
    rewrite Hl, calls_record. simpl. eauto. }
  split; [|exact Hi].
  destruct Hi as (rest & -> & Hf).
  repeat constructor.
  eapply Forall_impl; [|exact Hf]. intros e He. destruct e; simpl in *; congruence.
Qed.






Lemma existsb_polling (f : event -> bool) l :
  (forall e, polling_call e = true -> f e = false) ->
  Forall (fun e => polling_call e = true) l -> existsb f l = false.
Proof.
  intros Hf. induction 1 as [|e l He _ IH]; simpl; [reflexivity|].
  rewrite (Hf e He). exact IH.
Qed.

(** Every status poll of the CDN teardown is made on the distribution
    given. *)
Lemma delete_cloudfront_distribution_polls id etag fuel :
  emits (fun e => forall i status, e = GetDistribution i status -> i = id)
        (delete_cloudfront_distribution id etag fuel).
Proof.
  unfold delete_cloudfront_distribution, disable_then_delete, disable_and_wait,
    delete_and_wait, poll_disabled, poll_deleted, cdn_error.
  emits_auto; intros i status H; first [discriminate H | injection H as <- _; reflexivity].
Qed.

(** C4, as the code has it.  In a teardown that enters the disable wait (its
    update call is accepted) and in which no status poll reports [Deployed],
    no delete call is issued, whatever the clock does and however many
    rounds the wait is given; and, the clock moving forward, the teardown
    returns [False] within [POLLING_ROUNDS] rounds.  In a teardown that
    enters the disable wait and in which a status poll reports [Deployed],
    at whatever time, the delete call is issued. *)
Theorem disable_wait_without_deployed_fails (id etag : string) (fuel : nat) (w : W) :
  let r := fst (run (delete_cloudfront_distribution id etag fuel) w) in
  let issued := calls (snd (run (delete_cloudfront_distribution id etag fuel) w)) in
  existsb update_accepted issued = true ->
  (existsb saw_deployed issued = false ->
   existsb is_delete_distribution issued = false
   /\ (clock_advances id -> (POLLING_ROUNDS <= fuel)%nat -> r = Ok false))
  /\ (existsb saw_deployed issued = true ->
      existsb is_delete_distribution issued = true).
Proof.
  intros r issued Hu.
  assert (Hret : clock_advances id -> (POLLING_ROUNDS <= fuel)%nat -> r <> OutOfFuel).
  { intros Hclock Hfuel.
    exact (delete_cloudfront_distribution_returns id etag fuel Hclock Hfuel
             {| world := w; trace := [] |}). }
  assert (Hpolls : Forall (fun e => forall i status, e = GetDistribution i status -> i = id)
                          issued).
  { subst issued. unfold run.
    destruct (delete_cloudfront_distribution id etag fuel {| world := w; trace := [] |})
      as [r0 s'] eqn:E.
    destruct (emits_calls _ _ _ _ _ (delete_cloudfront_distribution_polls id etag fuel) E)
      as (l & Hl & Hq).
    cbn [snd]. rewrite Hl. exact Hq. }
  subst issued.
  destruct (delete_cloudfront_distribution_run id etag fuel w)
    as [ b | r' t l Hl | b t config | r' t config t' l Hr Hl Hnot | r' t config t' l l' Hl Hl' ].
  - discriminate Hu.
  - simpl in Hu. rewrite existsb_polling in Hu; [discriminate | | exact Hl].
    intros e He. destruct e; simpl in *; congruence.
  - discriminate Hu.
  - assert (Hnone : existsb saw_deployed
                      (GetDistributionConfig id (Some t)
                       :: UpdateDistribution id config t (Some t') :: l) = false).
    { cbn [existsb saw_deployed orb].
      inversion Hpolls as [|? ? _ Hp1]; subst. inversion Hp1 as [|? ? _ Hp]; subst.
      clear Hp1 Hpolls Hu Hl.
      induction l as [|e l IH]; [reflexivity|].
      inversion Hnot as [|? ? He Hnot']; subst. inversion Hp as [|? ? Hi Hp']; subst.
      cbn [existsb]. rewrite (IH Hnot' Hp'), Bool.orb_false_r.
      destruct e as [ | | | | | | i [status|] | | | | | | | ]; try reflexivity.
      cbn [saw_deployed]. apply String.eqb_neq. intros ->.
      apply He. rewrite (Hi i (Some "Deployed") eq_refl). reflexivity. }
    split.
    + intros _. split.
      * simpl. apply existsb_polling; [|exact Hl].
        intros e He. destruct e; simpl in *; congruence.
      * intros Hclock Hfuel. specialize (Hret Hclock Hfuel).
        subst r. destruct Hr as [Hr | Hr]; [exact Hr | contradiction].
    + intros Hd. rewrite Hnone in Hd. discriminate Hd.
  - split.
    + intros Hd. simpl in Hd. rewrite existsb_app in Hd. simpl in Hd.
      rewrite Bool.orb_true_r in Hd. discriminate.
    + intros _. cbn [existsb is_delete_distribution orb].
      rewrite existsb_app. cbn [existsb is_delete_distribution orb].
      apply Bool.orb_true_r.
Qed.

End Teardown_of_the_distribution.

Lemma already_disabled_goes_straight_to_delete_witness :
  let issued :=
    calls (snd (run (delete_cloudfront_distribution
                       (cloud := Timeline.cloud (Accounts.fronted false 0 20))
                       "E1" "T0" 5) 0%Z)) in
  Forall (fun e => is_update e = false) issued
  /\ exists rest,
      issued = GetDistributionConfig "E1" (Some "T1")
               :: DeleteDistribution "E1" "T1" :: rest
      /\ Forall (fun e => polling_call e = true) rest.
Proof.
  exact (already_disabled_goes_straight_to_delete
           (cloud := Timeline.cloud (Accounts.fronted false 0 20))
           "E1" "T0" 5 0%Z
           {| Config := Accounts.site_config false; ETag := "T1" |}
           eq_refl eq_refl).
Defined.


Lemma disable_wait_without_deployed_fails_witness :
  fst (run (delete_cloudfront_distribution
              (cloud := Timeline.cloud (Accounts.fronted true 5000 5001))
              "E1" "T1" 62) 0%Z) = Ok false
  /\ existsb is_delete_distribution
       (calls (snd (run (delete_cloudfront_distribution
                           (cloud := Timeline.cloud (Accounts.fronted true 5000 5001))
                           "E1" "T1" 62) 0%Z))) = false.
Proof.
  destruct (disable_wait_without_deployed_fails
              (cloud := Timeline.cloud (Accounts.fronted true 5000 5001))
              "E1" "T1" 62 0%Z) as (Hwait & _).
  - vm_compute. reflexivity.
  - destruct Hwait as (Hnone & Hfalse).
    + vm_compute. reflexivity.
    + split; [|exact Hnone]. apply Hfalse.
      * split; simpl; intros; lia.
      * unfold POLLING_ROUNDS. lia.
Defined.

(** C4 as stated fails.  The wait starts at time 0; every poll within 600
    seconds reports [InProgress]; the poll that completes at 606 reports
    [Deployed]: the script leaves the wait by the status test, which comes
    before the timeout test, issues the delete call and returns [True]. *)
Lemma late_deployment_is_deleted :
  let outcome :=
    Timeline.play (Accounts.fronted true 600 610)
                  (fun W cloud => delete_cloudfront_distribution "E1" "T1" 62) in
  In (0%Z, UpdateDistribution "E1" (Accounts.site_config false) "T1" (Some "T2"))
     (snd outcome)
  /\ forallb (fun te => negb (saw_deployed (snd te))
                        || (CLOUDFRONT_TIMEOUT_SECONDS <? fst te - 0)%Z)
             (snd outcome) = true
  /\ In (606%Z, DeleteDistribution "E1" "T2") (snd outcome)
  /\ fst outcome = Ok true.
Proof.
  vm_compute. repeat split;
    first [ reflexivity | repeat (first [left; reflexivity | right]) ].
Qed.

Section Locator.

Context {W : Type} {cloud : Cloud W}.

Variable target : string.

(** The visit of one distribution answers by the configuration fetched. *)
Lemma check_distribution_cases d acc (s : @st W) :
  (exists code w,
      get_distribution_config (Id d) (world s) = (inl code, w)
      /\ check_distribution target d acc s
         = (Ok (Continue acc), record w (GetDistributionConfig (Id d) None) s))
  \/ (exists c w,
        get_distribution_config (Id d) (world s) = (inr c, w)
        /\ check_distribution target d acc s
           = (Ok (if any_origin_matches target (Config c) then
                    if (snd acc =? 0)%nat
                    then Continue (Some (Id d, ETag c), S (snd acc))
                    else Return None
                  else Continue acc),
              record w (GetDistributionConfig (Id d) (Some (ETag c))) s)).
Proof.
  unfold check_distribution.
  destruct (invoke_cases (get_distribution_config (Id d))
              (fun r => GetDistributionConfig (Id d) (etag_of r)) s)
    as [(c & w & Ew & E) | (code & w & Ew & E)].
  - right. exists c, w. split; [exact Ew|].
    apply try_except_ok. rewrite (bind_ok _ _ _ _ _ E).
    destruct (any_origin_matches target (Config c)); [|reflexivity].
    destruct (snd acc =? 0)%nat; reflexivity.
  - left. exists code, w. split; [exact Ew|].
    erewrite try_except_caught;
      [ reflexivity | rewrite (bind_raise _ _ _ _ _ E); reflexivity | reflexivity ].
Qed.

(** The visit of the distributions of a page returns: it goes on, or it
    returns [None] from the search. *)
Lemma for_each_check_distribution_result items acc (s : @st W) :
  exists f s',
    for_each (check_distribution target) items acc s = (Ok f, s')
    /\ (f = Return None \/ exists acc', f = Continue acc').
Proof.
  revert acc s. induction items as [|d items IH]; intros acc s; simpl.
  - exists (Continue acc), s. split; [reflexivity | right; eauto].
  - destruct (check_distribution_cases d acc s)
      as [(code & w & _ & E) | (c & w & _ & E)];
      rewrite (bind_ok _ _ _ _ _ E).
    + apply IH.
    + destruct (any_origin_matches target (Config c)); [|apply IH].
      destruct (snd acc =? 0)%nat; [apply IH|].
      do 2 eexists. split; [reflexivity | left; reflexivity].
Qed.

Lemma check_page_result page acc (s : @st W) :
  exists f s',
    check_page target (inr page) acc s = (Ok f, s')
    /\ (f = Return None \/ exists acc', f = Continue acc').
Proof.
  unfold check_page. erewrite bind_ok by reflexivity.
  destruct (DistributionList page) as [[items|]|].
  - apply for_each_check_distribution_result.
  - do 2 eexists. split; [reflexivity | right; eauto].
  - do 2 eexists. split; [reflexivity | right; eauto].
Qed.

(** A listing with a failing page: the search returns [None] before it, or
    the failure is raised. *)
Lemma for_each_check_page_failing pages acc (s : @st W) :
  (exists code, In (inl code) pages) ->
  exists r s',
    for_each (check_page target) pages acc s = (r, s')
    /\ (r = Ok (Return None) \/ exists code, r = Raise (ClientError code)).
Proof.
  revert acc s. induction pages as [|page pages IH]; intros acc s (code & Hin).
  - destruct Hin.
  - simpl. destruct page as [code' | page].
    + erewrite bind_raise by reflexivity. do 2 eexists. split; [reflexivity|].
      right. eauto.
    + destruct Hin as [Hin | Hin]; [discriminate|].
      destruct (check_page_result page acc s) as (f & s1 & E & [-> | (acc' & ->)]);
        rewrite (bind_ok _ _ _ _ _ E).
      * do 2 eexists. split; [reflexivity | left; reflexivity].
      * apply IH. eauto.
Qed.

End Locator.

Section Listing_failure.

Context {W : Type} {cloud : Cloud W}.

(** When a page of the listing fails, the locator returns [None]. *)
Lemma find_cloudfront_for_s3_bucket_listing_failure bucket_name region (s : @st W) :
  (exists code, In (inl code) (list_distributions (world s))) ->
  fst (find_cloudfront_for_s3_bucket bucket_name region s) = Ok None.
Proof.
  intros Hfail. unfold find_cloudfront_for_s3_bucket.
  destruct (for_each_check_page_failing (target_domain bucket_name region)
              (list_distributions (world s)) (None, O) s Hfail)
    as (r & s' & E & [-> | (code & ->)]).
  - erewrite try_except_ok; [reflexivity|].
    erewrite bind_ok by reflexivity. rewrite (bind_ok _ _ _ _ _ E). reflexivity.
  - rewrite (try_except_caught _ _ s (ClientError code) (ret None) s');
      [reflexivity | | reflexivity].
    erewrite bind_ok by reflexivity. rewrite (bind_raise _ _ _ _ _ E). reflexivity.
Qed.

(** The calls of the loop over the pages; a page that was refused makes the
    loop raise. *)
Lemma for_each_check_page_refused target pages acc (s : @st W) r s' :
  for_each (check_page target) pages acc s = (r, s') ->
  exists new,
    calls s' = calls s ++ new
    /\ (In (ListDistributions false) new -> exists code, r = Raise (ClientError code)).
Proof.
  revert acc s. induction pages as [|page pages IH]; intros acc s E.
  - inversion E; subst. exists []. rewrite app_nil_r. split; [reflexivity | intros []].
  - rewrite for_each_cons in E. destruct page as [code | page].
    + erewrite bind_raise in E by reflexivity. inversion E; subst.
      exists [ListDistributions false]. rewrite calls_record. eauto.
    + destruct (check_page target (inr page) acc s) as [r1 s1] eqn:E1.
      assert (H1 : exists new1, calls s1 = calls s ++ new1
                                /\ ~ In (ListDistributions false) new1).
      { unfold check_page in E1. erewrite bind_ok in E1 by reflexivity.
        match type of E1 with ?m ?s0 = _ =>
          assert (Hm : emits (fun e => e <> ListDistributions false) m)
            by (unfold check_distribution; emits_auto; discriminate);
          destruct (emits_calls _ _ _ _ _ Hm E1) as (l & Hl & Hq) end.
        rewrite calls_record, <- app_assoc in Hl. eexists. split; [exact Hl|].
        intros [Hin | Hin]; [discriminate|].
        rewrite Forall_forall in Hq. apply (Hq _ Hin). reflexivity. }
      destruct H1 as (new1 & Hnew1 & Hno1).
      destruct r1 as [[acc' | x] | e | ].
      * rewrite (bind_ok _ _ _ _ _ E1) in E.
        destruct (IH _ _ E) as (new & Hnew & Hr).
        exists (new1 ++ new). rewrite Hnew, Hnew1, app_assoc. split; [reflexivity|].
        intros Hin. apply in_app_or in Hin. destruct Hin; [contradiction | auto].
      * rewrite (bind_ok _ _ _ _ _ E1) in E. inversion E; subst.
        exists new1. split; [exact Hnew1 | contradiction].
      * rewrite (bind_raise _ _ _ _ _ E1) in E. inversion E; subst.
        exists new1. split; [exact Hnew1 | contradiction].
      * rewrite (bind_out_of_fuel _ _ _ _ E1) in E. inversion E; subst.
        exists new1. split; [exact Hnew1 | contradiction].
Qed.

(** A locator whose listing was refused on some page returns [None]. *)
Lemma find_cloudfront_for_s3_bucket_failing_page bucket_name region (s : @st W)
      cf_info s' :
  find_cloudfront_for_s3_bucket bucket_name region s = (Ok cf_info, s') ->
  exists new,
    calls s' = calls s ++ new
    /\ (In (ListDistributions false) new -> cf_info = None).
Proof.
  intros E.
  destruct (for_each (check_page (target_domain bucket_name region))
              (list_distributions (world s)) (None, O) s) as [r s1] eqn:El.
  destruct (for_each_check_page_refused _ _ _ _ _ _ El) as (new & Hnew & Hr).
  exists new.
  assert (Hs : snd (find_cloudfront_for_s3_bucket bucket_name region s) = s1).
  { unfold find_cloudfront_for_s3_bucket.
    rewrite try_except_state
      by (intros e h s2 Hh; destruct e; inversion Hh; reflexivity).
    erewrite bind_ok by reflexivity. rewrite bind_state, El; [reflexivity|].
    intros [[found n] | x] s2; [|reflexivity].
    destruct (n =? 1)%nat; [reflexivity|]. destruct (n =? 0)%nat; reflexivity. }
  rewrite E in Hs. simpl in Hs. subst s'. split; [exact Hnew|].
  intros Hin. destruct (Hr Hin) as (code & ->).
  unfold find_cloudfront_for_s3_bucket in E.
  rewrite (try_except_caught _ _ s (ClientError code) (ret None) s1) in E;
    [ | erewrite bind_ok by reflexivity; rewrite (bind_raise _ _ _ _ _ El); reflexivity
      | reflexivity ].
  inversion E; reflexivity.
Qed.

End Listing_failure.

Section Stable_locator.

Context {W : Type} {cloud : Cloud W}.

Variable target : string.
Variable config : string -> ErrorCode + ConfigResponse.

Hypothesis stable : forall id (w : W), fst (get_distribution_config id w) = config id.

Lemma fetched_app l l' : fetched (l ++ l') = fetched l ++ fetched l'.
Proof. apply flat_map_app. Qed.

Lemma scan_app l l' acc :
  scan target config (l ++ l') acc
  = match scan target config l acc with
    | Continue acc' => scan target config l' acc'
    | Return r => Return r
    end.
Proof.
  revert acc. induction l as [|d l IH]; intros acc; simpl; [reflexivity|].
  destruct (is_match target config d); [|apply IH].
  destruct (snd acc =? 0)%nat; [apply IH | reflexivity].
Qed.

Lemma visited_app l l' acc :
  visited target config (l ++ l') acc
  = visited target config l acc
    ++ match scan target config l acc with
       | Continue acc' => visited target config l' acc'
       | Return _ => []
       end.
Proof.
  revert acc. induction l as [|d l IH]; intros acc; simpl; [reflexivity|].
  f_equal. destruct (is_match target config d); [|apply IH].
  destruct (snd acc =? 0)%nat; [apply IH | reflexivity].
Qed.

(** The loop over the distributions of a page computes [scan] and fetches
    the configurations of [visited]. *)
Lemma for_each_check_distribution_scan items acc (s : @st W) :
  exists s',
    for_each (check_distribution target) items acc s
    = (Ok (scan target config items acc), s')
    /\ fetched (calls s')
       = fetched (calls s) ++ map Id (visited target config items acc).
Proof.
  revert acc s. induction items as [|d items IH]; intros acc s; simpl.
  - exists s. rewrite app_nil_r. auto.
  - unfold is_match, token_of.
    destruct (check_distribution_cases target d acc s)
      as [(code & w & Ew & E) | (c & w & Ew & E)];
      rewrite (bind_ok _ _ _ _ _ E);
      rewrite <- (stable (Id d) (world s)), Ew; simpl fst.
    + destruct (IH acc (record w (GetDistributionConfig (Id d) None) s))
        as (s' & E' & F').
      exists s'. split; [exact E'|].
      rewrite F', calls_record, fetched_app, <- app_assoc. reflexivity.
    + destruct (any_origin_matches target (Config c)).
      * destruct (snd acc =? 0)%nat.
        -- destruct (IH (Some (Id d, ETag c), S (snd acc))
                        (record w (GetDistributionConfig (Id d) (Some (ETag c))) s))
             as (s' & E' & F').
           exists s'. split; [exact E'|].
           rewrite F', calls_record, fetched_app, <- app_assoc. reflexivity.
        -- eexists. split; [reflexivity|].
           rewrite calls_record, fetched_app. reflexivity.
      * destruct (IH acc (record w (GetDistributionConfig (Id d) (Some (ETag c))) s))
          as (s' & E' & F').
        exists s'. split; [exact E'|].
        rewrite F', calls_record, fetched_app, <- app_assoc. reflexivity.
Qed.

Lemma for_each_check_page_scan pages acc (s : @st W) :
  exists s',
    for_each (check_page target) pages acc s = (scan_pages target config pages acc, s')
    /\ fetched (calls s')
       = fetched (calls s) ++ map Id (visited_pages target config pages acc).
Proof.
  revert acc s. induction pages as [|page pages IH]; intros acc s.
  - exists s. simpl. rewrite app_nil_r. auto.
  - rewrite for_each_cons. destruct page as [code | page]; simpl scan_pages;
      simpl visited_pages.
    + erewrite bind_raise by reflexivity. eexists. split; [reflexivity|].
      rewrite calls_record, fetched_app. reflexivity.
    + unfold check_page. rewrite bind_assoc. erewrite bind_ok by reflexivity.
      assert (Hitems :
        match DistributionList page with
        | Some (Some items) => for_each (check_distribution target) items acc
        | _ => ret (Continue acc)
        end = for_each (check_distribution target) (items_of page) acc).
      { unfold items_of. destruct (DistributionList page) as [[items|]|]; reflexivity. }
      destruct (for_each_check_distribution_scan (items_of page) acc
                  (record (fetch_page (world s)) (ListDistributions true) s))
        as (s1 & E1 & F1).
      rewrite calls_record, fetched_app in F1. simpl in F1. rewrite app_nil_r in F1.
      cbv beta. rewrite Hitems, (bind_ok _ _ _ _ _ E1).
      destruct (scan target config (items_of page) acc) as [acc' | r].
      * destruct (IH acc' s1) as (s' & E' & F').
        exists s'. split; [exact E'|].
        rewrite F', F1, map_app, app_assoc. reflexivity.
      * eexists. split; [reflexivity|].
        rewrite F1, app_nil_r. reflexivity.
Qed.

(** A search that returns from within the listing never reaches a failing
    page. *)
Lemma scan_pages_listed pages acc r :
  scan target config (listed pages) acc = Return r ->
  scan_pages target config pages acc = Ok (Return r)
  /\ visited_pages target config pages acc = visited target config (listed pages) acc.
Proof.
  revert acc. induction pages as [|page pages IH]; intros acc; simpl.
  - discriminate.
  - destruct page as [code | page]; [discriminate|].
    rewrite scan_app, visited_app.
    destruct (scan target config (items_of page) acc) as [acc' | r'].
    + intros Hs. destruct (IH acc' Hs) as (-> & ->). auto.
    + intros Hs. inversion Hs; subst. auto.
Qed.

(** With a match already counted, or none yet, a listing that brings the
    count to two makes the search return [None] at the second match. *)
Lemma scan_second_match l found n :
  (n <= 1)%nat -> (2 <= n + matches target config l)%nat ->
  scan target config l (found, n) = Return None
  /\ exists pre second post,
      l = pre ++ second :: post
      /\ (n + matches target config pre = 1)%nat
      /\ is_match target config second = true
      /\ visited target config l (found, n) = pre ++ [second].
Proof.
  revert found n. unfold matches.
  induction l as [|d l IH]; intros found n Hn Hm; simpl in *; [lia|].
  destruct (is_match target config d) eqn:Hd; simpl in *.
  - destruct n as [|n]; simpl.
    + destruct (IH (Some (Id d, token_of config d)) 1%nat) as (Hs & pre & x & post & -> & Hp & Hx & Hv);
        [lia | lia |].
      split; [exact Hs|]. exists (d :: pre), x, post. simpl. rewrite Hd. simpl.
      repeat split; auto; try lia; rewrite Hv; reflexivity.
    + split; [reflexivity|]. exists [], d, l. simpl. repeat split; auto; lia.
  - destruct (IH found n Hn Hm) as (Hs & pre & x & post & -> & Hp & Hx & Hv).
    split; [exact Hs|]. exists (d :: pre), x, post. simpl. rewrite Hd.
    repeat split; auto; rewrite Hv; reflexivity.
Qed.

End Stable_locator.

Section Ambiguity.

Context {W : Type} {cloud : Cloud W}.

(** C2, as the code has it.  On an account whose configurations are stable,
    when the listing holds two or more distributions with an origin on the
    target domain, the locator returns [None] (the value it also returns for
    no match) and fetches no configuration beyond the second match. *)
Theorem second_match_aborts_search
        (bucket_name region : string) (config : string -> ErrorCode + ConfigResponse)
        (w : W) :
  (forall id (w' : W), fst (get_distribution_config id w') = config id) ->
  let target := target_domain bucket_name region in
  (2 <= matches target config (listed (list_distributions w)))%nat ->
  fst (run (find_cloudfront_for_s3_bucket bucket_name region) w) = Ok None
  /\ exists pre second post,
      listed (list_distributions w) = pre ++ second :: post
      /\ matches target config pre = 1%nat
      /\ is_match target config second = true
      /\ fetched (calls (snd (run (find_cloudfront_for_s3_bucket bucket_name region) w)))
         = map Id (pre ++ [second]).
Proof.
  intros stable target Hm.
  destruct (scan_second_match target config (listed (list_distributions w)) None 0%nat)
    as (Hs & pre & second & post & Hl & Hp & Hx & Hv); [lia | exact Hm |].
  destruct (scan_pages_listed target config _ _ _ Hs) as (Hsp & Hvp).
  unfold run, find_cloudfront_for_s3_bucket. fold target.
  destruct (for_each_check_page_scan target config stable
              (list_distributions w) (None, 0%nat) {| world := w; trace := [] |})
    as (s' & E & F).
  rewrite Hsp in E. rewrite Hvp, Hv in F. simpl in F.
  erewrite try_except_ok
    by (erewrite bind_ok by reflexivity; rewrite (bind_ok _ _ _ _ _ E); reflexivity).
  split; [reflexivity|].
  exists pre, second, post. simpl. auto.
Qed.

End Ambiguity.

Lemma second_match_aborts_search_witness :
  fst (run (find_cloudfront_for_s3_bucket
              (cloud := Timeline.cloud Accounts.thrice_fronted) "site" "us-east-1") 0%Z)
  = Ok None
  /\ fetched (calls (snd (run (find_cloudfront_for_s3_bucket
                                 (cloud := Timeline.cloud Accounts.thrice_fronted)
                                 "site" "us-east-1") 0%Z)))
     = ["E0"; "E1"; "E2"].
Proof.
  destruct (second_match_aborts_search
              (cloud := Timeline.cloud Accounts.thrice_fronted)
              "site" "us-east-1" (Timeline.config_of Accounts.thrice_fronted) 0%Z)
    as (Hr & pre & second & post & Hl & Hp & Hx & Hf).
  - intros id w'. reflexivity.
  - vm_compute. lia.
  - split; [exact Hr|]. vm_compute. reflexivity.
Defined.

(** C2 as stated fails.  A search that meets three matching distributions and
    a search that meets none return the same value, [None]. *)
Lemma ambiguous_search_returns_what_no_match_returns :
  let target := target_domain "site" "us-east-1" in
  matches target (Timeline.config_of Accounts.thrice_fronted)
          (listed (Timeline.dist_pages Accounts.thrice_fronted)) = 3%nat
  /\ matches target (Timeline.config_of Timeline.quiet)
             (listed (Timeline.dist_pages Timeline.quiet)) = 0%nat
  /\ fst (Timeline.play Accounts.thrice_fronted
            (fun W cloud => find_cloudfront_for_s3_bucket "site" "us-east-1"))
     = fst (Timeline.play Timeline.quiet
              (fun W cloud => find_cloudfront_for_s3_bucket "site" "us-east-1"))
  /\ fst (Timeline.play Accounts.thrice_fronted
            (fun W cloud => find_cloudfront_for_s3_bucket "site" "us-east-1"))
     = Ok None.
Proof. vm_compute. repeat split; reflexivity. Qed.

Section Orchestrator.

Context {W : Type} {cloud : Cloud W}.

Lemma stage_keeps {A} (P : event -> Prop) (m : @M W A) s r s' :
  emits P m -> Forall P (calls s) -> m s = (r, s') -> Forall P (calls s').
Proof.
  intros Hm Hs E. destruct (emits_calls P m s r s' Hm E) as (l & -> & Hl).
  apply Forall_app. auto.
Qed.

(** The locator catches every [ClientError] of its calls, and returns. *)
Lemma find_cloudfront_for_s3_bucket_returns bucket_name region (s : @st W) :
  exists cf_info s', find_cloudfront_for_s3_bucket bucket_name region s = (Ok cf_info, s').
Proof.
  unfold find_cloudfront_for_s3_bucket.
  assert (Hpages : forall pages acc (s0 : @st W),
             exists r s',
               for_each (check_page (target_domain bucket_name region)) pages acc s0 = (r, s')
               /\ ((exists f, r = Ok f) \/ exists code, r = Raise (ClientError code))).
  { induction pages as [|page pages IH]; intros acc s0.
    - do 2 eexists. split; [reflexivity|]. left. eauto.
    - rewrite for_each_cons. destruct page as [code | page].
      + erewrite bind_raise by reflexivity. do 2 eexists. split; [reflexivity|]. eauto.
      + destruct (check_page_result (target_domain bucket_name region) page acc s0)
          as (f & s1 & E & [-> | (acc' & ->)]); rewrite (bind_ok _ _ _ _ _ E).
        * do 2 eexists. split; [reflexivity|]. left. eauto.
        * apply IH. }
  destruct (Hpages (list_distributions (world s)) (None, O) s)
    as (r & s' & E & [(f & ->) | (code & ->)]).
  - destruct f as [[found n] | r];
      [destruct (n =? 1)%nat eqn:E1; [|destruct (n =? 0)%nat eqn:E0]|];
      (erewrite try_except_ok;
       [ eauto
       | erewrite bind_ok by reflexivity; rewrite (bind_ok _ _ _ _ _ E);
         cbv iota; rewrite ?E1, ?E0; reflexivity ]).
  - rewrite (try_except_caught _ _ s (ClientError code) (ret None) s');
      [eexists; eexists; reflexivity | | reflexivity].
    erewrite bind_ok by reflexivity. rewrite (bind_raise _ _ _ _ _ E). reflexivity.
Qed.

(** The gate reads one line and answers by it. *)
Lemma confirm_deletion_run bucket_name distribution_id (s : @st W) :
  confirm_deletion bucket_name distribution_id s
  = (Ok (affirmative (fst (read_line confirm_prompt (world s)))),
     record (snd (read_line confirm_prompt (world s)))
            (Input confirm_prompt (fst (read_line confirm_prompt (world s)))) s).
Proof.
  unfold confirm_deletion, try_except, bind, input.
  destruct (read_line confirm_prompt (world s)) as [[line|] w]; simpl; [|reflexivity].
  destruct (String.eqb (Py.lower (Py.strip line)) "yes"); reflexivity.
Qed.

Lemma prelude_is_before_gate l :
  Forall (fun e => prelude_call e = true) l ->
  Forall (fun e => before_gate e = true) l.
Proof.
  intros Hl. eapply Forall_impl; [|exact Hl].
  intros e He. destruct e; simpl in *; congruence.
Qed.

(** A run of [main] stops before the locator, or reaches the gate with the result of
    the locator, reads the answer, and goes on to the teardown only on an
    affirmative answer. *)
Lemma main_run (fuel : nat) (w : W) :
  let r := fst (run (main fuel) w) in
  let s_end := snd (run (main fuel) w) in
  (Forall (fun e => prelude_call e = true) (calls s_end) /\ r <> Ok tt)
  \/ exists bucket_name region cf_info s0 s1 s2 answer,
      Forall (fun e => prelude_call e = true) (calls s0)
      /\ find_cloudfront_for_s3_bucket bucket_name region s0 = (Ok cf_info, s1)
      /\ Forall (fun e => before_gate e = true) (calls s1)
      /\ confirm_deletion bucket_name (option_map fst cf_info) s1
         = (Ok (affirmative answer), s2)
      /\ calls s2 = calls s1 ++ [Input confirm_prompt answer]
      /\ if affirmative answer
         then teardown bucket_name cf_info fuel s2 = (r, s_end)
         else r = Raise (SystemExit 0) /\ s_end = s2.
Proof.
  intros r s_end.
  destruct (run (main fuel) w) as [r0 s0'] eqn:Erun. simpl in r, s_end.
  subst r s_end. unfold run, main in Erun.
  set (P := fun e => prelude_call e = true).
  assert (H0 : Forall P (calls {| world := w; trace := [] |})) by constructor.
  assert (Hpre : forall l, Forall P l -> Forall (fun e => before_gate e = true) l).
  { intros l Hl. eapply Forall_impl; [|exact Hl].
    intros e He. subst P. destruct e; simpl in *; congruence. }
  assert (Hstop : forall {A} (m : @M W A) s r s',
             emits P m -> Forall P (calls s) -> m s = (r, s') ->
             Forall P (calls s')) by (intros; eapply stage_keeps; eassumption).
  assert (Hgo : forall {A} (m : @M W A) s r s',
             emits P m -> Forall P (calls s) -> m s = (r, s') ->
             Forall P (calls s')) by (intros; eapply stage_keeps; eassumption).
  (* client initialisation *)
  apply bind_inv in Erun.
  destruct Erun as [(u & s1 & E1 & Erun) | [(e & E1 & ->) | (E1 & ->)]];
    [ | left; split; [|discriminate] | left; split; [|discriminate] ];
    try (eapply Hstop; [|exact H0|exact E1]; subst P; emits_auto; fail).
  assert (H1 : Forall P (calls s1))
    by (eapply Hgo; [|exact H0|exact E1]; subst P; emits_auto).
  (* bucket name *)
  apply bind_inv in Erun.
  destruct Erun as [(line & s2 & E2 & Erun) | [(e & E2 & ->) | (E2 & ->)]];
    [ | left; split; [|discriminate] | left; split; [|discriminate] ];
    try (eapply Hstop; [|exact H1|exact E2]; subst P; emits_auto; fail).
  assert (H2 : Forall P (calls s2))
    by (eapply Hgo; [|exact H1|exact E2]; subst P; emits_auto).
  cbv zeta in Erun.
  destruct (negb (Py.truthy (Py.strip line))).
  { inversion Erun; subst. left. split; [exact H2 | discriminate]. }
  (* region *)
  apply bind_inv in Erun.
  destruct Erun as [(found_region & s3 & E3 & Erun) | [(e & E3 & ->) | (E3 & ->)]];
    [ | left; split; [|discriminate] | left; split; [|discriminate] ];
    try (eapply Hstop; [|exact H2|exact E3];
         apply get_s3_bucket_region_emits; reflexivity).
  assert (H3 : Forall P (calls s3))
    by (eapply Hgo; [|exact H2|exact E3];
        apply get_s3_bucket_region_emits; reflexivity).
  apply bind_inv in Erun.
  assert (Hregion : forall found,
    emits P (match found with
             | Some region =>
                 if Py.truthy region then ret region
                 else bind (input (region_prompt (Py.strip line))) (fun line0 =>
                        if negb (Py.truthy (Py.strip line0)) then sys_exit 1
                        else ret (Py.strip line0))
             | None =>
                 bind (input (region_prompt (Py.strip line))) (fun line0 =>
                   if negb (Py.truthy (Py.strip line0)) then sys_exit 1
                   else ret (Py.strip line0))
             end)).
  { intros found. subst P. emits_auto. }
  destruct Erun as [(region & s4 & E4 & Erun) | [(e & E4 & ->) | (E4 & ->)]];
    [ | left; split; [|discriminate] | left; split; [|discriminate] ];
    try (eapply Hstop; [|exact H3|exact E4]; apply Hregion).
  assert (H4 : Forall P (calls s4))
    by (eapply Hgo; [|exact H3|exact E4]; apply Hregion).
  (* locator and gate *)
  destruct (find_cloudfront_for_s3_bucket_returns (Py.strip line) region s4)
    as (cf_info & s5 & E5).
  rewrite (bind_ok _ _ _ _ _ E5) in Erun. cbv zeta in Erun.
  assert (H5 : Forall (fun e => before_gate e = true) (calls s5)).
  { eapply stage_keeps; [|apply Hpre; exact H4|exact E5].
    apply find_cloudfront_for_s3_bucket_emits.
    intros e He. destruct e; simpl in *; congruence. }
  pose proof (confirm_deletion_run (Py.strip line) (option_map fst cf_info) s5) as E6.
  rewrite (bind_ok _ _ _ _ _ E6) in Erun.
  right. exists (Py.strip line), region, cf_info, s4, s5.
  eexists. exists (fst (read_line confirm_prompt (world s5))).
  split; [exact H4|]. split; [exact E5|]. split; [exact H5|]. split; [exact E6|].
  split; [apply calls_record|].
  destruct (affirmative (fst (read_line confirm_prompt (world s5)))); simpl in Erun.
  - exact Erun.
  - inversion Erun; subst. auto.
Qed.

Lemma split_at_unique {A} (P : A -> Prop) (l1 l2 l1' l2' : list A) x x' :
  l1 ++ x :: l2 = l1' ++ x' :: l2' ->
  P x -> P x' -> Forall (fun a => ~ P a) l1' -> Forall (fun a => ~ P a) l2' ->
  l2 = l2'.
Proof.
  revert l1'. induction l1 as [|a l1 IH]; intros [|a' l1'] E Hx Hx' H1 H2;
    simpl in E; inversion E; subst.
  - reflexivity.
  - inversion H1; subst. contradiction.
  - rewrite Forall_forall in H2. exfalso. apply (H2 x); [|exact Hx].
    apply in_or_app. right. left. reflexivity.
  - inversion H1; subst. eapply IH; eassumption.
Qed.

(** Without a distribution the teardown only calls on the bucket. *)
Lemma teardown_without_distribution_emits bucket_name fuel :
  emits (fun e => bucket_call e = true) (teardown bucket_name None fuel).
Proof.
  unfold teardown, option_map. cbv iota.
  repeat first
    [ apply empty_s3_bucket_emits;
      intros e He; unfold bucket_call; rewrite He; reflexivity
    | apply delete_s3_bucket_emits;
      intros e He; unfold bucket_call; rewrite He; apply Bool.orb_true_r
    | emits_step ]; auto.
Qed.



Lemma gate_input_not_before_gate answer :
  before_gate (Input confirm_prompt answer) = false.
Proof. reflexivity. Qed.


Lemma before_gate_not_mutating l :
  Forall (fun e => before_gate e = true) l ->
  Forall (fun e => mutating e = false) l.
Proof.
  intros Hl. eapply Forall_impl; [|exact Hl].
  intros e He. destruct e; simpl in *; congruence.
Qed.

Lemma before_gate_not_cdn_stage l :
  Forall (fun e => before_gate e = true) l ->
  Forall (fun e => cdn_stage_call e = false) l.
Proof.
  intros Hl. eapply Forall_impl; [|exact Hl].
  intros e He. destruct e; simpl in *; congruence.
Qed.


(** C7, as the code has it.  The gate returns [True] exactly when the line
    read, stripped of surrounding white space and put in lower case, is
    [yes]; every other line, the empty one included, and a closed stream make
    it return [False].  A run of [main] whose confirmation is refused ends
    with exit status 0 and has issued no mutating call. *)
Theorem refusal_cancels_before_any_mutation
        (fuel : nat) (w : W) (answer : option string) :
  (forall bucket_name distribution_id (s : @st W),
      fst (confirm_deletion bucket_name distribution_id s)
      = Ok (affirmative (fst (read_line confirm_prompt (world s)))))
  /\ (In (Input confirm_prompt answer) (calls (snd (run (main fuel) w))) ->
      affirmative answer = false ->
      fst (run (main fuel) w) = Raise (SystemExit 0)
      /\ Forall (fun e => mutating e = false) (calls (snd (run (main fuel) w)))).
Proof.
  split.
  { intros. rewrite confirm_deletion_run. reflexivity. }
  intros Hin Hneg.
  destruct (main_run fuel w)
    as [(Hb & _) | (b & region & cf_info & s0 & s1 & s2 & answer0 & H4 & E5 & H5 & E6 & Hc & Ht)].
  { exfalso. apply prelude_is_before_gate in Hb.
    rewrite Forall_forall in Hb. specialize (Hb _ Hin).
    rewrite gate_input_not_before_gate in Hb. discriminate. }
  assert (Hs1 : ~ In (Input confirm_prompt answer) (calls s1)).
  { intros Hi. rewrite Forall_forall in H5. specialize (H5 _ Hi).
    rewrite gate_input_not_before_gate in H5. discriminate. }
  destruct (affirmative answer0) eqn:Ha.
  - exfalso.
    destruct (emits_calls (fun e => forall p a, e <> Input p a) _ _ _ _
                (teardown_emits (fun e => forall p a, e <> Input p a) b cf_info fuel
                   ltac:(intros e He p a; destruct e; discriminate)
                   ltac:(intros e He p a; destruct e; discriminate)
                   ltac:(intros e He p a; destruct e; discriminate)) Ht)
      as (l & Hl & Hq).
    rewrite Hl, Hc in Hin.
    apply in_app_or in Hin. destruct Hin as [Hin | Hin].
    + apply in_app_or in Hin. destruct Hin as [Hin | [Hin | []]].
      * contradiction.
      * inversion Hin; subst. congruence.
    + rewrite Forall_forall in Hq. apply (Hq _ Hin confirm_prompt answer). reflexivity.
  - destruct Ht as (Hr & Hend). split; [exact Hr|].
    rewrite Hend, Hc. apply Forall_app. split.
    + apply before_gate_not_mutating. exact H5.
    + repeat constructor.
Qed.

(** A run of [main] whose listing of the distributions fails on some page
    reaches the gate with nothing located. *)
Lemma failed_listing_run (fuel : nat) (w : W) :
  let r := fst (run (main fuel) w) in
  let s_end := snd (run (main fuel) w) in
  In (ListDistributions false) (calls s_end) ->
  exists bucket_name region s0 s1 s2 answer,
    Forall (fun e => prelude_call e = true) (calls s0)
    /\ find_cloudfront_for_s3_bucket bucket_name region s0 = (Ok None, s1)
    /\ Forall (fun e => before_gate e = true) (calls s1)
    /\ confirm_deletion bucket_name None s1 = (Ok (affirmative answer), s2)
    /\ calls s2 = calls s1 ++ [Input confirm_prompt answer]
    /\ (if affirmative answer
        then teardown bucket_name None fuel s2 = (r, s_end)
        else r = Raise (SystemExit 0) /\ s_end = s2).
Proof.
  intros r s_end Hfail. subst r s_end.
  destruct (main_run fuel w)
    as [(Hb & _) | (b & region & cf_info & s0 & s1 & s2 & answer0 & H4 & E5 & H5 & E6 & Hc & Ht)].
  { exfalso. rewrite Forall_forall in Hb. specialize (Hb _ Hfail). discriminate. }
  destruct (find_cloudfront_for_s3_bucket_failing_page _ _ _ _ _ E5)
    as (new & Hnew & Hnone).
  assert (Hrest : exists l, calls (snd (run (main fuel) w))
                            = calls s1 ++ Input confirm_prompt answer0 :: l
                            /\ Forall (fun e => cdn_call e = true \/ bucket_call e = true) l).
  { destruct (affirmative answer0).
    - destruct (emits_calls _ _ _ _ _
                  (teardown_emits (fun e => cdn_call e = true \/ bucket_call e = true)
                     b cf_info fuel
                     ltac:(intros e He; left; exact He)
                     ltac:(intros e He; right; unfold bucket_call; rewrite He; reflexivity)
                     ltac:(intros e He; right; unfold bucket_call; rewrite He;
                           apply Bool.orb_true_r)) Ht)
        as (l & Hl & Hq).
      exists l. rewrite Hl, Hc, <- app_assoc. split; [reflexivity | exact Hq].
    - destruct Ht as (_ & ->). exists []. rewrite Hc. auto. }
  destruct Hrest as (l & Hl & Hq).
  assert (cf_info = None).
  { apply Hnone. rewrite Hl, Hnew in Hfail.
    apply in_app_or in Hfail. destruct Hfail as [Hfail | [Hfail | Hfail]].
    - apply in_app_or in Hfail. destruct Hfail as [Hfail | Hfail]; [|exact Hfail].
      exfalso. rewrite Forall_forall in H4. specialize (H4 _ Hfail). discriminate.
    - discriminate.
    - exfalso. rewrite Forall_forall in Hq.
      destruct (Hq _ Hfail) as [Hx | Hx]; discriminate. }
  subst cf_info.
  exists b, region, s0, s1, s2, answer0. auto 10.
Qed.

End Orchestrator.


Lemma refusal_cancels_before_any_mutation_witness :
  fst (run (main (cloud := Timeline.cloud (Accounts.answering (Some "") Timeline.quiet)) 0)
           0%Z) = Raise (SystemExit 0)
  /\ Forall (fun e => mutating e = false)
            (calls (snd (run (main (cloud := Timeline.cloud
                                       (Accounts.answering (Some "") Timeline.quiet)) 0)
                             0%Z))).
Proof.
  apply (refusal_cancels_before_any_mutation
           (cloud := Timeline.cloud (Accounts.answering (Some "") Timeline.quiet))
           0 0%Z (Some "")).
  - vm_compute. repeat (first [left; reflexivity | right]).
  - reflexivity.
Defined.

(** C7 as stated fails.  The operator types [ YES ], which is not the token
    [yes]: the gate returns [True] and the run goes on to delete the
    bucket. *)
Lemma shouted_yes_is_accepted :
  " YES " <> "yes"
  /\ fst (Timeline.play (Accounts.answering (Some " YES ") Timeline.quiet)
            (fun W cloud => confirm_deletion "site" None)) = Ok true
  /\ fst (Timeline.play (Accounts.answering (Some " YES ") Timeline.quiet)
            (fun W cloud => main 0)) = Ok tt
  /\ In (DeleteBucket "site")
        (map snd (snd (Timeline.play (Accounts.answering (Some " YES ") Timeline.quiet)
                         (fun W cloud => main 0)))).
Proof.
  split; [discriminate|]. vm_compute.
  repeat split; repeat (first [left; reflexivity | right]).
Qed.


Section Emptier.

Context {W : Type} {cloud : Cloud W}.

Variable bucket : string.
Variable start : Z.

Lemma BATCH_SIZE_pos : (0 < BATCH_SIZE)%nat.
Proof. apply Nat.lt_0_succ. Qed.

Lemma nonempty_false {A} (l : list A) : nonempty l = false -> l = [].
Proof. destruct l; [reflexivity | discriminate]. Qed.

Lemma batches_delete b batch errors l :
  batches (DeleteObjects b batch errors :: l) = batch :: batches l.
Proof. reflexivity. Qed.

Lemma existsb_cons {A} (f : A -> bool) a l : existsb f (a :: l) = f a || existsb f l.
Proof. reflexivity. Qed.

(** The loop that deletes the full batches. *)
Lemma delete_full_batches_post rounds objs (s : @st W) :
  (List.length objs <= rounds)%nat ->
  exists r s' new,
    delete_full_batches rounds bucket start objs s = (r, s')
    /\ trace s' = trace s ++ new
    /\ emptier_loop_post start objs new r.
Proof.
  revert objs s. induction rounds as [|rounds IH]; intros objs s Hrounds;
    rewrite delete_full_batches_unfold;
    destruct (BATCH_SIZE <=? List.length objs)%nat eqn:Hb;
    try (apply Nat.leb_gt in Hb;
         exists (Ok (Continue objs)), s, []; rewrite app_nil_r;
         split; [reflexivity|]; split; [reflexivity|];
         split; [discriminate|]; simpl; auto).
  - apply Nat.leb_le in Hb. pose proof BATCH_SIZE_pos. lia.
  - apply Nat.leb_le in Hb.
    destruct (invoke_cases (delete_objects bucket (firstn BATCH_SIZE objs))
                (fun r => DeleteObjects bucket (firstn BATCH_SIZE objs) (errors_of r)) s)
      as [(resp & w & _ & E) | (code & w & _ & E)].
    2:{ rewrite (bind_raise _ _ _ _ _ E). do 3 eexists.
        split; [reflexivity|]. split; [reflexivity|]. split; [discriminate | reflexivity]. }
    rewrite (bind_ok _ _ _ _ _ E).
    destruct (nonempty (Errors resp)) eqn:Herr.
    { do 3 eexists. split; [reflexivity|]. split; [reflexivity|].
      split; [reflexivity | reflexivity]. }
    apply nonempty_false in Herr.
    erewrite bind_ok by reflexivity. rewrite world_record.
    destruct (now w - start >? S3_DELETE_TIMEOUT_SECONDS)%Z eqn:Ht.
    { do 3 eexists. split; [reflexivity|]. split; [reflexivity|].
      split; [reflexivity | reflexivity]. }
    match goal with |- context [delete_full_batches rounds _ _ ?objs' ?s1] =>
      destruct (IH objs' s1) as (r & s' & new & E' & Htr & Hlate & Hout) end.
    { rewrite length_skipn. pose proof BATCH_SIZE_pos. lia. }
    exists r, s',
      ((now w, DeleteObjects bucket (firstn BATCH_SIZE objs) (Some [])) :: new).
    split; [exact E'|].
    split.
    { rewrite Htr. unfold record. cbn [trace errors_of]. rewrite Herr, <- app_assoc.
      reflexivity. }
    split.
    + rewrite existsb_cons. unfold late_full_batch at 1, over_budget. cbn [fst snd].
      assert (Hle : (S3_DELETE_TIMEOUT_SECONDS <? now w - start)%Z = false)
        by (rewrite Z.gtb_ltb in Ht; exact Ht).
      rewrite Hle, Bool.andb_false_r. exact Hlate.
    + destruct r as [[after | b] | e | ]; try exact Hout.
      * destruct Hout as (Hobjs & Hfull & Hafter).
        rewrite map_cons. cbn [snd]. rewrite batches_delete, concat_cons.
        split; [|split; [|exact Hafter]].
        -- rewrite <- app_assoc, <- Hobjs. symmetry. apply firstn_skipn.
        -- constructor; [|exact Hfull]. apply firstn_length_le. exact Hb.
Qed.

Lemma keys_of_cons page pages :
  keys_of (page :: pages)
  = match page with
    | inr page => Versions page ++ DeleteMarkers page
    | inl _ => []
    end ++ keys_of pages.
Proof. reflexivity. Qed.

(** One page of the listing. *)
Lemma collect_page_post page acc (s : @st W) :
  (List.length acc < BATCH_SIZE)%nat ->
  exists r s' new,
    collect_page bucket start page acc s = (r, s')
    /\ trace s' = trace s ++ new
    /\ emptier_loop_post start (acc ++ keys_of [page]) new r.
Proof.
  intros Hacc. unfold collect_page. rewrite keys_of_cons. simpl keys_of.
  rewrite app_nil_r.
  destruct page as [code | page].
  { erewrite bind_raise by reflexivity. do 3 eexists.
    split; [reflexivity|]. split; [reflexivity|]. split; [discriminate | reflexivity]. }
  erewrite bind_ok by reflexivity. cbv zeta.
  destruct (negb (nonempty (Versions page)) && negb (nonempty (DeleteMarkers page))) eqn:He.
  - apply Bool.andb_true_iff in He. destruct He as (Hv & Hm).
    apply Bool.negb_true_iff in Hv, Hm. apply nonempty_false in Hv, Hm.
    rewrite Hv, Hm. do 3 eexists.
    split; [reflexivity|]. split; [reflexivity|]. split; [discriminate|].
    simpl. rewrite app_nil_r. auto.
  - match goal with |- context [delete_full_batches _ _ _ ?objs' ?s1] =>
      destruct (delete_full_batches_post (List.length objs') objs' s1 (le_n _))
        as (r & s' & new & E' & Htr & Hlate & Hout) end.
    exists r, s',
      ((now (fetch_page (world s)), ListObjectVersions bucket true) :: new).
    split; [exact E'|].
    split; [rewrite Htr; simpl; rewrite <- app_assoc; reflexivity|].
    split; [exact Hlate|].
    destruct r as [[after | b] | e | ]; exact Hout.
Qed.

(** The loop over the pages. *)
Lemma for_each_collect_page_post pages acc (s : @st W) :
  (List.length acc < BATCH_SIZE)%nat ->
  exists r s' new,
    for_each (collect_page bucket start) pages acc s = (r, s')
    /\ trace s' = trace s ++ new
    /\ emptier_loop_post start (acc ++ keys_of pages) new r.
Proof.
  revert acc s. induction pages as [|page pages IH]; intros acc s Hacc.
  - exists (Ok (Continue acc)), s, []. rewrite !app_nil_r.
    split; [reflexivity|]. split; [reflexivity|]. split; [discriminate|].
    simpl. auto.
  - rewrite for_each_cons.
    destruct (collect_page_post page acc s Hacc)
      as (r1 & s1 & new1 & E1 & Htr1 & Hlate1 & Hout1).
    destruct r1 as [[acc1 | b] | e | ]; [ | | | destruct Hout1].
    + destruct Hout1 as (Hk1 & Hfull1 & Hacc1).
      rewrite (bind_ok _ _ _ _ _ E1).
      destruct (IH acc1 s1 Hacc1) as (r & s' & new & E' & Htr & Hlate & Hout).
      exists r, s', (new1 ++ new).
      split; [exact E'|]. split; [rewrite Htr, Htr1, app_assoc; reflexivity|].
      split.
      * rewrite existsb_app. intros Hl. apply Bool.orb_true_iff in Hl.
        destruct Hl as [Hl | Hl]; [specialize (Hlate1 Hl); discriminate | auto].
      * destruct r as [[after | b] | e | ]; try exact Hout.
        -- destruct Hout as (Hk & Hfull & Hafter).
           rewrite map_app. unfold batches in *. rewrite flat_map_app, concat_app.
           split; [|split; [apply Forall_app; auto | exact Hafter]].
           rewrite keys_of_cons, app_assoc.
           rewrite keys_of_cons in Hk1. simpl keys_of in Hk1. rewrite app_nil_r in Hk1.
           rewrite Hk1, <- !app_assoc. f_equal. exact Hk.
        -- rewrite map_app, forallb_app, Hout. apply Bool.andb_false_r.
    + rewrite (bind_ok _ _ _ _ _ E1). exists (Ok (Return b)), s1, new1.
      split; [reflexivity|]. split; [exact Htr1|].
      split; [|exact Hout1]. intros _. rewrite Hout1. reflexivity.
    + rewrite (bind_raise _ _ _ _ _ E1). exists (Raise e), s1, new1.
      split; [reflexivity|]. split; [exact Htr1|]. split; [exact Hlate1 | exact Hout1].
Qed.


(** The emptier as a whole: the versioning call, the loop over the pages,
    the final batch, and the handler. *)
Lemma empty_s3_bucket_cases (s0 : @st W) :
  start = now (world s0) ->
  (exists code w1,
      get_bucket_versioning bucket (world s0) = (inl code, w1)
      /\ empty_s3_bucket bucket s0
         = (Ok (String.eqb code "NoSuchBucket"),
            record w1 (GetBucketVersioning bucket false) s0))
  \/ exists v w1 r_loop s2 new,
      get_bucket_versioning bucket (world s0) = (inr v, w1)
      /\ trace s2 = trace (record w1 (GetBucketVersioning bucket true) s0) ++ new
      /\ emptier_loop_post start (keys_of (list_object_versions bucket w1)) new r_loop
      /\ match r_loop with
         | Ok (Continue after) =>
             if nonempty after then
               exists r_d w3,
                 delete_objects bucket after (world s2) = (r_d, w3)
                 /\ empty_s3_bucket bucket s0
                    = (Ok (match r_d with
                           | inl code => String.eqb code "NoSuchBucket"
                           | inr resp => negb (nonempty (Errors resp))
                           end),
                       record w3 (DeleteObjects bucket after (errors_of r_d)) s2)
             else empty_s3_bucket bucket s0 = (Ok true, s2)
         | Ok (Return b) => empty_s3_bucket bucket s0 = (Ok b, s2)
         | Raise (ClientError code) =>
             empty_s3_bucket bucket s0 = (Ok (String.eqb code "NoSuchBucket"), s2)
         | Raise e => empty_s3_bucket bucket s0 = (Raise e, s2)
         | OutOfFuel => False
         end.
Proof.
  intros Hstart. unfold empty_s3_bucket.
  erewrite bind_ok by reflexivity. rewrite <- Hstart.
  assert (Hhandler : forall code (s : @st W),
             (if String.eqb code "NoSuchBucket" then ret true else ret false) s
             = (Ok (String.eqb code "NoSuchBucket"), s)).
  { intros code s. destruct (String.eqb code "NoSuchBucket"); reflexivity. }
  destruct (invoke_cases (get_bucket_versioning bucket)
              (fun r => GetBucketVersioning bucket (is_answer r)) s0)
    as [(v & w1 & Ew & E) | (code & w1 & Ew & E)].
  2:{ left. exists code, w1. split; [exact Ew|].
      erewrite try_except_caught;
        [ apply Hhandler | rewrite (bind_raise _ _ _ _ _ E); reflexivity | reflexivity ]. }
  right. simpl is_answer in E.
  set (s1 := record w1 (GetBucketVersioning bucket true) s0) in *.
  destruct (for_each_collect_page_post (list_object_versions bucket w1) [] s1
              BATCH_SIZE_pos) as (r_loop & s2 & new & El & Htr & Hpost).
  exists v, w1, r_loop, s2, new. split; [exact Ew|]. split; [exact Htr|].
  split; [exact Hpost|].
  match goal with |- context [try_except ?m _ s0] =>
    assert (Hbody : m s0
      = match r_loop with
        | Ok (Continue after) =>
            if nonempty after then
              bind (invoke (delete_objects bucket after)
                           (fun r => DeleteObjects bucket after (errors_of r)))
                   (fun resp => if nonempty (Errors resp) then ret false else ret true) s2
            else (Ok true, s2)
        | Ok (Return b) => (Ok b, s2)
        | Raise e => (Raise e, s2)
        | OutOfFuel => (OutOfFuel, s2)
        end) end.
  { rewrite (bind_ok _ _ _ _ _ E). erewrite bind_ok by reflexivity.
    change (world s1) with w1.
    destruct r_loop as [[after | b] | e | ].
    - rewrite (bind_ok _ _ _ _ _ El). destruct (nonempty after); reflexivity.
    - rewrite (bind_ok _ _ _ _ _ El). reflexivity.
    - rewrite (bind_raise _ _ _ _ _ El). reflexivity.
    - rewrite (bind_out_of_fuel _ _ _ _ El). reflexivity. }
  destruct r_loop as [[after | b] | e | ].
  - destruct (nonempty after).
    + destruct (invoke_cases (delete_objects bucket after)
                  (fun r => DeleteObjects bucket after (errors_of r)) s2)
        as [(resp & w3 & Ew3 & E3) | (code & w3 & Ew3 & E3)].
      * exists (inr resp), w3. split; [exact Ew3|].
        apply try_except_ok. rewrite Hbody, (bind_ok _ _ _ _ _ E3).
        destruct (nonempty (Errors resp)); reflexivity.
      * exists (inl code), w3. split; [exact Ew3|].
        erewrite try_except_caught;
          [ apply Hhandler
          | rewrite Hbody, (bind_raise _ _ _ _ _ E3); reflexivity
          | reflexivity ].
    + apply try_except_ok. exact Hbody.
  - apply try_except_ok. exact Hbody.
  - destruct e as [code | | | n].
    + erewrite try_except_caught; [apply Hhandler | exact Hbody | reflexivity].
    + apply try_except_uncaught; [exact Hbody | reflexivity].
    + apply try_except_uncaught; [exact Hbody | reflexivity].
    + apply try_except_uncaught; [exact Hbody | reflexivity].
  - destruct Hpost as (_ & []).
Qed.

End Emptier.

Section Emptier_claims.

Context {W : Type} {cloud : Cloud W}.

Lemma length_concat_full (full : list (list ObjectIdentifier)) :
  Forall (fun b => List.length b = BATCH_SIZE) full ->
  List.length (List.concat full) = (BATCH_SIZE * List.length full)%nat.
Proof.
  induction 1 as [|b full Hb _ IH].
  - rewrite Nat.mul_0_r. reflexivity.
  - rewrite concat_cons, length_app, Hb, IH.
    change (List.length (b :: full)) with (S (List.length full)).
    rewrite Nat.mul_succ_r. apply Nat.add_comm.
Qed.

Lemma calls_trace (s s' : @st W) new :
  trace s' = trace s ++ new -> calls s' = calls s ++ map snd new.
Proof. apply calls_app. Qed.

(** In a run of the emptier that returns success and in which every storage
    call is answered without error, the batches handed to the bulk delete
    are the enumeration cut in discovery order: batches of exactly 1000,
    then the non-empty remainder of fewer than 1000 as a final batch.  For
    an enumeration of 2500 entries these are three calls of 1000, 1000 and
    500 entries. *)
Lemma successful_run_is_cut_in_order (bucket : string) (w : W) :
  let r := fst (run (empty_s3_bucket bucket) w) in
  let issued := calls (snd (run (empty_s3_bucket bucket) w)) in
  let keys :=
    keys_of (list_object_versions bucket (snd (get_bucket_versioning bucket w))) in
  r = Ok true ->
  forallb answered issued = true ->
  List.concat (batches issued) = keys
  /\ (exists full rest,
        batches issued = full ++ (if nonempty rest then [rest] else [])
        /\ Forall (fun b => List.length b = BATCH_SIZE) full
        /\ (List.length rest < BATCH_SIZE)%nat)
  /\ (List.length keys = 2500%nat ->
      map (@List.length ObjectIdentifier) (batches issued) = [1000; 1000; 500]%nat).
Proof.
  intros r issued keys Hr Hans.
  assert (Hshape : exists full rest,
             batches issued = full ++ (if nonempty rest then [rest] else [])
             /\ Forall (fun b => List.length b = BATCH_SIZE) full
             /\ (List.length rest < BATCH_SIZE)%nat
             /\ keys = List.concat full ++ rest).
  { subst r issued keys. unfold run in *.
    destruct (empty_s3_bucket_cases bucket (now w) {| world := w; trace := [] |} eq_refl)
      as [(code & w1 & Ew & E)
         | (v & w1 & r_loop & s2 & new & Ew & Htr & (Hlate & Hout) & E)].
    { rewrite E in Hans. discriminate Hans. }
    simpl world in Ew. rewrite Ew. simpl snd.
    apply calls_trace in Htr. rewrite calls_record in Htr. simpl in Htr.
    destruct r_loop as [[after | b] | e | ]; [ | | | destruct Hout].
    - destruct Hout as (Hk & Hfull & Hafter).
      destruct (nonempty after) eqn:Hne.
      + destruct E as (r_d & w3 & Ew3 & E). rewrite E in *. simpl fst in Hr. simpl snd in *.
        rewrite calls_record, Htr in *. simpl in Hans.
        rewrite forallb_app in Hans. apply Bool.andb_true_iff in Hans.
        destruct Hans as (_ & Hans). simpl in Hans.
        exists (batches (map snd new)), after. rewrite Hne.
        split; [|auto].
        change (GetBucketVersioning bucket true :: map snd new ++ [DeleteObjects bucket after (errors_of r_d)])
          with ([GetBucketVersioning bucket true] ++ map snd new ++ [DeleteObjects bucket after (errors_of r_d)]).
        unfold batches. rewrite !flat_map_app. simpl. reflexivity.
      + rewrite E in *. simpl snd in *. rewrite Htr.
        apply nonempty_false in Hne. subst after.
        exists (batches (map snd new)), []. simpl. rewrite app_nil_r.
        split; [reflexivity | auto].
    - rewrite E in Hr. simpl in Hr. subst b. discriminate Hr.
    - exfalso.
      assert (Hs2 : snd (empty_s3_bucket bucket {| world := w; trace := [] |}) = s2)
        by (destruct e; rewrite E; reflexivity).
      rewrite Hs2, Htr in Hans. simpl in Hans. rewrite Hout in Hans. discriminate. }
  destruct Hshape as (full & rest & Hb & Hfull & Hrest & Hk).
  assert (Hconcat : List.concat (batches issued) = keys).
  { rewrite Hb, Hk, concat_app. f_equal.
    destruct rest; simpl; [reflexivity | rewrite app_nil_r; reflexivity]. }
  split; [exact Hconcat|]. split; [eauto|].
  intros Hlen. rewrite Hk, length_app, (length_concat_full _ Hfull) in Hlen.
  rewrite Hb.
  assert (Hsizes : List.length full = 2%nat /\ List.length rest = 500%nat).
  { apply Nat2Z.inj_lt in Hrest. apply (f_equal Z.of_nat) in Hlen.
    rewrite Nat2Z.inj_add, Nat2Z.inj_mul in Hlen.
    change (Z.of_nat BATCH_SIZE) with 1000%Z in *.
    change (Z.of_nat 2500) with 2500%Z in Hlen.
    split; apply Nat2Z.inj; [change (Z.of_nat 2) with 2%Z | change (Z.of_nat 500) with 500%Z];
      lia. }
  destruct Hsizes as (H2 & H500).
  destruct full as [|b1 [|b2 [|b3 full]]]; try discriminate H2.
  inversion Hfull as [|? ? Hb1 Hfull']; subst.
  inversion Hfull' as [|? ? Hb2 _]; subst.
  destruct rest as [|x rest]; [discriminate H500|].
  cbn [nonempty app map].
  rewrite Hb1, Hb2, H500. reflexivity.
Qed.


End Emptier_claims.

(** C5 as stated fails.  The enumeration yields 2500 entries, but the first
    bulk delete reports a per-object error: the emptier stops after that
    single call. *)
Lemma failing_batch_stops_the_emptier :
  let outcome :=
    Timeline.play (Accounts.stocked Accounts.pages_2500 0 0 ["AccessDenied"])
                  (fun W cloud => empty_s3_bucket "site") in
  List.length (keys_of (map inr Accounts.pages_2500)) = 2500%nat
  /\ map (@List.length ObjectIdentifier) (batches (map snd (snd outcome))) = [1000%nat]
  /\ fst outcome = Ok false.
Proof. vm_compute. repeat split; reflexivity. Qed.



(** A whole run: a bucket in us-east-1 without distribution and with 42
    object versions is emptied in one batch and deleted. *)
Example bucket_only_teardown :
  let outcome := Timeline.play Accounts.small_site (fun W cloud => main 0) in
  fst outcome = Ok tt
  /\ map snd (snd outcome)
     = [ ClientInit "s3"; ClientInit "cloudfront";
         Input bucket_prompt (Some "site");
         GetBucketLocation "site";
         Input confirm_prompt (Some "yes");
         GetBucketVersioning "site" true;
         ListObjectVersions "site" true;
         DeleteObjects "site" (Accounts.objects 0 42) (Some []);
         DeleteBucket "site";
         WaitBucketNotExists "site" ].
Proof. vm_compute. split; reflexivity. Qed.

(** * Further properties of the script *)

(** ** Exceptions that can escape a stage *)

Section Exceptions.

Context {W : Type} {cloud : Cloud W}.

Lemma throws_weaken {A} (P Q : exn -> Prop) (m : @M W A) :
  (forall e, P e -> Q e) -> throws P m -> throws Q m.
Proof. intros HPQ Hm s e s' E. apply HPQ. eapply Hm. exact E. Qed.

Lemma throws_ret {A} P (a : A) : throws P (@ret W A a).
Proof. intros s e s' E. discriminate E. Qed.

Lemma throws_raise {A} (P : exn -> Prop) e : P e -> throws P (@raise W A e).
Proof. intros HP s e' s' E. inversion E; subst. exact HP. Qed.

Lemma throws_sys_exit {A} (P : exn -> Prop) n :
  P (SystemExit n) -> throws P (@sys_exit W A n).
Proof. apply throws_raise. Qed.

Lemma throws_out_of_fuel {A} P : throws P (@out_of_fuel W A).
Proof. intros s e s' E. discriminate E. Qed.

Lemma throws_observe {A} P (f : W -> A) : throws P (observe f).
Proof. intros s e s' E. discriminate E. Qed.

Lemma throws_time_time P : throws P (@time_time W cloud).
Proof. apply throws_observe. Qed.

Lemma throws_time_sleep P n : throws P (@time_sleep W cloud n).
Proof. intros s e s' E. discriminate E. Qed.

Lemma throws_bind {A B} P (m : @M W A) (k : A -> @M W B) :
  throws P m -> (forall a, throws P (k a)) -> throws P (bind m k).
Proof.
  intros Hm Hk s e s' E.
  apply bind_inv in E. destruct E as [(a & s1 & E1 & E) | [(e1 & E1 & E) | (E1 & E)]].
  - eapply Hk. exact E.
  - inversion E; subst. eapply Hm. exact E1.
  - discriminate E.
Qed.

(** What the body raises and the handler does not catch escapes, and so
    does what the handler raises. *)
Lemma throws_try_except {A} (P Q : exn -> Prop) (m : @M W A) handler :
  throws Q m ->
  (forall e, Q e -> match handler e with Some h => throws P h | None => P e end) ->
  throws P (try_except m handler).
Proof.
  intros Hm Hh s e s' E. unfold try_except in E.
  destruct (m s) as [[a|e1|] s1] eqn:E1; try discriminate E.
  specialize (Hh e1 (Hm _ _ _ E1)).
  destruct (handler e1) as [h|].
  - eapply Hh. exact E.
  - inversion E; subst. exact Hh.
Qed.

Lemma throws_invoke {A} (P : exn -> Prop) (op : W -> (ErrorCode + A) * W) ev :
  (forall code, P (ClientError code)) -> throws P (invoke op ev).
Proof.
  intros HP s e s' E. unfold invoke in E.
  destruct (op (world s)) as [[code|a] w]; inversion E; subst. apply HP.
Qed.

Lemma throws_input (P : exn -> Prop) prompt : P EOFError -> throws P (@input W cloud prompt).
Proof.
  intros HP s e s' E. unfold input in E.
  destruct (read_line prompt (world s)) as [[line|] w]; inversion E; subst. exact HP.
Qed.

Lemma throws_next_page {X} (P : exn -> Prop) ev (page : ErrorCode + X) :
  (forall code, P (ClientError code)) -> throws P (@next_page W cloud X ev page).
Proof.
  intros HP s e s' E. unfold next_page in E.
  destruct page as [code|p]; inversion E; subst. apply HP.
Qed.

Lemma throws_for_each {X S R} P (body : X -> S -> @M W (flow S R)) xs :
  (forall x acc, throws P (body x acc)) -> forall acc, throws P (for_each body xs acc).
Proof.
  intros Hbody. induction xs as [|x xs IH]; intros acc; simpl.
  - apply throws_ret.
  - apply throws_bind; [apply Hbody|].
    intros [acc' | r]; [apply IH | apply throws_ret].
Qed.

Lemma throws_while_true {B R} P fuel (body : @M W (flow unit (B + R))) :
  throws P body -> throws P (while_true fuel body).
Proof.
  intros Hbody. induction fuel as [|fuel IH]; simpl.
  - apply throws_out_of_fuel.
  - apply throws_bind; [exact Hbody|].
    intros [u | r]; [exact IH | apply throws_ret].
Qed.

Lemma throws_except_ClientError {A} (P : exn -> Prop) (m : @M W A) (h : ErrorCode -> @M W A) :
  throws is_client_error m -> (forall code, throws P (h code)) ->
  throws P (try_except m (except_ClientError h)).
Proof.
  intros Hm Hh. apply (throws_try_except P is_client_error); [exact Hm|].
  intros [code| | |n] He; simpl in *; try contradiction. apply Hh.
Qed.

Lemma client_error_code code : is_client_error (ClientError code).
Proof. exact I. Qed.

End Exceptions.

Create HintDb throws.

#[global] Hint Resolve throws_ret throws_out_of_fuel throws_observe throws_time_time
  throws_time_sleep client_error_code : throws.

(** Break a script into its steps. *)
Ltac throws_step :=
  match goal with
  | |- throws _ (bind _ _) => apply throws_bind; [|intros ?; cbv beta]
  | |- throws _ (try_except _ (except_ClientError _)) =>
      apply throws_except_ClientError; [|intros ?; cbv beta]
  | |- throws _ (invoke _ _) => apply throws_invoke; intros ?
  | |- throws _ (input _) => apply throws_input
  | |- throws _ (time_sleep _) => apply throws_time_sleep
  | |- throws _ (next_page _ _) => apply throws_next_page; intros ?
  | |- throws _ (for_each _ _ _) => apply throws_for_each; intros ? ?
  | |- throws _ (while_true _ _) => apply throws_while_true
  | |- throws _ (ret _) => apply throws_ret
  | |- throws _ (sys_exit _) => apply throws_sys_exit
  | |- throws _ (raise _) => apply throws_raise
  | |- throws _ out_of_fuel => apply throws_out_of_fuel
  | |- throws _ time_time => apply throws_time_time
  | |- throws _ (observe _) => apply throws_observe
  | |- throws _ (if ?b then _ else _) => destruct b
  | |- throws _ (match ?x with _ => _ end) => destruct x
  end.

Ltac throws_auto := repeat throws_step; auto with throws.

Section Stage_exceptions.

Context {W : Type} {cloud : Cloud W}.

Lemma get_s3_bucket_region_throws bucket_name :
  throws no_exception (get_s3_bucket_region bucket_name).
Proof. unfold get_s3_bucket_region. throws_auto. Qed.

Lemma poll_disabled_throws id start : throws no_exception (poll_disabled id start).
Proof. unfold poll_disabled. throws_auto. Qed.

Lemma poll_deleted_throws id start : throws no_exception (poll_deleted id start).
Proof. unfold poll_deleted. throws_auto. Qed.

Lemma disable_then_delete_throws id fuel :
  throws is_client_error (disable_then_delete id fuel).
Proof.
  unfold disable_then_delete, disable_and_wait, delete_and_wait.
  repeat first
    [ apply (throws_weaken no_exception);
      [ intros ? []
      | first [apply throws_while_true, poll_disabled_throws
              | apply throws_while_true, poll_deleted_throws] ]
    | throws_step ]; auto with throws.
Qed.

Lemma delete_cloudfront_distribution_throws id etag fuel :
  throws no_exception (delete_cloudfront_distribution id etag fuel).
Proof.
  unfold delete_cloudfront_distribution.
  apply throws_except_ClientError; [apply disable_then_delete_throws|].
  intros code. unfold cdn_error. throws_auto.
Qed.

Lemma delete_full_batches_throws rounds bucket_name start objs :
  throws is_client_error (delete_full_batches rounds bucket_name start objs).
Proof.
  revert objs. induction rounds as [|rounds IH]; intros objs;
    rewrite delete_full_batches_unfold;
    destruct (BATCH_SIZE <=? List.length objs)%nat; throws_auto.
Qed.

Lemma empty_s3_bucket_throws bucket_name :
  throws no_exception (empty_s3_bucket bucket_name).
Proof.
  unfold empty_s3_bucket, collect_page.
  repeat first [ apply delete_full_batches_throws | throws_step ]; auto with throws.
Qed.

Lemma delete_s3_bucket_throws bucket_name :
  throws no_exception (delete_s3_bucket bucket_name).
Proof.
  unfold delete_s3_bucket.
  apply (throws_try_except _ (fun e => e = WaiterError \/ is_client_error e)).
  - repeat throws_step; try (right; exact I).
    intros s e s' E. unfold bucket_not_exists_waiter in E.
    destruct (wait_bucket_not_exists bucket_name (world s)) as [[|] w];
      inversion E; subst. left. reflexivity.
  - intros [code| | |n] [He | He]; try discriminate He; try contradiction;
      throws_auto.
Qed.

Lemma teardown_throws bucket_name cf_info fuel :
  throws (fun e => e = SystemExit 1) (teardown bucket_name cf_info fuel).
Proof.
  unfold teardown.
  repeat first
    [ apply (throws_weaken no_exception);
      [ intros ? []
      | first [ apply delete_cloudfront_distribution_throws
              | apply empty_s3_bucket_throws
              | apply delete_s3_bucket_throws ] ]
    | throws_step ]; auto with throws.
Qed.

Lemma find_cloudfront_for_s3_bucket_throws bucket_name region :
  throws no_exception (find_cloudfront_for_s3_bucket (cloud := cloud) bucket_name region).
Proof.
  intros s e s' E.
  destruct (find_cloudfront_for_s3_bucket_returns bucket_name region s) as (c & s1 & E1).
  rewrite E1 in E. discriminate E.
Qed.

Lemma confirm_deletion_throws bucket_name distribution_id :
  throws no_exception (confirm_deletion (cloud := cloud) bucket_name distribution_id).
Proof.
  intros s e s' E. rewrite confirm_deletion_run in E. discriminate E.
Qed.

End Stage_exceptions.

(** ** The locator *)

Section Locator_outcomes.

Context {W : Type} {cloud : Cloud W}.

Variable target : string.
Variable config : string -> ErrorCode + ConfigResponse.

Lemma matches_app l l' :
  matches target config (l ++ l')
  = (matches target config l + matches target config l')%nat.
Proof. unfold matches. rewrite filter_app, length_app. reflexivity. Qed.

Lemma matches_cons d l :
  matches target config (d :: l)
  = ((if is_match target config d then 1 else 0) + matches target config l)%nat.
Proof. unfold matches. simpl. destruct (is_match target config d); reflexivity. Qed.

Lemma matches_none l :
  matches target config l = 0%nat ->
  Forall (fun d => is_match target config d = false) l.
Proof.
  induction l as [|d l IH]; [constructor|].
  rewrite matches_cons. destruct (is_match target config d) eqn:Hd; [discriminate|].
  intros Hl. constructor; [exact Hd | apply IH; exact Hl].
Qed.

(** Without a match the search goes through the whole list. *)
Lemma scan_no_match l acc :
  matches target config l = 0%nat ->
  scan target config l acc = Continue acc /\ visited target config l acc = l.
Proof.
  induction l as [|d l IH]; [auto|].
  rewrite matches_cons. simpl.
  destruct (is_match target config d); [discriminate|].
  intros Hl. destruct (IH Hl) as (-> & ->). auto.
Qed.

(** With one match the search goes through the whole list and holds the
    match in the end. *)
Lemma scan_one_match l :
  matches target config l = 1%nat ->
  exists pre d post,
    l = pre ++ d :: post
    /\ is_match target config d = true
    /\ matches target config pre = 0%nat
    /\ matches target config post = 0%nat
    /\ scan target config l (None, 0%nat)
       = Continue (Some (Id d, token_of config d), 1%nat)
    /\ visited target config l (None, 0%nat) = l.
Proof.
  induction l as [|d l IH]; [discriminate|].
  rewrite matches_cons. simpl.
  destruct (is_match target config d) eqn:Hd.
  - intros Hl. assert (Hl0 : matches target config l = 0%nat) by lia.
    destruct (scan_no_match l (Some (Id d, token_of config d), 1%nat) Hl0) as (-> & ->).
    exists [], d, l. auto 10.
  - intros Hl. destruct (IH Hl) as (pre & x & post & -> & Hx & Hpre & Hpost & -> & ->).
    exists (d :: pre), x, post. rewrite matches_cons, Hd. auto 10.
Qed.

(** When every page is answered, the pages are searched as one list. *)
Lemma scan_pages_answered pages acc :
  forallb is_answer pages = true ->
  scan_pages target config pages acc = Ok (scan target config (listed pages) acc)
  /\ visited_pages target config pages acc = visited target config (listed pages) acc.
Proof.
  revert acc. induction pages as [|page pages IH]; intros acc Hp; [auto|].
  destruct page as [code | page]; [discriminate|]. simpl in Hp.
  simpl. rewrite scan_app, visited_app.
  destruct (scan target config (items_of page) acc) as [acc' | r]; [|auto].
  destruct (IH acc' Hp) as (-> & ->). auto.
Qed.

(** Without a match among the distributions listed, the search ends with
    the listing. *)
Lemma scan_pages_no_match pages acc :
  matches target config (listed pages) = 0%nat ->
  (scan_pages target config pages acc = Ok (Continue acc)
   \/ exists code, scan_pages target config pages acc = Raise (ClientError code))
  /\ visited_pages target config pages acc = listed pages.
Proof.
  revert acc. induction pages as [|page pages IH]; intros acc; [auto|].
  destruct page as [code | page]; simpl; [eauto|].
  rewrite matches_app. intros Hm.
  destruct (scan_no_match (items_of page) acc) as (-> & ->); [lia|].
  destruct (IH acc) as (Hs & ->); [lia|]. auto.
Qed.

(** The pair kept in [found_distribution] has been returned by a
    configuration fetch. *)
Lemma for_each_check_distribution_found items acc (s : @st W) f s' :
  for_each (check_distribution target) items acc s = (Ok f, s') ->
  found_was_fetched acc (calls s) ->
  match f with
  | Continue acc' => found_was_fetched acc' (calls s')
  | Return r => r = None
  end.
Proof.
  revert acc s. induction items as [|d items IH]; intros acc s E Hacc; simpl in E.
  - inversion E; subst. exact Hacc.
  - assert (Hkeep : forall w e, found_was_fetched acc (calls (record w e s))).
    { intros w e. unfold found_was_fetched in *. rewrite calls_record.
      destruct (fst acc) as [[id etag]|]; [|exact I]. apply in_or_app. auto. }
    destruct (check_distribution_cases target d acc s)
      as [(code & w & _ & E1) | (c & w & _ & E1)];
      rewrite (bind_ok _ _ _ _ _ E1) in E.
    + eapply IH; [exact E | apply Hkeep].
    + destruct (any_origin_matches target (Config c)); [|eapply IH; [exact E | apply Hkeep]].
      destruct (snd acc =? 0)%nat.
      * eapply IH; [exact E|]. unfold found_was_fetched. simpl fst.
        rewrite calls_record. apply in_or_app. right. left. reflexivity.
      * inversion E; subst. reflexivity.
Qed.

Lemma for_each_check_page_found pages acc (s : @st W) f s' :
  for_each (check_page target) pages acc s = (Ok f, s') ->
  found_was_fetched acc (calls s) ->
  match f with
  | Continue acc' => found_was_fetched acc' (calls s')
  | Return r => r = None
  end.
Proof.
  revert acc s. induction pages as [|page pages IH]; intros acc s E Hacc.
  - inversion E; subst. exact Hacc.
  - rewrite for_each_cons in E. destruct page as [code | page].
    { erewrite bind_raise in E by reflexivity. discriminate E. }
    assert (Hkeep : found_was_fetched acc
                      (calls (record (fetch_page (world s)) (ListDistributions true) s))).
    { unfold found_was_fetched in *. rewrite calls_record.
      destruct (fst acc) as [[id etag]|]; [|exact I]. apply in_or_app. auto. }
    destruct (check_page target (inr page) acc s) as [r1 s1] eqn:E1.
    assert (H1 : match r1 with
                 | Ok (Continue acc') => found_was_fetched acc' (calls s1)
                 | Ok (Return r) => r = None
                 | _ => True
                 end).
    { unfold check_page in E1. erewrite bind_ok in E1 by reflexivity.
      destruct r1 as [f1|e|]; [|exact I|exact I].
      destruct (DistributionList page) as [[items|]|].
      - eapply for_each_check_distribution_found; [exact E1 | exact Hkeep].
      - inversion E1; subst. exact Hkeep.
      - inversion E1; subst. exact Hkeep. }
    destruct r1 as [[acc' | r] | e | ].
    + rewrite (bind_ok _ _ _ _ _ E1) in E. eapply IH; [exact E | exact H1].
    + rewrite (bind_ok _ _ _ _ _ E1) in E. inversion E. subst f s'. exact H1.
    + rewrite (bind_raise _ _ _ _ _ E1) in E. discriminate E.
    + rewrite (bind_out_of_fuel _ _ _ _ E1) in E. discriminate E.
Qed.

End Locator_outcomes.

Section Locator_claims.

Context {W : Type} {cloud : Cloud W}.

(** A pair returned by the locator has been returned by a configuration
    fetch. *)
Lemma find_cloudfront_for_s3_bucket_found bucket_name region (s : @st W) id etag s' :
  find_cloudfront_for_s3_bucket bucket_name region s = (Ok (Some (id, etag)), s') ->
  In (GetDistributionConfig id (Some etag)) (calls s').
Proof.
  intros E. unfold find_cloudfront_for_s3_bucket in E.
  apply try_except_inv in E.
  destruct E as [(E & _) | (e & h & s1 & E & Eh & Er)].
  - erewrite bind_ok in E by reflexivity.
    apply bind_inv in E.
    destruct E as [(f & s1 & E1 & E) | [(e & E1 & E) | (E1 & E)]];
      [ | discriminate E | discriminate E ].
    pose proof (for_each_check_page_found _ _ _ _ _ _ E1 I) as Hf.
    destruct f as [[found n] | r].
    + destruct (n =? 1)%nat.
      * unfold ret in E. injection E as -> ->. exact Hf.
      * destruct (n =? 0)%nat; inversion E.
    + unfold ret in E. injection E as -> _. discriminate Hf.
  - destruct e as [code| | |n]; simpl in Eh; inversion Eh. subst h.
    inversion Er.
Qed.

(** X1.  On an account whose configurations are stable, when every page of
    the listing is answered and exactly one listed distribution has an
    origin on the target domain, the locator returns the id of that
    distribution with the token of its configuration; it has fetched the
    configuration of every listed distribution, once and in order. *)
Theorem unique_match_is_returned
        (bucket_name region : string) (config : string -> ErrorCode + ConfigResponse)
        (w : W) :
  (forall id (w' : W), fst (get_distribution_config id w') = config id) ->
  let target := target_domain bucket_name region in
  forallb is_answer (list_distributions w) = true ->
  matches target config (listed (list_distributions w)) = 1%nat ->
  exists pre d post,
    listed (list_distributions w) = pre ++ d :: post
    /\ is_match target config d = true
    /\ Forall (fun d' => is_match target config d' = false) (pre ++ post)
    /\ fst (run (find_cloudfront_for_s3_bucket bucket_name region) w)
       = Ok (Some (Id d, token_of config d))
    /\ fetched (calls (snd (run (find_cloudfront_for_s3_bucket bucket_name region) w)))
       = map Id (listed (list_distributions w)).
Proof.
  intros stable target Hp Hm.
  destruct (scan_one_match target config _ Hm)
    as (pre & d & post & Hl & Hd & Hpre & Hpost & Hs & Hv).
  destruct (scan_pages_answered target config _ (None, 0%nat) Hp) as (Hsp & Hvp).
  unfold run, find_cloudfront_for_s3_bucket. fold target.
  destruct (for_each_check_page_scan target config stable
              (list_distributions w) (None, 0%nat) {| world := w; trace := [] |})
    as (s' & E & F).
  rewrite Hsp, Hs in E. rewrite Hvp, Hv in F. simpl in F.
  erewrite try_except_ok
    by (erewrite bind_ok by reflexivity; rewrite (bind_ok _ _ _ _ _ E); reflexivity).
  exists pre, d, post. split; [exact Hl|]. split; [exact Hd|].
  split; [apply Forall_app; split; apply matches_none; assumption|].
  split; [reflexivity | exact F].
Qed.

(** X2.  On an account whose configurations are stable, when no listed
    distribution has an origin on the target domain (a distribution whose
    configuration cannot be fetched counts as no match), the locator returns
    [None], and it has fetched the configuration of every distribution
    listed before the first failing page, once and in order. *)
Theorem no_match_fetches_every_listed_configuration
        (bucket_name region : string) (config : string -> ErrorCode + ConfigResponse)
        (w : W) :
  (forall id (w' : W), fst (get_distribution_config id w') = config id) ->
  matches (target_domain bucket_name region) config (listed (list_distributions w)) = 0%nat ->
  fst (run (find_cloudfront_for_s3_bucket bucket_name region) w) = Ok None
  /\ fetched (calls (snd (run (find_cloudfront_for_s3_bucket bucket_name region) w)))
     = map Id (listed (list_distributions w)).
Proof.
  intros stable Hm.
  destruct (scan_pages_no_match _ config _ (None, 0%nat) Hm) as (Hsp & Hvp).
  unfold run, find_cloudfront_for_s3_bucket.
  destruct (for_each_check_page_scan (target_domain bucket_name region) config stable
              (list_distributions w) (None, 0%nat) {| world := w; trace := [] |})
    as (s' & E & F).
  rewrite Hvp in F. simpl in F.
  destruct Hsp as [Hsp | (code & Hsp)]; rewrite Hsp in E.
  - erewrite try_except_ok
      by (erewrite bind_ok by reflexivity; rewrite (bind_ok _ _ _ _ _ E); reflexivity).
    split; [reflexivity | exact F].
  - rewrite (try_except_caught _ _ _ (ClientError code) (ret None) s');
      [ split; [reflexivity | exact F] | | reflexivity ].
    erewrite bind_ok by reflexivity. rewrite (bind_raise _ _ _ _ _ E). reflexivity.
Qed.

(** X3.  No [ClientError] of a service call escapes the locator: one raised
    by the listing or by a configuration fetch is caught.  The locator only
    lists distributions and fetches configurations; in particular it issues
    no mutating call. *)
Theorem locator_catches_client_errors_and_never_mutates
        (bucket_name region : string) (s : @st W) :
  (forall code,
      fst (find_cloudfront_for_s3_bucket bucket_name region s) <> Raise (ClientError code))
  /\ exists new,
      calls (snd (find_cloudfront_for_s3_bucket bucket_name region s)) = calls s ++ new
      /\ Forall (fun e => locator_call e = true /\ mutating e = false) new.
Proof.
  destruct (find_cloudfront_for_s3_bucket bucket_name region s) as [r s'] eqn:E.
  cbn [fst snd]. split.
  - intros code Hr. subst r.
    exact (find_cloudfront_for_s3_bucket_throws bucket_name region _ _ _ E).
  - assert (Hm : emits (fun e => locator_call e = true /\ mutating e = false)
                       (find_cloudfront_for_s3_bucket bucket_name region)).
    { apply find_cloudfront_for_s3_bucket_emits. intros e He. split; [exact He|].
      destruct e; first [reflexivity | discriminate He]. }
    destruct (emits_calls _ _ _ _ _ Hm E) as (new & Hnew & Hq).
    exists new. auto.
Qed.

(** X4.  Whatever the account does, a pair returned by the locator was
    returned as such by a configuration fetch of that run: the id is the one
    fetched and the token is the one the service answered; and no page of
    the listing was refused. *)
Theorem returned_token_was_fetched
        (bucket_name region : string) (w : W) (id etag : string) :
  fst (run (find_cloudfront_for_s3_bucket bucket_name region) w) = Ok (Some (id, etag)) ->
  In (GetDistributionConfig id (Some etag))
     (calls (snd (run (find_cloudfront_for_s3_bucket bucket_name region) w)))
  /\ ~ In (ListDistributions false)
          (calls (snd (run (find_cloudfront_for_s3_bucket bucket_name region) w))).
Proof.
  unfold run. intros Hr.
  destruct (find_cloudfront_for_s3_bucket bucket_name region {| world := w; trace := [] |})
    as [r s'] eqn:E.
  simpl in Hr. subst r. simpl snd.
  split.
  - exact (find_cloudfront_for_s3_bucket_found _ _ _ _ _ _ E).
  - destruct (find_cloudfront_for_s3_bucket_failing_page _ _ _ _ _ E) as (new & Hnew & Hnone).
    simpl in Hnew. rewrite Hnew. intros Hin. specialize (Hnone Hin). discriminate Hnone.
Qed.

End Locator_claims.

Lemma unique_match_is_returned_witness :
  let C := Timeline.cloud Scenes.crowded in
  let config := Timeline.config_of Scenes.crowded in
  let target := target_domain "site" "us-east-1" in
  exists pre d post,
    listed (Timeline.dist_pages Scenes.crowded) = pre ++ d :: post
    /\ is_match target config d = true
    /\ Forall (fun d' => is_match target config d' = false) (pre ++ post)
    /\ fst (run (find_cloudfront_for_s3_bucket (cloud := C) "site" "us-east-1") 0%Z)
       = Ok (Some (Id d, token_of config d))
    /\ fetched (calls (snd (run (find_cloudfront_for_s3_bucket (cloud := C)
                                   "site" "us-east-1") 0%Z)))
       = ["E0"; "E1"; "E2"; "E3"].
Proof.
  intros C config target.
  apply (unique_match_is_returned (cloud := C) "site" "us-east-1" config 0%Z).
  - intros id w'. reflexivity.
  - reflexivity.
  - vm_compute. reflexivity.
Defined.

Lemma no_match_fetches_every_listed_configuration_witness :
  fst (run (find_cloudfront_for_s3_bucket (cloud := Timeline.cloud Scenes.crowded)
              "blog" "us-east-1") 0%Z) = Ok None
  /\ fetched (calls (snd (run (find_cloudfront_for_s3_bucket
                                 (cloud := Timeline.cloud Scenes.crowded)
                                 "blog" "us-east-1") 0%Z)))
     = ["E0"; "E1"; "E2"; "E3"].
Proof.
  apply (no_match_fetches_every_listed_configuration
           (cloud := Timeline.cloud Scenes.crowded)
           "blog" "us-east-1" (Timeline.config_of Scenes.crowded) 0%Z).
  - intros id w'. reflexivity.
  - vm_compute. reflexivity.
Defined.

Lemma returned_token_was_fetched_witness :
  In (GetDistributionConfig "E1" (Some "T1"))
     (calls (snd (run (find_cloudfront_for_s3_bucket
                         (cloud := Timeline.cloud Scenes.crowded)
                         "site" "us-east-1") 0%Z))).
Proof.
  apply (returned_token_was_fetched (cloud := Timeline.cloud Scenes.crowded)
           "site" "us-east-1" 0%Z "E1" "T1").
  vm_compute. reflexivity.
Defined.

(** ** The confirmation gate *)

Section Confirmation.

Context {W : Type} {cloud : Cloud W}.

Lemma blank_cons c s : blank (String c s) = Py.isspace c && blank s.
Proof. reflexivity. Qed.

(** [lstrip] removes a blank prefix, [rstrip] a blank suffix. *)
Lemma lstrip_prefix s :
  exists pre, s = (pre ++ Py.lstrip s)%string /\ blank pre = true.
Proof.
  induction s as [|c s (pre & Hs & Hpre)]; simpl.
  - exists EmptyString. auto.
  - destruct (Py.isspace c) eqn:Hc.
    + exists (String c pre). simpl. rewrite <- Hs, blank_cons, Hc, Hpre. auto.
    + exists EmptyString. auto.
Qed.

Lemma rstrip_blank s : blank s = true -> Py.rstrip s = EmptyString.
Proof.
  induction s as [|c s IH]; [reflexivity|].
  rewrite blank_cons. intros H. apply Bool.andb_true_iff in H. destruct H as (Hc & Hs).
  simpl. rewrite (IH Hs), Hc. reflexivity.
Qed.

Lemma rstrip_suffix s :
  exists post, s = (Py.rstrip s ++ post)%string /\ blank post = true.
Proof.
  induction s as [|c s (post & Hs & Hpost)]; simpl.
  - exists EmptyString. auto.
  - destruct (Py.rstrip s) as [|c' r] eqn:Hr.
    + simpl in Hs. subst post. destruct (Py.isspace c) eqn:Hc.
      * exists (String c s). rewrite blank_cons, Hc, Hpost. auto.
      * exists s. auto.
    + exists post. simpl in *. rewrite <- Hs. auto.
Qed.

Lemma lstrip_app_blank pre s :
  blank pre = true -> Py.lstrip (pre ++ s)%string = Py.lstrip s.
Proof.
  induction pre as [|c pre IH]; [reflexivity|].
  rewrite blank_cons. intros H. apply Bool.andb_true_iff in H. destruct H as (Hc & Hp).
  simpl. rewrite Hc. apply IH. exact Hp.
Qed.

Lemma rstrip_app_blank t post :
  blank post = true -> Py.rstrip (t ++ post)%string = Py.rstrip t.
Proof.
  intros Hpost. induction t as [|c t IH]; simpl.
  - apply rstrip_blank. exact Hpost.
  - rewrite IH. reflexivity.
Qed.

(** The letters that [lower] maps to the letters of [yes]. *)
Lemma lower_char_y c :
  Py.lower_char c = "y"%char <-> c = "y"%char \/ c = "Y"%char.
Proof.
  split.
  - destruct c as [[] [] [] [] [] [] [] []]; vm_compute; intros H;
      first [discriminate H | auto].
  - intros [-> | ->]; reflexivity.
Qed.

Lemma lower_char_e c :
  Py.lower_char c = "e"%char <-> c = "e"%char \/ c = "E"%char.
Proof.
  split.
  - destruct c as [[] [] [] [] [] [] [] []]; vm_compute; intros H;
      first [discriminate H | auto].
  - intros [-> | ->]; reflexivity.
Qed.

Lemma lower_char_s c :
  Py.lower_char c = "s"%char <-> c = "s"%char \/ c = "S"%char.
Proof.
  split.
  - destruct c as [[] [] [] [] [] [] [] []]; vm_compute; intros H;
      first [discriminate H | auto].
  - intros [-> | ->]; reflexivity.
Qed.

Lemma lower_yes t :
  Py.lower t = "yes"
  <-> exists c1 c2 c3,
        t = String c1 (String c2 (String c3 EmptyString))
        /\ (c1 = "y" \/ c1 = "Y")%char /\ (c2 = "e" \/ c2 = "E")%char
        /\ (c3 = "s" \/ c3 = "S")%char.
Proof.
  split.
  - destruct t as [|c1 [|c2 [|c3 [|c4 t]]]]; simpl; intros H; try discriminate H.
    injection H as H1 H2 H3.
    exists c1, c2, c3.
    split; [reflexivity|].
    split; [apply lower_char_y; assumption|].
    split; [apply lower_char_e; assumption | apply lower_char_s; assumption].
  - intros (c1 & c2 & c3 & -> & H1 & H2 & H3). simpl.
    apply lower_char_y in H1. apply lower_char_e in H2. apply lower_char_s in H3.
    rewrite H1, H2, H3. reflexivity.
Qed.

(** The lines that the gate takes for a confirmation. *)
Lemma affirmative_lines line :
  affirmative (Some line) = true
  <-> exists pre c1 c2 c3 post,
        line = (pre ++ String c1 (String c2 (String c3 post)))%string
        /\ blank pre = true /\ blank post = true
        /\ (c1 = "y" \/ c1 = "Y")%char /\ (c2 = "e" \/ c2 = "E")%char
        /\ (c3 = "s" \/ c3 = "S")%char.
Proof.
  unfold affirmative. rewrite String.eqb_eq, lower_yes. unfold Py.strip. split.
  - intros (c1 & c2 & c3 & Ht & H1 & H2 & H3).
    destruct (lstrip_prefix line) as (pre & Hl & Hpre).
    destruct (rstrip_suffix (Py.lstrip line)) as (post & Hr & Hpost).
    rewrite Ht in Hr. simpl in Hr. rewrite Hr in Hl.
    exists pre, c1, c2, c3, post. auto 10.
  - intros (pre & c1 & c2 & c3 & post & -> & Hpre & Hpost & H1 & H2 & H3).
    exists c1, c2, c3. split; [|auto].
    rewrite (lstrip_app_blank _ _ Hpre).
    assert (Hs1 : Py.isspace c1 = false) by (destruct H1 as [-> | ->]; reflexivity).
    assert (Hs3 : Py.isspace c3 = false) by (destruct H3 as [-> | ->]; reflexivity).
    simpl Py.lstrip. rewrite Hs1.
    change (String c1 (String c2 (String c3 post)))
      with (String c1 (String c2 (String c3 EmptyString)) ++ post)%string.
    rewrite (rstrip_app_blank _ _ Hpost). simpl. rewrite Hs3. reflexivity.
Qed.

(** X5.  When the prompt of the gate is answered with a line, the gate
    returns a boolean, [True] exactly when the line consists of the letters
    y, e, s, each in either case, with nothing but white space before and
    after; when the input stream is closed, it returns [False]. *)
Theorem confirmation_is_yes_in_any_case
        (bucket_name : string) (distribution_id : option string) (s : @st W) :
  (forall line,
      fst (read_line confirm_prompt (world s)) = Some line ->
      exists verdict,
        fst (confirm_deletion bucket_name distribution_id s) = Ok verdict
        /\ (verdict = true
            <-> exists pre c1 c2 c3 post,
                  line = (pre ++ String c1 (String c2 (String c3 post)))%string
                  /\ blank pre = true /\ blank post = true
                  /\ (c1 = "y" \/ c1 = "Y")%char /\ (c2 = "e" \/ c2 = "E")%char
                  /\ (c3 = "s" \/ c3 = "S")%char))
  /\ (fst (read_line confirm_prompt (world s)) = None ->
      fst (confirm_deletion bucket_name distribution_id s) = Ok false).
Proof.
  rewrite confirm_deletion_run. simpl fst. split.
  - intros line ->. exists (affirmative (Some line)). split; [reflexivity|].
    apply affirmative_lines.
  - intros ->. reflexivity.
Qed.

End Confirmation.

Lemma confirmation_is_yes_in_any_case_witness :
  fst (confirm_deletion
         (cloud := Timeline.cloud (Accounts.answering (Some "  yEs ") Timeline.quiet))
         "site" None {| world := 0%Z; trace := [] |}) = Ok true.
Proof.
  destruct (confirmation_is_yes_in_any_case
              (cloud := Timeline.cloud (Accounts.answering (Some "  yEs ") Timeline.quiet))
              "site" None {| world := 0%Z; trace := [] |}) as (Hline & _).
  destruct (Hline "  yEs " eq_refl) as (verdict & Hr & Hv).
  rewrite Hr. f_equal. apply Hv.
  exists "  ", "y"%char, "E"%char, "s"%char, " ".
  repeat split; auto.
Defined.

(** ** The CDN teardown *)

Section Verdicts.

Context {W : Type} {cloud : Cloud W}.

Lemma throws_invoke_code {A} (P : exn -> Prop) (op : W -> (ErrorCode + A) * W) ev :
  (forall w code, fst (op w) = inl code -> P (ClientError code)) ->
  throws P (invoke op ev).
Proof.
  intros HP s e s' E. unfold invoke in E.
  destruct (op (world s)) as [[code|a] w] eqn:Eop; inversion E; subst.
  apply (HP (world s)). rewrite Eop. reflexivity.
Qed.

Lemma yields_ret {A} (P : A -> Prop) (a : A) : P a -> yields P (@ret W A a).
Proof. intros HP s a' s' E. inversion E; subst. exact HP. Qed.

Lemma yields_bind {A B} (Q : A -> Prop) (P : B -> Prop) (m : @M W A) (k : A -> @M W B) :
  yields Q m -> (forall a, Q a -> yields P (k a)) -> yields P (bind m k).
Proof.
  intros Hm Hk s b s' E.
  apply bind_inv in E. destruct E as [(a & s1 & E1 & E) | [(e & _ & E) | (_ & E)]];
    try discriminate E.
  eapply Hk; [eapply Hm; exact E1 | exact E].
Qed.

Lemma yields_any {A} (m : @M W A) : yields (fun _ => True) m.
Proof. intros s a s' E. exact I. Qed.

Lemma yields_try_except {A} (P : A -> Prop) (Q : exn -> Prop) (m : @M W A) handler :
  yields P m -> throws Q m ->
  (forall e, Q e -> match handler e with Some h => yields P h | None => True end) ->
  yields P (try_except m handler).
Proof.
  intros Hm Ht Hh s a s' E. unfold try_except in E.
  destruct (m s) as [[a1|e1|] s1] eqn:E1; try discriminate E.
  - inversion E; subst. eapply Hm. exact E1.
  - specialize (Hh e1 (Ht _ _ _ E1)). destruct (handler e1) as [h|]; [|discriminate E].
    eapply Hh. exact E.
Qed.

Lemma yields_while_true {B R} (P : B + R -> Prop) fuel (body : @M W (flow unit (B + R))) :
  yields (fun f => match f with Continue _ => True | Return r => P r end) body ->
  yields P (while_true fuel body).
Proof.
  intros Hbody. induction fuel as [|fuel IH]; simpl.
  - intros s a s' E. discriminate E.
  - apply (yields_bind _ _ _ _ Hbody).
    intros [u | r] Hr; [exact IH | apply yields_ret; exact Hr].
Qed.

(** The disable wait is left by [break], or it returns [False]. *)
Lemma poll_disabled_yields id start :
  yields (fun f => match f with
                   | Continue _ => True
                   | Return r => r = inl tt \/ r = inr false
                   end) (poll_disabled id start).
Proof.
  unfold poll_disabled.
  apply (yields_try_except _ is_client_error).
  - apply (yields_bind (fun _ => True)); [apply yields_any|]. intros d _.
    apply (yields_bind (fun _ => True)); [apply yields_any|]. intros t _.
    destruct (String.eqb _ _); [apply yields_ret; auto|].
    destruct (_ >? _)%Z; [apply yields_ret; auto|].
    apply (yields_bind (fun _ => True)); [apply yields_any|]. intros _ _.
    apply yields_ret. exact I.
  - throws_auto.
  - intros [code| | |n] He; simpl in *; try contradiction. apply yields_ret. auto.
Qed.

Lemma disable_and_wait_yields id dist_config current_etag fuel :
  yields (fun r => match r with inl _ => True | inr b => b = false end)
         (disable_and_wait id dist_config current_etag fuel).
Proof.
  unfold disable_and_wait.
  destruct (negb (Enabled dist_config)); [apply yields_ret; exact I|].
  apply (yields_bind (fun _ => True)); [apply yields_any|]. intros t' _.
  apply (yields_bind (fun _ => True)); [apply yields_any|]. intros start _.
  apply (yields_bind (fun r => r = inl tt \/ r = inr false)).
  - apply yields_while_true, poll_disabled_yields.
  - intros r [-> | ->]; apply yields_ret; [exact I | reflexivity].
Qed.

Section Never_gone.

Variable id : string.
Hypothesis never : never_reported_gone id.

Lemma poll_deleted_yields start :
  yields (fun f => match f with
                   | Continue _ => True
                   | Return r => r = inr false
                   end) (poll_deleted id start).
Proof.
  destruct never as (_ & _ & Hstatus & _).
  unfold poll_deleted.
  apply (yields_try_except _ other_client_error).
  - apply (yields_bind (fun _ => True)); [apply yields_any|]. intros d _.
    apply (yields_bind (fun _ => True)); [apply yields_any|]. intros t _.
    destruct (_ >? _)%Z; [apply yields_ret; auto|].
    apply (yields_bind (fun _ => True)); [apply yields_any|]. intros _ _.
    apply yields_ret. exact I.
  - apply throws_bind.
    + apply throws_invoke_code. intros w code Hw Hc. subst code. exact (Hstatus w Hw).
    + intros d. throws_auto.
  - intros [code| | |n] He; simpl in *; try contradiction.
    apply String.eqb_neq in He. rewrite He. apply yields_ret. reflexivity.
Qed.

Lemma disable_then_delete_yields fuel :
  yields (fun b => b = false) (disable_then_delete id fuel).
Proof.
  unfold disable_then_delete.
  apply (yields_bind (fun _ => True)); [apply yields_any|]. intros c _.
  apply (yields_bind _ _ _ _ (disable_and_wait_yields id _ _ fuel)).
  intros [latest_etag | b] Hb; [|apply yields_ret; exact Hb].
  unfold delete_and_wait.
  apply (yields_bind (fun _ => True)); [apply yields_any|]. intros _ _.
  apply (yields_bind (fun _ => True)); [apply yields_any|]. intros start _.
  apply (yields_bind (fun r => r = inr false)).
  - apply yields_while_true, poll_deleted_yields.
  - intros r ->. apply yields_ret. reflexivity.
Qed.

Lemma disable_then_delete_throws_other fuel :
  throws other_client_error (disable_then_delete id fuel).
Proof.
  destruct never as (Hconfig & Hupdate & _ & Hdelete).
  assert (Hno : forall A (m : @M W A), throws no_exception m -> throws other_client_error m)
    by (intros A m; apply throws_weaken; intros ? []).
  unfold disable_then_delete.
  apply throws_bind.
  { apply throws_invoke_code. intros w code Hw Hc. subst code. exact (Hconfig w Hw). }
  intros c. apply throws_bind.
  - unfold disable_and_wait. destruct (negb _); [apply throws_ret|].
    apply throws_bind.
    { apply throws_invoke_code. intros w code Hw Hc. subst code.
      exact (Hupdate _ _ w Hw). }
    intros t'. apply throws_bind; [apply throws_time_time|]. intros start.
    apply throws_bind; [apply Hno, throws_while_true, poll_disabled_throws|].
    intros [u | b]; apply throws_ret.
  - intros [latest_etag | b]; [|apply throws_ret].
    unfold delete_and_wait. apply throws_bind.
    { apply throws_invoke_code. intros w code Hw Hc. subst code.
      exact (Hdelete _ w Hw). }
    intros _. apply throws_bind; [apply throws_time_time|]. intros start.
    apply throws_bind; [apply Hno, throws_while_true, poll_deleted_throws|].
    intros [[] | b]. apply throws_ret.
Qed.

End Never_gone.

Lemma filter_polling (f : event -> bool) l :
  (forall e, polling_call e = true -> f e = false) ->
  Forall (fun e => polling_call e = true) l -> filter f l = [].
Proof.
  intros Hf. induction 1 as [|e l He _ IH]; simpl; [reflexivity|].
  rewrite (Hf e He). exact IH.
Qed.

Lemma polling_is_not_mutating e : polling_call e = true -> mutating e = false.
Proof. destruct e; simpl; congruence. Qed.

Lemma delete_cloudfront_distribution_updates id etag fuel :
  emits update_disables (delete_cloudfront_distribution id etag fuel).
Proof.
  unfold delete_cloudfront_distribution, disable_then_delete, disable_and_wait,
    delete_and_wait, poll_disabled, poll_deleted, cdn_error.
  emits_auto; first [exact I | reflexivity].
Qed.

(** X6.  No [ClientError] of a service call escapes the CDN teardown: each
    is caught and turned into a boolean.  When the clock moves forward with
    every poll and sleep, neither wait goes beyond [POLLING_ROUNDS]
    rounds. *)
Theorem cdn_teardown_absorbs_errors_and_stops_polling
        (id etag : string) (fuel : nat) (s : @st W) :
  (forall code,
      fst (delete_cloudfront_distribution id etag fuel s) <> Raise (ClientError code))
  /\ (clock_advances id -> (POLLING_ROUNDS <= fuel)%nat ->
      fst (delete_cloudfront_distribution id etag fuel s) <> OutOfFuel).
Proof.
  split.
  - intros code He.
    destruct (delete_cloudfront_distribution id etag fuel s) as [r s'] eqn:E.
    simpl in He. subst r.
    exact (delete_cloudfront_distribution_throws id etag fuel _ _ _ E).
  - intros Hclock Hfuel.
    exact (delete_cloudfront_distribution_returns id etag fuel Hclock Hfuel s).
Qed.

(** X7.  When the opening configuration fetch is refused, the CDN teardown
    issues no other call; it returns [True] when the error is
    [NoSuchDistribution] (the distribution is already gone) and [False] for
    every other error. *)
Theorem refused_fetch_ends_the_cdn_teardown
        (id etag : string) (fuel : nat) (w : W) (code : ErrorCode) :
  fst (get_distribution_config id w) = inl code ->
  fst (run (delete_cloudfront_distribution id etag fuel) w)
  = Ok (String.eqb code "NoSuchDistribution")
  /\ calls (snd (run (delete_cloudfront_distribution id etag fuel) w))
     = [GetDistributionConfig id None].
Proof.
  intros Hc. unfold run. rewrite delete_cloudfront_distribution_absorbs.
  unfold disable_then_delete.
  destruct (get_distribution_config id w) as [r w1] eqn:E. simpl in Hc. subst r.
  erewrite bind_raise by (apply invoke_error; exact E).
  split; reflexivity.
Qed.

(** X8.  The mutating calls of a CDN teardown are, in order, none, or one
    update, or one delete, or one accepted update followed by one delete
    that presents the token of the update response; all are made on the
    distribution given, and the update sends a disabled configuration.
    No call is retried. *)
Theorem cdn_teardown_mutates_at_most_twice (id etag : string) (fuel : nat) (w : W) :
  let changes :=
    filter mutating (calls (snd (run (delete_cloudfront_distribution id etag fuel) w))) in
  changes = []
  \/ (exists config t answer,
        changes = [UpdateDistribution id config t answer] /\ Enabled config = false)
  \/ (exists t, changes = [DeleteDistribution id t])
  \/ (exists config t t',
        changes = [UpdateDistribution id config t (Some t'); DeleteDistribution id t']
        /\ Enabled config = false).
Proof.
  intros changes. subst changes.
  assert (Hup : Forall update_disables
                  (calls (snd (run (delete_cloudfront_distribution id etag fuel) w)))).
  { unfold run.
    destruct (delete_cloudfront_distribution id etag fuel {| world := w; trace := [] |})
      as [r s'] eqn:E.
    destruct (emits_calls _ _ _ _ _ (delete_cloudfront_distribution_updates id etag fuel) E)
      as (l & Hl & Hq).
    simpl in *. rewrite Hl. exact Hq. }
  assert (Hpoll : forall l, Forall (fun e => polling_call e = true) l ->
                            filter mutating l = [])
    by (intros l; apply filter_polling; exact polling_is_not_mutating).
  destruct (delete_cloudfront_distribution_run id etag fuel w)
    as [ b | r t l Hl | b t config | r t config t' l _ Hl _ | r t config t' l l' Hl Hl' ].
  - left. reflexivity.
  - right. right. left. exists t. simpl. rewrite (Hpoll _ Hl). reflexivity.
  - right. left. exists config, t, None. split; [reflexivity|].
    inversion Hup as [|? ? _ Hup']; subst. inversion Hup' as [|? ? Hc _]; subst. exact Hc.
  - right. left. exists config, t, (Some t'). simpl. rewrite (Hpoll _ Hl).
    split; [reflexivity|].
    inversion Hup as [|? ? _ Hup']; subst. inversion Hup' as [|? ? Hc _]; subst. exact Hc.
  - right. right. right. exists config, t, t'. simpl.
    rewrite filter_app. simpl. rewrite (Hpoll _ Hl), (Hpoll _ Hl').
    split; [reflexivity|].
    inversion Hup as [|? ? _ Hup']; subst. inversion Hup' as [|? ? Hc _]; subst. exact Hc.
Qed.

(** X9.  The CDN teardown returns [True] only when the service reports the
    distribution gone: on an account that never answers a call on the
    distribution with [NoSuchDistribution], it never returns [True], however
    the calls are answered otherwise. *)
Theorem success_needs_no_such_distribution (id etag : string) (fuel : nat) (s : @st W) :
  never_reported_gone id ->
  fst (delete_cloudfront_distribution id etag fuel s) <> Ok true.
Proof.
  intros never Hr.
  rewrite delete_cloudfront_distribution_absorbs in Hr. simpl in Hr.
  destruct (disable_then_delete id fuel s) as [[b|e|] s'] eqn:E; simpl in Hr.
  - injection Hr as ->.
    pose proof (disable_then_delete_yields id never fuel _ _ _ E) as Hb.
    discriminate Hb.
  - pose proof (disable_then_delete_throws_other id never fuel _ _ _ E) as He.
    destruct e as [code| | |n]; simpl in He; try contradiction.
    injection Hr as Hr. apply String.eqb_eq in Hr. contradiction.
  - discriminate Hr.
Qed.

End Verdicts.

Lemma cdn_teardown_absorbs_errors_and_stops_polling_witness :
  fst (delete_cloudfront_distribution (cloud := Timeline.cloud Scenes.crowded)
         "E1" "T1" 62 {| world := 0%Z; trace := [] |}) <> OutOfFuel.
Proof.
  apply (cdn_teardown_absorbs_errors_and_stops_polling
           (cloud := Timeline.cloud Scenes.crowded)
           "E1" "T1" 62 {| world := 0%Z; trace := [] |}).
  - split; simpl; intros; lia.
  - unfold POLLING_ROUNDS. lia.
Defined.

Lemma refused_fetch_ends_the_cdn_teardown_witness :
  fst (run (delete_cloudfront_distribution (cloud := Timeline.cloud Scenes.crowded)
              "E0" "T0" 5) 0%Z) = Ok false
  /\ calls (snd (run (delete_cloudfront_distribution (cloud := Timeline.cloud Scenes.crowded)
                        "E0" "T0" 5) 0%Z))
     = [GetDistributionConfig "E0" None].
Proof.
  exact (refused_fetch_ends_the_cdn_teardown (cloud := Timeline.cloud Scenes.crowded)
           "E0" "T0" 5 0%Z "AccessDenied" eq_refl).
Defined.

Lemma success_needs_no_such_distribution_witness :
  fst (delete_cloudfront_distribution (cloud := Timeline.cloud Accounts.thrice_fronted)
         "E1" "T-E1" 62 {| world := 0%Z; trace := [] |}) <> Ok true.
Proof.
  apply (success_needs_no_such_distribution (cloud := Timeline.cloud Accounts.thrice_fronted)
           "E1" "T-E1" 62 {| world := 0%Z; trace := [] |}).
  repeat split; simpl; intros; discriminate.
Defined.

(** ** The emptier *)

Section Emptier_runs.

Context {W : Type} {cloud : Cloud W}.

Variable bucket : string.
Variable start : Z.

Lemma forallb_removelast {A} (f : A -> bool) l :
  forallb f l = true -> forallb f (removelast l) = true.
Proof.
  induction l as [|a [|b l] IH]; try reflexivity.
  intros H. apply Bool.andb_true_iff in H. destruct H as (Ha & Hl).
  change (removelast (a :: b :: l)) with (a :: removelast (b :: l)).
  simpl forallb at 1. rewrite Ha. apply IH. exact Hl.
Qed.

Lemma forallb_removelast_app {A} (f : A -> bool) l1 l2 :
  forallb f l1 = true -> forallb f (removelast l2) = true ->
  forallb f (removelast (l1 ++ l2)) = true.
Proof.
  intros H1 H2. destruct l2 as [|a l2].
  - rewrite app_nil_r. apply forallb_removelast. exact H1.
  - rewrite removelast_app by discriminate. rewrite forallb_app, H1, H2. reflexivity.
Qed.

Lemma forallb_removelast_cons {A} (f : A -> bool) a l :
  f a = true -> forallb f (removelast l) = true ->
  forallb f (removelast (a :: l)) = true.
Proof.
  intros Ha Hl. apply (forallb_removelast_app f [a] l); [|exact Hl].
  simpl. rewrite Ha. reflexivity.
Qed.

(** The loop that deletes the full batches. *)
Lemma delete_full_batches_sent rounds objs (s : @st W) r s' :
  (List.length objs <= rounds)%nat ->
  delete_full_batches rounds bucket start objs s = (r, s') ->
  exists new, trace s' = trace s ++ new /\ emptier_loop_sent start objs new r.
Proof.
  revert objs s r s'. induction rounds as [|rounds IH]; intros objs s r s' Hrounds E;
    rewrite delete_full_batches_unfold in E;
    destruct (BATCH_SIZE <=? List.length objs)%nat eqn:Hb;
    try (apply Nat.leb_gt in Hb; unfold ret in E; injection E as <- <-;
         exists []; rewrite app_nil_r; split; [reflexivity|];
         unfold emptier_loop_sent; cbn [map batches flat_map List.concat app removelast
                                        forallb existsb];
         split; [constructor|];
         split; [exists objs; split; [reflexivity | intros after Ha; congruence]|];
         split; [reflexivity|]; split; [discriminate|]; auto).
  - apply Nat.leb_le in Hb. pose proof BATCH_SIZE_pos. lia.
  - apply Nat.leb_le in Hb.
    assert (Hlen : List.length (firstn BATCH_SIZE objs) = BATCH_SIZE)
      by (apply firstn_length_le; exact Hb).
    assert (Hlater : (List.length (skipn BATCH_SIZE objs) <= rounds)%nat)
      by (rewrite length_skipn; pose proof BATCH_SIZE_pos; lia).
    pose proof (firstn_skipn BATCH_SIZE objs) as Hobjs.
    remember (firstn BATCH_SIZE objs) as batch eqn:Hbatch.
    remember (skipn BATCH_SIZE objs) as later eqn:Hlater'.
    clear Hbatch Hlater'.
    assert (Hsingle : forall t errors r0,
      (forall after, r0 <> Ok (Continue after)) ->
      (reports_errors (DeleteObjects bucket batch errors) = true -> r0 = Ok (Return false)) ->
      match r0 with
      | Ok (Return b) =>
          b = false
          /\ (answered (DeleteObjects bucket batch errors) = false
              \/ late_full_batch start (t, DeleteObjects bucket batch errors) = true)
      | Raise e => is_client_error e /\ answered (DeleteObjects bucket batch errors) = false
      | _ => False
      end ->
      emptier_loop_sent start objs [(t, DeleteObjects bucket batch errors)] r0).
    { intros t errors r0 Hnot Herr Hr. unfold emptier_loop_sent.
      cbn [map snd]. rewrite batches_delete.
      cbn [batches flat_map List.concat app removelast].
      split; [repeat constructor; exact Hlen|].
      split.
      { exists later. rewrite app_nil_r. split; [symmetry; exact Hobjs|].
        intros after Ha. exfalso. exact (Hnot after Ha). }
      split; [reflexivity|].
      split.
      { rewrite existsb_cons. cbn [existsb]. rewrite Bool.orb_false_r. exact Herr. }
      destruct r0 as [[after | b] | e | ]; try contradiction.
      - destruct Hr as (Hb0 & Hc). split; [exact Hb0|].
        cbn [forallb existsb]. rewrite Bool.andb_true_r, Bool.orb_false_r. exact Hc.
      - destruct Hr as (He & Hc). split; [exact He|].
        cbn [forallb]. rewrite Bool.andb_true_r. exact Hc. }
    destruct (invoke_cases (delete_objects bucket batch)
                (fun r => DeleteObjects bucket batch (errors_of r)) s)
      as [(resp & w & _ & E1) | (code & w & _ & E1)].
    2:{ rewrite (bind_raise _ _ _ _ _ E1) in E. injection E as <- <-.
        eexists. split; [reflexivity|]. cbn [errors_of].
        apply Hsingle; [discriminate | discriminate | split; [exact I | reflexivity]]. }
    rewrite (bind_ok _ _ _ _ _ E1) in E. cbn [errors_of] in E.
    destruct (Errors resp) as [|x errs] eqn:Herr; cbn [nonempty] in E.
    2:{ unfold ret in E. injection E as <- <-. eexists. split; [reflexivity|].
        apply Hsingle;
          [discriminate | reflexivity | split; [reflexivity | left; reflexivity]]. }
    erewrite bind_ok in E by reflexivity. rewrite world_record in E.
    assert (Hlate : late_full_batch start (now w, DeleteObjects bucket batch (Some []))
                    = (now w - start >? S3_DELETE_TIMEOUT_SECONDS)%Z).
    { unfold late_full_batch, over_budget. cbn [fst snd].
      rewrite Hlen, Nat.eqb_refl, Z.gtb_ltb. reflexivity. }
    destruct (now w - start >? S3_DELETE_TIMEOUT_SECONDS)%Z eqn:Ht.
    { unfold ret in E. injection E as <- <-. eexists. split; [reflexivity|].
      apply Hsingle; [discriminate | discriminate |].
      split; [reflexivity|]. right. exact Hlate. }
    apply IH in E; [|exact Hlater].
    destruct E as (new & Htr & Hfull & (rest & Hrest & Hafter) & Hlast & Herrs & Hr).
    exists ((now w, DeleteObjects bucket batch (Some [])) :: new).
    split.
    { rewrite Htr. unfold record. cbn [trace]. rewrite <- app_assoc. reflexivity. }
    unfold emptier_loop_sent. rewrite map_cons. cbn [snd]. rewrite batches_delete.
    split; [constructor; assumption|].
    split.
    { exists rest. rewrite concat_cons, <- app_assoc, <- Hrest.
      split; [symmetry; exact Hobjs | exact Hafter]. }
    split; [apply forallb_removelast_cons; [reflexivity | exact Hlast]|].
    split; [rewrite existsb_cons; exact Herrs|].
    destruct r as [[after | b] | e | ]; try exact Hr.
    destruct Hr as (Hb' & [Hc | Hc]); (split; [exact Hb'|]).
    + left. exact Hc.
    + right. rewrite existsb_cons, Hlate. exact Hc.
Qed.

Lemma keys_of_single page :
  keys_of [page]
  = match page with
    | inr page => Versions page ++ DeleteMarkers page
    | inl _ => []
    end.
Proof. rewrite keys_of_cons. apply app_nil_r. Qed.

(** A call that was answered, put in front of the calls of a loop. *)
Lemma emptier_loop_sent_cons t e before new r :
  answered e = true -> batches [e] = [] -> late_full_batch start (t, e) = false ->
  emptier_loop_sent start before new r ->
  emptier_loop_sent start before ((t, e) :: new) r.
Proof.
  intros He Hb Hl (Hfull & Hrest & Hlast & Herrs & Hr).
  assert (Hbatches : batches (map snd ((t, e) :: new)) = batches (map snd new)).
  { rewrite map_cons. cbn [snd].
    change (e :: map snd new) with ([e] ++ map snd new).
    unfold batches in *. rewrite flat_map_app, Hb. reflexivity. }
  assert (Hre : reports_errors e = false).
  { destruct e; try reflexivity. destruct errors as [[|x errs]|]; try reflexivity.
    discriminate He. }
  unfold emptier_loop_sent. rewrite Hbatches.
  split; [exact Hfull|]. split; [exact Hrest|].
  rewrite map_cons. cbn [snd].
  split; [apply forallb_removelast_cons; assumption|].
  split; [rewrite existsb_cons, Hre; exact Herrs|].
  destruct r as [[after | b] | e' | ]; try exact Hr.
  - destruct Hr as (Ha & Hlen). split; [|exact Hlen].
    cbn [forallb]. rewrite He, Ha. reflexivity.
  - destruct Hr as (Hb' & [Hc | Hc]); (split; [exact Hb'|]).
    + left. cbn [forallb]. rewrite Hc. apply Bool.andb_false_r.
    + right. rewrite existsb_cons, Hl. exact Hc.
  - destruct Hr as (He' & Hc). split; [exact He'|].
    cbn [forallb]. rewrite Hc. apply Bool.andb_false_r.
Qed.

(** One page of the listing. *)
Lemma collect_page_sent page acc (s : @st W) r s' :
  (List.length acc < BATCH_SIZE)%nat ->
  collect_page bucket start page acc s = (r, s') ->
  exists new, trace s' = trace s ++ new
              /\ emptier_loop_sent start (acc ++ keys_of [page]) new r.
Proof.
  intros Hacc E. unfold collect_page in E. rewrite keys_of_single.
  destruct page as [code | page].
  { erewrite bind_raise in E by reflexivity. injection E as <- <-.
    eexists. split; [reflexivity|]. unfold emptier_loop_sent.
    cbn [map snd batches flat_map List.concat app removelast forallb existsb
         answered reports_errors is_answer andb orb].
    split; [constructor|].
    split; [exists (acc ++ []); split; [reflexivity | discriminate]|].
    split; [reflexivity|]. split; [discriminate|]. split; [exact I | reflexivity]. }
  erewrite bind_ok in E by reflexivity. cbv zeta in E. cbn [is_answer] in E.
  destruct (negb (nonempty (Versions page)) && negb (nonempty (DeleteMarkers page))) eqn:He.
  - apply Bool.andb_true_iff in He. destruct He as (Hv & Hm).
    apply Bool.negb_true_iff in Hv, Hm. apply nonempty_false in Hv, Hm.
    rewrite Hv, Hm. unfold ret in E. injection E as <- <-.
    eexists. split; [reflexivity|]. unfold emptier_loop_sent.
    cbn [map snd batches flat_map List.concat app removelast forallb existsb
         answered reports_errors andb orb].
    split; [constructor|].
    split; [exists (acc ++ []); split; [reflexivity|]; intros after Ha;
            rewrite app_nil_r; congruence|].
    split; [reflexivity|]. split; [discriminate|].
    split; [reflexivity | exact Hacc].
  - apply delete_full_batches_sent in E; [|apply le_n].
    destruct E as (new & Htr & Hsent).
    exists ((now (fetch_page (world s)), ListObjectVersions bucket true) :: new).
    split; [rewrite Htr; unfold record; cbn [trace]; rewrite <- app_assoc; reflexivity|].
    apply emptier_loop_sent_cons; [reflexivity | reflexivity | reflexivity | exact Hsent].
Qed.

(** The loop over the pages. *)
Lemma for_each_collect_page_sent pages acc (s : @st W) r s' :
  (List.length acc < BATCH_SIZE)%nat ->
  for_each (collect_page bucket start) pages acc s = (r, s') ->
  exists new, trace s' = trace s ++ new
              /\ emptier_loop_sent start (acc ++ keys_of pages) new r.
Proof.
  revert acc s r s'. induction pages as [|page pages IH]; intros acc s r s' Hacc E.
  - unfold for_each, ret in E. injection E as <- <-.
    exists []. rewrite app_nil_r. split; [reflexivity|]. unfold emptier_loop_sent.
    cbn [map snd batches flat_map List.concat app removelast forallb existsb keys_of].
    split; [constructor|].
    split; [exists (acc ++ []); split; [reflexivity|]; intros after Ha;
            rewrite app_nil_r; congruence|].
    split; [reflexivity|]. split; [discriminate|]. split; [reflexivity | exact Hacc].
  - rewrite for_each_cons in E.
    destruct (collect_page bucket start page acc s) as [r1 s1] eqn:E1.
    destruct (collect_page_sent _ _ _ _ _ Hacc E1)
      as (new1 & Htr1 & Hfull1 & (rest1 & Hrest1 & Hafter1) & Hlast1 & Herrs1 & Hr1).
    assert (Hkeys : acc ++ keys_of (page :: pages)
                    = (acc ++ keys_of [page]) ++ keys_of pages).
    { rewrite keys_of_cons, keys_of_single, app_assoc. reflexivity. }
    assert (Hstop : forall r0, r1 = r0 -> (forall after, r0 <> Ok (Continue after)) ->
                    emptier_loop_sent start (acc ++ keys_of (page :: pages)) new1 r0).
    { intros r0 <- Hnot. unfold emptier_loop_sent.
      split; [exact Hfull1|].
      split; [exists (rest1 ++ keys_of pages); split;
              [rewrite Hkeys, Hrest1, app_assoc; reflexivity
              | intros after Ha; exfalso; exact (Hnot after Ha)]|].
      split; [exact Hlast1|]. split; [exact Herrs1 | exact Hr1]. }
    destruct r1 as [[acc1 | b] | e | ].
    + rewrite (bind_ok _ _ _ _ _ E1) in E.
      destruct Hr1 as (Hans1 & Hacc1).
      specialize (Hafter1 acc1 eq_refl). subst rest1.
      destruct (IH _ _ _ _ Hacc1 E)
        as (new & Htr & Hfull & (rest & Hrest & Hafter) & Hlast & Herrs & Hr).
      exists (new1 ++ new).
      split; [rewrite Htr, Htr1, app_assoc; reflexivity|].
      unfold emptier_loop_sent. rewrite map_app.
      assert (Hb : batches (map snd new1 ++ map snd new)
                   = batches (map snd new1) ++ batches (map snd new))
        by (unfold batches; apply flat_map_app).
      rewrite Hb.
      split; [apply Forall_app; auto|].
      split.
      { exists rest. split; [|exact Hafter].
        rewrite Hkeys, Hrest1, concat_app, <- !app_assoc. f_equal. exact Hrest. }
      split; [apply forallb_removelast_app; assumption|].
      split.
      { rewrite existsb_app. intros Hx. apply Bool.orb_true_iff in Hx.
        destruct Hx as [Hx | Hx]; [specialize (Herrs1 Hx); discriminate | auto]. }
      destruct r as [[after | b] | e | ]; try exact Hr.
      * destruct Hr as (Ha & Hlen). split; [|exact Hlen].
        rewrite forallb_app, Hans1, Ha. reflexivity.
      * destruct Hr as (Hb' & [Hc | Hc]); (split; [exact Hb'|]).
        -- left. rewrite forallb_app, Hc. apply Bool.andb_false_r.
        -- right. rewrite existsb_app, Hc. apply Bool.orb_true_r.
      * destruct Hr as (He & Hc). split; [exact He|].
        rewrite forallb_app, Hc. apply Bool.andb_false_r.
    + rewrite (bind_ok _ _ _ _ _ E1) in E. unfold ret in E. injection E as <- <-.
      exists new1. split; [exact Htr1|]. apply Hstop; [reflexivity | discriminate].
    + rewrite (bind_raise _ _ _ _ _ E1) in E. injection E as <- <-.
      exists new1. split; [exact Htr1|]. apply Hstop; [reflexivity | discriminate].
    + destruct Hr1.
Qed.

(** The emptier as a whole, with the loop over the pages in view. *)
Lemma empty_s3_bucket_run (s0 : @st W) :
  start = now (world s0) ->
  (exists code w1,
      get_bucket_versioning bucket (world s0) = (inl code, w1)
      /\ empty_s3_bucket bucket s0
         = (Ok (String.eqb code "NoSuchBucket"),
            record w1 (GetBucketVersioning bucket false) s0))
  \/ exists v w1 r_loop s2,
      get_bucket_versioning bucket (world s0) = (inr v, w1)
      /\ for_each (collect_page bucket start) (list_object_versions bucket w1) []
           (record w1 (GetBucketVersioning bucket true) s0) = (r_loop, s2)
      /\ match r_loop with
         | Ok (Continue after) =>
             if nonempty after then
               exists r_d w3,
                 delete_objects bucket after (world s2) = (r_d, w3)
                 /\ empty_s3_bucket bucket s0
                    = (Ok (match r_d with
                           | inl code => String.eqb code "NoSuchBucket"
                           | inr resp => negb (nonempty (Errors resp))
                           end),
                       record w3 (DeleteObjects bucket after (errors_of r_d)) s2)
             else empty_s3_bucket bucket s0 = (Ok true, s2)
         | Ok (Return b) => empty_s3_bucket bucket s0 = (Ok b, s2)
         | Raise (ClientError code) =>
             empty_s3_bucket bucket s0 = (Ok (String.eqb code "NoSuchBucket"), s2)
         | _ => False
         end.
Proof.
  intros Hstart. unfold empty_s3_bucket.
  erewrite bind_ok by reflexivity. rewrite <- Hstart.
  assert (Hhandler : forall code (s : @st W),
             (if String.eqb code "NoSuchBucket" then ret true else ret false) s
             = (Ok (String.eqb code "NoSuchBucket"), s)).
  { intros code s. destruct (String.eqb code "NoSuchBucket"); reflexivity. }
  destruct (invoke_cases (get_bucket_versioning bucket)
              (fun r => GetBucketVersioning bucket (is_answer r)) s0)
    as [(v & w1 & Ew & E) | (code & w1 & Ew & E)].
  2:{ left. exists code, w1. split; [exact Ew|].
      erewrite try_except_caught;
        [ apply Hhandler | rewrite (bind_raise _ _ _ _ _ E); reflexivity | reflexivity ]. }
  right. simpl is_answer in E.
  set (s1 := record w1 (GetBucketVersioning bucket true) s0) in *.
  destruct (for_each (collect_page bucket start) (list_object_versions bucket w1) [] s1)
    as [r_loop s2] eqn:El.
  destruct (for_each_collect_page_sent _ [] _ _ _ BATCH_SIZE_pos El)
    as (new & _ & _ & _ & _ & _ & Hr).
  exists v, w1, r_loop, s2. split; [exact Ew|]. split; [exact El|].
  match goal with |- context [try_except ?m _ s0] =>
    assert (Hbody : m s0
      = match r_loop with
        | Ok (Continue after) =>
            if nonempty after then
              bind (invoke (delete_objects bucket after)
                           (fun r => DeleteObjects bucket after (errors_of r)))
                   (fun resp => if nonempty (Errors resp) then ret false else ret true) s2
            else (Ok true, s2)
        | Ok (Return b) => (Ok b, s2)
        | Raise e => (Raise e, s2)
        | OutOfFuel => (OutOfFuel, s2)
        end) end.
  { rewrite (bind_ok _ _ _ _ _ E). erewrite bind_ok by reflexivity.
    change (world s1) with w1.
    destruct r_loop as [[after | b] | e | ].
    - rewrite (bind_ok _ _ _ _ _ El). destruct (nonempty after); reflexivity.
    - rewrite (bind_ok _ _ _ _ _ El). reflexivity.
    - rewrite (bind_raise _ _ _ _ _ El). reflexivity.
    - rewrite (bind_out_of_fuel _ _ _ _ El). reflexivity. }
  destruct r_loop as [[after | b] | e | ].
  - destruct (nonempty after).
    + destruct (invoke_cases (delete_objects bucket after)
                  (fun r => DeleteObjects bucket after (errors_of r)) s2)
        as [(resp & w3 & Ew3 & E3) | (code & w3 & Ew3 & E3)].
      * exists (inr resp), w3. split; [exact Ew3|].
        apply try_except_ok. rewrite Hbody, (bind_ok _ _ _ _ _ E3).
        destruct (nonempty (Errors resp)); reflexivity.
      * exists (inl code), w3. split; [exact Ew3|].
        erewrite try_except_caught;
          [ apply Hhandler
          | rewrite Hbody, (bind_raise _ _ _ _ _ E3); reflexivity
          | reflexivity ].
    + apply try_except_ok. exact Hbody.
  - apply try_except_ok. exact Hbody.
  - destruct Hr as (He & _). destruct e as [code | | | n]; try contradiction.
    erewrite try_except_caught; [apply Hhandler | exact Hbody | reflexivity].
  - exact Hr.
Qed.

End Emptier_runs.

Section Emptier_outcomes.

Context {W : Type} {cloud : Cloud W}.

Lemma batches_app l l' : batches (l ++ l') = batches l ++ batches l'.
Proof. apply flat_map_app. Qed.

(** A full batch deleted late is among the batches. *)
Lemma late_full_batch_in_batches start (tr : list (Z * event)) :
  existsb (late_full_batch start) tr = true ->
  exists batch, In batch (batches (map snd tr)) /\ List.length batch = BATCH_SIZE.
Proof.
  induction tr as [|[t e] tr IH]; [discriminate|].
  rewrite existsb_cons, map_cons. cbn [snd]. intros H.
  apply Bool.orb_true_iff in H. destruct H as [H | H].
  - unfold late_full_batch in H. cbn [snd] in H.
    destruct e; try discriminate H. destruct errors as [[|x errs]|]; try discriminate H.
    apply Bool.andb_true_iff in H. destruct H as (H & _). apply Nat.eqb_eq in H.
    exists batch. rewrite batches_delete. split; [left; reflexivity | exact H].
  - destruct (IH H) as (batch & Hin & Hlen). exists batch. split; [|exact Hlen].
    change (e :: map snd tr) with ([e] ++ map snd tr).
    rewrite batches_app. apply in_or_app. right. exact Hin.
Qed.

(** What every run of the emptier has to show. *)
Lemma empty_s3_bucket_summary (bucket : string) (w : W) :
  let r := fst (run (empty_s3_bucket bucket) w) in
  let tr := trace (snd (run (empty_s3_bucket bucket) w)) in
  let keys :=
    keys_of (list_object_versions bucket (snd (get_bucket_versioning bucket w))) in
  exists b full last,
    r = Ok b
    /\ batches (map snd tr) = full ++ last
    /\ Forall (fun x => List.length x = BATCH_SIZE) full
    /\ (last = []
        \/ exists rest, last = [rest] /\ rest <> [] /\ (List.length rest < BATCH_SIZE)%nat)
    /\ (exists rest,
          keys = List.concat (batches (map snd tr)) ++ rest
          /\ (b = true -> forallb answered (map snd tr) = true -> rest = []))
    /\ forallb answered (removelast (map snd tr)) = true
    /\ (existsb reports_errors (map snd tr) = true -> b = false)
    /\ (b = false ->
        forallb answered (map snd tr) = false
        \/ existsb (late_full_batch (now w)) tr = true).
Proof.
  intros r tr keys. subst r tr keys. unfold run.
  set (s0 := {| world := w; trace := [] |}).
  destruct (empty_s3_bucket_run bucket (now w) s0 eq_refl)
    as [(code & w1 & Ew & E) | (v & w1 & r_loop & s2 & Ew & El & E)].
  { rewrite E. cbn [fst snd]. unfold record, s0. cbn [trace app map snd].
    exists (String.eqb code "NoSuchBucket"), [], [].
    split; [reflexivity|]. split; [reflexivity|]. split; [constructor|].
    split; [left; reflexivity|].
    split; [eexists; split; [reflexivity | discriminate]|].
    split; [reflexivity|]. split; [discriminate|]. intros _. left. reflexivity. }
  change (world s0) with w in Ew. rewrite Ew. cbn [snd].
  destruct (for_each_collect_page_sent _ _ _ [] _ _ _ BATCH_SIZE_pos El)
    as (new & Htr & Hfull & (rest & Hrest & Hafter) & Hlast & Herrs & Hr).
  unfold record, s0 in Htr. cbn [trace app] in Htr. cbn [app] in Hrest.
  set (g := (now w1, GetBucketVersioning bucket true)) in *.
  assert (Hg : batches (map snd (g :: new)) = batches (map snd new)) by reflexivity.
  assert (Hgl : forallb answered (removelast (map snd (g :: new))) = true)
    by (apply forallb_removelast_cons; [reflexivity | exact Hlast]).
  assert (Hge : existsb reports_errors (map snd (g :: new))
                = existsb reports_errors (map snd new)) by reflexivity.
  assert (Hga : forallb answered (map snd (g :: new)) = forallb answered (map snd new))
    by reflexivity.
  assert (Hgt : existsb (late_full_batch (now w)) new = true ->
                existsb (late_full_batch (now w)) (g :: new) = true).
  { intros H. rewrite existsb_cons, H. apply Bool.orb_true_r. }
  destruct r_loop as [[after | b'] | e | ].
  - destruct Hr as (Hans & Hlen). specialize (Hafter after eq_refl). subst rest.
    destruct after as [|x after']; cbn [nonempty] in E.
    + rewrite E. cbn [fst snd]. rewrite Htr.
      exists true, (batches (map snd new)), [].
      rewrite Hg, app_nil_r.
      split; [reflexivity|]. split; [reflexivity|]. split; [exact Hfull|].
      split; [left; reflexivity|].
      split; [exists []; split; [exact Hrest | reflexivity]|].
      split; [exact Hgl|].
      split; [rewrite Hge; intros Hx; specialize (Herrs Hx); discriminate|].
      discriminate.
    + destruct E as (r_d & w3 & Ew3 & E). rewrite E. cbn [fst snd].
      unfold record. cbn [trace]. rewrite Htr.
      set (d := (now w3, DeleteObjects bucket (x :: after') (errors_of r_d))).
      set (b := match r_d with
                | inl code => String.eqb code "NoSuchBucket"
                | inr resp => negb (nonempty (Errors resp))
                end).
      assert (Hd : b = false -> answered (snd d) = false).
      { subst b d. cbn [snd answered]. destruct r_d as [code | resp]; [reflexivity|].
        cbn [errors_of]. destruct (Errors resp); [discriminate | reflexivity]. }
      assert (Hde : reports_errors (snd d) = true -> b = false).
      { subst b d. cbn [snd reports_errors]. destruct r_d as [code | resp]; [discriminate|].
        cbn [errors_of]. destruct (Errors resp); [discriminate | reflexivity]. }
      change (g :: new) with ([g] ++ new). rewrite <- app_assoc, !map_app.
      exists b, (batches (map snd new)), [x :: after'].
      split; [reflexivity|].
      split; [rewrite !batches_app; reflexivity|].
      split; [exact Hfull|].
      split; [right; exists (x :: after'); split; [reflexivity|]; split;
              [discriminate | exact Hlen]|].
      split.
      { exists []. split; [|reflexivity].
        rewrite !batches_app, !concat_app. subst g d.
        cbn [map snd batches flat_map List.concat app].
        rewrite !app_nil_r. exact Hrest. }
      split.
      { rewrite app_assoc. cbn [map]. rewrite removelast_last, forallb_app, Hans.
        reflexivity. }
      split.
      { rewrite !existsb_app. cbn [map existsb]. rewrite !Bool.orb_false_r.
        change (reports_errors (snd g)) with false. cbn [orb]. intros Hx.
        apply Bool.orb_true_iff in Hx. destruct Hx as [Hx | Hx];
          [specialize (Herrs Hx); discriminate | exact (Hde Hx)]. }
      intros Hb. left. rewrite !forallb_app. cbn [map forallb].
      rewrite (Hd Hb). rewrite !Bool.andb_false_r. reflexivity.
  - destruct Hr as (-> & Hcause). rewrite E. cbn [fst snd]. rewrite Htr.
    exists false, (batches (map snd new)), [].
    rewrite Hg, app_nil_r.
    split; [reflexivity|]. split; [reflexivity|]. split; [exact Hfull|].
    split; [left; reflexivity|].
    split; [exists rest; split; [exact Hrest | discriminate]|].
    split; [exact Hgl|]. split; [reflexivity|].
    intros _. rewrite Hga. destruct Hcause as [Hc | Hc]; [left; exact Hc | right; auto].
  - destruct Hr as (He & Hc). destruct e as [code | | | n]; try contradiction.
    rewrite E. cbn [fst snd]. rewrite Htr.
    exists (String.eqb code "NoSuchBucket"), (batches (map snd new)), [].
    rewrite Hg, app_nil_r.
    split; [reflexivity|]. split; [reflexivity|]. split; [exact Hfull|].
    split; [left; reflexivity|].
    split; [exists rest; split; [exact Hrest|]; rewrite Hga, Hc; discriminate|].
    split; [exact Hgl|].
    split; [rewrite Hge; intros Hx; specialize (Herrs Hx); discriminate|].
    intros _. left. rewrite Hga. exact Hc.
  - destruct Hr.
Qed.

(** X10.  In every run of the emptier, whatever its outcome, the batches
    handed to the bulk delete, put end to end, are an initial part of the
    enumeration (versions, then delete markers, page after page): nothing is
    deleted that was not listed, and nothing out of order or twice; every
    batch holds at least one and at most 1000 entries. *)
Theorem batches_are_cut_off_the_enumeration (bucket : string) (w : W) :
  let issued := calls (snd (run (empty_s3_bucket bucket) w)) in
  let keys :=
    keys_of (list_object_versions bucket (snd (get_bucket_versioning bucket w))) in
  (exists rest, keys = List.concat (batches issued) ++ rest)
  /\ Forall (fun batch => (1 <= List.length batch <= BATCH_SIZE)%nat) (batches issued).
Proof.
  intros issued keys. subst issued keys. unfold calls.
  destruct (empty_s3_bucket_summary bucket w)
    as (b & full & last & _ & Hb & Hfull & Hlast & (rest & Hrest & _) & _).
  split; [exists rest; exact Hrest|].
  rewrite Hb. apply Forall_app. split.
  - eapply Forall_impl; [|exact Hfull]. intros x Hx. cbv beta in Hx. rewrite Hx.
    pose proof BATCH_SIZE_pos. lia.
  - destruct Hlast as [-> | (x & -> & Hx & Hlen)]; [constructor|].
    constructor; [|constructor].
    split; [destruct x; [contradiction | simpl; lia] | lia].
Qed.

(** X11.  The emptier stops at the first call that fails: in every run, all
    calls but the last were answered, and without per-object errors; a bulk
    delete that reports per-object errors makes the emptier return
    [False]. *)
Theorem a_failed_call_ends_the_emptier (bucket : string) (w : W) :
  let r := fst (run (empty_s3_bucket bucket) w) in
  let issued := calls (snd (run (empty_s3_bucket bucket) w)) in
  forallb answered (removelast issued) = true
  /\ (existsb reports_errors issued = true -> r = Ok false).
Proof.
  intros r issued. subst r issued. unfold calls.
  destruct (empty_s3_bucket_summary bucket w)
    as (b & full & last & Hr & _ & _ & _ & _ & Hl & He & _).
  split; [exact Hl|]. intros Hx. rewrite Hr, (He Hx). reflexivity.
Qed.

(** X12.  The budget of 300 seconds does not apply to a bucket with fewer
    than 1000 entries: when every call is answered without error and the
    enumeration holds fewer than 1000 entries, the emptier returns [True],
    however long the calls take, and deletes the whole enumeration in one
    batch (or issues no bulk delete when the bucket is empty). *)
Theorem small_buckets_never_time_out (bucket : string) (w : W) :
  let r := fst (run (empty_s3_bucket bucket) w) in
  let issued := calls (snd (run (empty_s3_bucket bucket) w)) in
  let keys :=
    keys_of (list_object_versions bucket (snd (get_bucket_versioning bucket w))) in
  forallb answered issued = true ->
  (List.length keys < BATCH_SIZE)%nat ->
  r = Ok true /\ batches issued = (if nonempty keys then [keys] else []).
Proof.
  intros r issued keys. subst r issued. unfold calls. intros Hans Hsmall.
  destruct (empty_s3_bucket_summary bucket w)
    as (b & full & last & Hr & Hb & Hfull & Hlast & (rest & Hrest & Hdone) & _ & _ & Hcause).
  fold keys in Hrest.
  assert (Hshort : forall batch,
             In batch (batches (map snd (trace (snd (run (empty_s3_bucket bucket) w))))) ->
             (List.length batch < BATCH_SIZE)%nat).
  { intros batch Hin. apply in_split in Hin. destruct Hin as (l1 & l2 & Hin).
    rewrite Hin, concat_app, concat_cons in Hrest. rewrite Hrest in Hsmall.
    rewrite !length_app in Hsmall. lia. }
  assert (Hfull0 : full = []).
  { destruct full as [|x full]; [reflexivity|]. exfalso.
    inversion Hfull as [|? ? Hx _]; subst.
    assert (Hin : In x (batches (map snd (trace (snd (run (empty_s3_bucket bucket) w))))))
      by (rewrite Hb; left; reflexivity).
    specialize (Hshort x Hin). lia. }
  subst full. cbn [app] in Hb.
  assert (Hbt : b = true).
  { destruct b; [reflexivity|]. exfalso.
    destruct (Hcause eq_refl) as [Hc | Hc]; [rewrite Hans in Hc; discriminate|].
    destruct (late_full_batch_in_batches _ _ Hc) as (batch & Hin & Hlen).
    specialize (Hshort batch Hin). lia. }
  subst b. split; [exact Hr|].
  rewrite (Hdone eq_refl Hans), app_nil_r in Hrest. rewrite Hb in *.
  destruct Hlast as [-> | (x & -> & Hx & _)].
  - cbn [List.concat] in Hrest. rewrite Hrest. reflexivity.
  - cbn [List.concat] in Hrest. rewrite app_nil_r in Hrest. rewrite Hrest.
    destruct x; [contradiction | reflexivity].
Qed.

(** X13.  No [ClientError] of a storage call escapes the emptier.  A
    [False] has a cause on the record: a call that was refused or reported
    per-object errors, or a full batch whose deletion completed more than
    300 seconds after the start. *)
Theorem emptier_failure_has_a_cause (bucket : string) (w : W) :
  let r := fst (run (empty_s3_bucket bucket) w) in
  let outcome := snd (run (empty_s3_bucket bucket) w) in
  (forall code, r <> Raise (ClientError code))
  /\ (r = Ok false ->
      forallb answered (calls outcome) = false
      \/ existsb (late_full_batch (now w)) (trace outcome) = true).
Proof.
  intros r outcome. subst r outcome. unfold calls.
  destruct (empty_s3_bucket_summary bucket w)
    as (b & full & last & Hr & _ & _ & _ & _ & _ & _ & Hcause).
  split; [intros code Hx; rewrite Hr in Hx; discriminate Hx|].
  intros Hf. rewrite Hr in Hf. injection Hf as ->. exact (Hcause eq_refl).
Qed.

End Emptier_outcomes.

Lemma a_failed_call_ends_the_emptier_witness :
  fst (run (empty_s3_bucket
              (cloud := Timeline.cloud
                          (Accounts.stocked Accounts.pages_2500 0 0 ["AccessDenied"]))
              "site") 0%Z) = Ok false.
Proof.
  apply (a_failed_call_ends_the_emptier
           (cloud := Timeline.cloud
                       (Accounts.stocked Accounts.pages_2500 0 0 ["AccessDenied"]))
           "site" 0%Z).
  vm_compute. reflexivity.
Defined.

Lemma small_buckets_never_time_out_witness :
  let C := Timeline.cloud
             (Accounts.stocked [ {| Versions := Accounts.objects 0 42;
                                    DeleteMarkers := Accounts.objects 42 3 |} ]
                               400 500 []) in
  fst (run (empty_s3_bucket (cloud := C) "site") 0%Z) = Ok true
  /\ batches (calls (snd (run (empty_s3_bucket (cloud := C) "site") 0%Z)))
     = [Accounts.objects 0 42 ++ Accounts.objects 42 3].
Proof.
  intros C.
  apply (small_buckets_never_time_out (cloud := C) "site" 0%Z).
  - vm_compute. reflexivity.
  - vm_compute. repeat constructor.
Defined.

Lemma emptier_failure_has_a_cause_witness :
  let C := Timeline.cloud (Accounts.stocked Accounts.pages_1500 0 301 []) in
  forallb answered (calls (snd (run (empty_s3_bucket (cloud := C) "site") 0%Z))) = false
  \/ existsb (late_full_batch 0)
             (trace (snd (run (empty_s3_bucket (cloud := C) "site") 0%Z))) = true.
Proof.
  intros C.
  apply (emptier_failure_has_a_cause (cloud := C) "site" 0%Z).
  vm_compute. reflexivity.
Defined.

(** ** The bucket deleter *)

Section Deleter.

Context {W : Type} {cloud : Cloud W}.

(** X14.  When the deletion call of the bucket deleter is refused with a
    [ClientError], nothing else is called, and the answer is [True] only for
    [NoSuchBucket].  When it is accepted, the waiter is invoked next and the
    deleter returns what the waiter reports: [True] when the bucket is
    confirmed gone, [False] when the waiter gives up with a
    [WaiterError]. *)
Theorem bucket_deletion_waits_for_confirmation (bucket : string) (s : @st W) :
  (forall code w1,
      delete_bucket bucket (world s) = (inl code, w1) ->
      fst (delete_s3_bucket bucket s) = Ok (String.eqb code "NoSuchBucket")
      /\ calls (snd (delete_s3_bucket bucket s)) = calls s ++ [DeleteBucket bucket])
  /\ (forall u w1,
        delete_bucket bucket (world s) = (inr u, w1) ->
        fst (delete_s3_bucket bucket s) = Ok (fst (wait_bucket_not_exists bucket w1))
        /\ calls (snd (delete_s3_bucket bucket s))
           = calls s ++ [DeleteBucket bucket; WaitBucketNotExists bucket]).
Proof.
  unfold delete_s3_bucket, try_except, bind, invoke, bucket_not_exists_waiter.
  split; intros x w1 ->; cbn [fst snd].
  - destruct (String.eqb x "NoSuchBucket"); cbn [fst snd ret];
      rewrite calls_record; auto.
  - cbn [world record].
    destruct (wait_bucket_not_exists bucket w1) as [[|] w2]; cbn [fst snd ret];
      rewrite !calls_record, <- app_assoc; auto.
Qed.

End Deleter.

(** ** The orchestrator *)

Section Orchestrator_outcomes.

Context {W : Type} {cloud : Cloud W}.

(** The three stages of the teardown: each is entered only when the one
    before has returned [True], and a stage that does not return [True]
    ends the run. *)
Lemma teardown_cases bucket_name cf_info fuel (s2 s_end : @st W) r :
  teardown bucket_name cf_info fuel s2 = (r, s_end) ->
  (exists id etag r1,
      identified cf_info = Some (id, etag)
      /\ delete_cloudfront_distribution id etag fuel s2 = (r1, s_end)
      /\ r1 <> Ok true
      /\ r = match r1 with
             | Ok _ => Raise (SystemExit 1)
             | Raise e => Raise e
             | OutOfFuel => OutOfFuel
             end)
  \/ exists s3,
      match identified cf_info with
      | Some (id, etag) =>
          delete_cloudfront_distribution id etag fuel s2 = (Ok true, s3)
      | None => s3 = s2
      end
      /\ ((exists r2,
              empty_s3_bucket bucket_name s3 = (r2, s_end)
              /\ r2 <> Ok true
              /\ r = match r2 with
                     | Ok _ => Raise (SystemExit 1)
                     | Raise e => Raise e
                     | OutOfFuel => OutOfFuel
                     end)
          \/ exists s4 r3,
              empty_s3_bucket bucket_name s3 = (Ok true, s4)
              /\ delete_s3_bucket bucket_name s4 = (r3, s_end)
              /\ r = match r3 with
                     | Ok true => Ok tt
                     | Ok false => Raise (SystemExit 1)
                     | Raise e => Raise e
                     | OutOfFuel => OutOfFuel
                     end).
Proof.
  intros E. unfold teardown in E.
  assert (Hrest : forall s3,
    bind (bind (empty_s3_bucket bucket_name)
               (fun ok => if negb ok then sys_exit 1 else ret ok))
         (fun emptied : bool =>
            bind (if emptied then delete_s3_bucket bucket_name else ret false)
                 (fun deleted : bool =>
                    if true && emptied && deleted then ret tt else sys_exit 1)) s3
    = (r, s_end) ->
    (exists r2,
        empty_s3_bucket bucket_name s3 = (r2, s_end)
        /\ r2 <> Ok true
        /\ r = match r2 with
               | Ok _ => Raise (SystemExit 1)
               | Raise e => Raise e
               | OutOfFuel => OutOfFuel
               end)
    \/ exists s4 r3,
        empty_s3_bucket bucket_name s3 = (Ok true, s4)
        /\ delete_s3_bucket bucket_name s4 = (r3, s_end)
        /\ r = match r3 with
               | Ok true => Ok tt
               | Ok false => Raise (SystemExit 1)
               | Raise e => Raise e
               | OutOfFuel => OutOfFuel
               end).
  { intros s3 E'. rewrite bind_assoc in E'.
    destruct (empty_s3_bucket bucket_name s3) as [r2 s4] eqn:E2.
    destruct r2 as [[|]|e|].
    - rewrite (bind_ok _ _ _ _ _ E2) in E'. cbn [negb] in E'.
      erewrite bind_ok in E' by reflexivity.
      right. exists s4. destruct (delete_s3_bucket bucket_name s4) as [r3 s5] eqn:E3.
      exists r3. split; [reflexivity|].
      destruct r3 as [[|]|e|].
      + rewrite (bind_ok _ _ _ _ _ E3) in E'. injection E' as <- <-. auto.
      + rewrite (bind_ok _ _ _ _ _ E3) in E'. injection E' as <- <-. auto.
      + rewrite (bind_raise _ _ _ _ _ E3) in E'. injection E' as <- <-. auto.
      + rewrite (bind_out_of_fuel _ _ _ _ E3) in E'. injection E' as <- <-. auto.
    - rewrite (bind_ok _ _ _ _ _ E2) in E'. cbn [negb] in E'.
      erewrite bind_raise in E' by reflexivity. injection E' as <- <-.
      left. exists (Ok false). split; [reflexivity|]. split; [discriminate | reflexivity].
    - rewrite (bind_raise _ _ _ _ _ E2) in E'. injection E' as <- <-.
      left. exists (Raise e). split; [reflexivity|]. split; [discriminate | reflexivity].
    - rewrite (bind_out_of_fuel _ _ _ _ E2) in E'. injection E' as <- <-.
      left. exists OutOfFuel. split; [reflexivity|]. split; [discriminate | reflexivity]. }
  unfold identified. destruct cf_info as [[id etag]|];
    unfold option_map in E; cbv beta iota in E; cbn [fst snd] in E.
  - destruct (Py.truthy id && Py.truthy etag).
    + rewrite bind_assoc in E.
      destruct (delete_cloudfront_distribution id etag fuel s2) as [r1 s3] eqn:E1.
      destruct r1 as [[|]|e|].
      * rewrite (bind_ok _ _ _ _ _ E1) in E. cbn [negb] in E.
        erewrite bind_ok in E by reflexivity.
        right. exists s3. split; [reflexivity|]. apply Hrest. exact E.
      * rewrite (bind_ok _ _ _ _ _ E1) in E. cbn [negb] in E.
        erewrite bind_raise in E by reflexivity. injection E as <- <-.
        left. exists id, etag, (Ok false).
        split; [reflexivity|]. split; [exact E1|]. split; [discriminate | reflexivity].
      * rewrite (bind_raise _ _ _ _ _ E1) in E. injection E as <- <-.
        left. exists id, etag, (Raise e).
        split; [reflexivity|]. split; [exact E1|]. split; [discriminate | reflexivity].
      * rewrite (bind_out_of_fuel _ _ _ _ E1) in E. injection E as <- <-.
        left. exists id, etag, OutOfFuel.
        split; [reflexivity|]. split; [exact E1|]. split; [discriminate | reflexivity].
    + erewrite bind_ok in E by reflexivity.
      right. exists s2. split; [reflexivity|]. apply Hrest. exact E.
  - erewrite bind_ok in E by reflexivity.
    right. exists s2. split; [reflexivity|]. apply Hrest. exact E.
Qed.

End Orchestrator_outcomes.

Section Orchestrator_claims.

Context {W : Type} {cloud : Cloud W}.

(** The calls of the teardown, stage by stage. *)
Lemma teardown_stage_calls bucket_name cf_info fuel (s2 s_end : @st W) r :
  teardown bucket_name cf_info fuel s2 = (r, s_end) ->
  exists cdn emptying deleting,
    calls s_end = calls s2 ++ cdn ++ emptying ++ deleting
    /\ Forall (fun e => cdn_call e = true) cdn
    /\ Forall (fun e => emptier_call e = true) emptying
    /\ Forall (fun e => deleter_call e = true) deleting.
Proof.
  intros E.
  assert (Hcdn : forall id etag s r1 s',
             delete_cloudfront_distribution id etag fuel s = (r1, s') ->
             exists l, calls s' = calls s ++ l /\ Forall (fun e => cdn_call e = true) l).
  { intros id etag s r1 s' E1.
    eapply emits_calls; [|exact E1].
    apply delete_cloudfront_distribution_emits. auto. }
  assert (Hemp : forall s r2 s',
             empty_s3_bucket bucket_name s = (r2, s') ->
             exists l, calls s' = calls s ++ l /\ Forall (fun e => emptier_call e = true) l).
  { intros s r2 s' E2. eapply emits_calls; [|exact E2].
    apply empty_s3_bucket_emits. auto. }
  assert (Hdel : forall s r3 s',
             delete_s3_bucket bucket_name s = (r3, s') ->
             exists l, calls s' = calls s ++ l /\ Forall (fun e => deleter_call e = true) l).
  { intros s r3 s' E3. eapply emits_calls; [|exact E3].
    apply delete_s3_bucket_emits. auto. }
  destruct (teardown_cases _ _ _ _ _ _ E)
    as [(id & etag & r1 & _ & E1 & _) | (s3 & H1 & H23)].
  { destruct (Hcdn _ _ _ _ _ E1) as (l1 & Hl1 & Hq1).
    exists l1, [], []. rewrite !app_nil_r. auto. }
  assert (H1' : exists l1, calls s3 = calls s2 ++ l1
                           /\ Forall (fun e => cdn_call e = true) l1).
  { destruct (identified cf_info) as [[id etag]|].
    - exact (Hcdn _ _ _ _ _ H1).
    - subst s3. exists []. rewrite app_nil_r. auto. }
  destruct H1' as (l1 & Hl1 & Hq1).
  destruct H23 as [(r2 & E2 & _) | (s4 & r3 & E2 & E3 & _)].
  - destruct (Hemp _ _ _ E2) as (l2 & Hl2 & Hq2).
    exists l1, l2, []. rewrite app_nil_r, Hl2, Hl1, <- app_assoc. auto.
  - destruct (Hemp _ _ _ E2) as (l2 & Hl2 & Hq2).
    destruct (Hdel _ _ _ E3) as (l3 & Hl3 & Hq3).
    exists l1, l2, l3. rewrite Hl3, Hl2, Hl1, <- !app_assoc. auto.
Qed.

Lemma cdn_emptier_deleter_not_input (l : list event) :
  Forall (fun e => cdn_call e = true \/ emptier_call e = true \/ deleter_call e = true) l ->
  Forall (fun e => forall p a, e <> Input p a) l.
Proof.
  intros Hl. eapply Forall_impl; [|exact Hl].
  intros e [He | [He | He]] p a ->; discriminate He.
Qed.

(** The teardown asks nothing of the operator. *)
Lemma teardown_calls bucket_name cf_info fuel (s2 s_end : @st W) r :
  teardown bucket_name cf_info fuel s2 = (r, s_end) ->
  exists l, calls s_end = calls s2 ++ l
            /\ Forall (fun e => forall p a, e <> Input p a) l.
Proof.
  intros E. destruct (teardown_stage_calls _ _ _ _ _ _ E)
    as (l1 & l2 & l3 & Hl & H1 & H2 & H3).
  exists (l1 ++ l2 ++ l3). split; [exact Hl|].
  apply cdn_emptier_deleter_not_input.
  repeat (apply Forall_app; split);
    (eapply Forall_impl; [|eassumption]); cbv beta; auto.
Qed.

Lemma main_throws fuel : throws exit_or_closed_input (main (cloud := cloud) fuel).
Proof.
  assert (Hno : forall A (m : @M W A), throws no_exception m -> throws exit_or_closed_input m)
    by (intros A m; apply throws_weaken; intros ? []).
  assert (H1 : exit_or_closed_input (SystemExit 1)) by (right; left; reflexivity).
  assert (H0 : exit_or_closed_input (SystemExit 0)) by (left; reflexivity).
  assert (He : exit_or_closed_input EOFError) by (right; right; reflexivity).
  unfold main. apply throws_bind.
  { apply (throws_try_except _ is_client_error).
    - throws_auto.
    - intros [code| | |n] Hc; simpl in *; try contradiction.
      apply throws_sys_exit. exact H1. }
  intros _. apply throws_bind; [apply throws_input; exact He|]. intros line. cbv zeta.
  destruct (negb _); [apply throws_sys_exit; exact H1|].
  apply throws_bind; [apply Hno, get_s3_bucket_region_throws|]. intros found.
  apply throws_bind.
  { destruct found as [region|]; [destruct (Py.truthy region); [apply throws_ret|]|];
      (apply throws_bind; [apply throws_input; exact He|]); intros line0;
      (destruct (negb _); [apply throws_sys_exit; exact H1 | apply throws_ret]). }
  intros region.
  apply throws_bind; [apply Hno, find_cloudfront_for_s3_bucket_throws|]. intros cf_info.
  apply throws_bind; [apply Hno, confirm_deletion_throws|]. intros confirmed.
  destruct (negb confirmed); [apply throws_sys_exit; exact H0|].
  eapply throws_weaken; [|apply teardown_throws]. intros e ->. exact H1.
Qed.

Lemma lstrip_blank s : blank s = true -> Py.lstrip s = EmptyString.
Proof.
  induction s as [|c s IH]; [reflexivity|].
  rewrite blank_cons. intros H. apply Bool.andb_true_iff in H. destruct H as (Hc & Hs).
  simpl. rewrite Hc. apply IH. exact Hs.
Qed.

Lemma strip_blank s : blank s = true -> Py.truthy (Py.strip s) = false.
Proof. intros H. unfold Py.strip. rewrite (lstrip_blank _ H). reflexivity. Qed.

(** Reading a line: the stream is closed, or the line goes to what
    follows. *)
Lemma input_cases {A} prompt (f : string -> @M W A) (s : @st W) r s' :
  bind (input prompt) f s = (r, s') ->
  (r = Raise EOFError /\ calls s' = calls s ++ [Input prompt None])
  \/ exists line s1,
      calls s1 = calls s ++ [Input prompt (Some line)] /\ f line s1 = (r, s').
Proof.
  unfold bind at 1, input.
  destruct (read_line prompt (world s)) as [[line|] w1].
  - intros E. right. exists line. eexists. split; [apply calls_record | exact E].
  - intros E. injection E as <- <-. left. split; [reflexivity | apply calls_record].
Qed.

(** Every answer to the prompts for the bucket name and the region is
    usable, or the run ends at a blank one with exit status 1. *)
Lemma main_answers (fuel : nat) (w : W) :
  Forall usable_answer (calls (snd (run (main fuel) w)))
  \/ (fst (run (main fuel) w) = Raise (SystemExit 1)
      /\ exists before prompt line,
          calls (snd (run (main fuel) w)) = before ++ [Input prompt (Some line)]
          /\ Forall usable_answer before).
Proof.
  destruct (run (main fuel) w) as [r0 s_end] eqn:Erun. cbn [fst snd].
  unfold run, main in Erun.
  assert (H0 : Forall usable_answer (calls {| world := w; trace := [] |})) by constructor.
  assert (Hkeep : forall {A} (m : @M W A) s r s',
             emits usable_answer m -> Forall usable_answer (calls s) -> m s = (r, s') ->
             Forall usable_answer (calls s'))
    by (intros; eapply stage_keeps; eassumption).
  assert (Hask : forall {A} prompt (k : string -> @M W A) s r s',
    Forall usable_answer (calls s) ->
    bind (input prompt)
         (fun line => if negb (Py.truthy (Py.strip line)) then sys_exit 1
                      else k line) s = (r, s') ->
    Forall usable_answer (calls s')
    \/ (r = Raise (SystemExit 1)
        /\ exists before prompt line,
            calls s' = before ++ [Input prompt (Some line)]
            /\ Forall usable_answer before)
    \/ exists line s1,
        Forall usable_answer (calls s1) /\ k line s1 = (r, s')).
  { intros A prompt k s r s' Hs E.
    apply input_cases in E. destruct E as [(_ & Hc) | (line & s1 & Hc & E)].
    - left. rewrite Hc. apply Forall_app. split; [exact Hs|].
      constructor; [exact I | constructor].
    - cbv beta in E. destruct (Py.truthy (Py.strip line)) eqn:Ht; cbn [negb] in E.
      + right. right. exists line, s1. split; [|exact E].
        rewrite Hc. apply Forall_app. split; [exact Hs|].
        constructor; [|constructor]. right.
        destruct (blank line) eqn:Hb; [|reflexivity].
        rewrite (strip_blank _ Hb) in Ht. discriminate Ht.
      + injection E as <- <-. right. left. split; [reflexivity|].
        exists (calls s), prompt, line. auto. }
  (* client initialisation *)
  apply bind_inv in Erun.
  destruct Erun as [(u & s1 & E1 & Erun) | [(e & E1 & ->) | (E1 & ->)]];
    [ | left | left ];
    try (eapply Hkeep; [|exact H0|exact E1]; emits_auto; exact I).
  assert (H1 : Forall usable_answer (calls s1))
    by (eapply Hkeep; [|exact H0|exact E1]; emits_auto; exact I).
  (* bucket name *)
  cbv zeta in Erun.
  apply Hask in Erun; [|exact H1].
  destruct Erun as [Hs | [Hblank | (line & s2 & H2 & Erun)]];
    [left; exact Hs | right; exact Hblank | ].
  (* region *)
  apply bind_inv in Erun.
  destruct Erun as [(found_region & s3 & E3 & Erun) | [(e & E3 & ->) | (E3 & ->)]];
    [ | left | left ];
    try (eapply Hkeep; [|exact H2|exact E3];
         apply get_s3_bucket_region_emits; exact I).
  assert (H3 : Forall usable_answer (calls s3))
    by (eapply Hkeep; [|exact H2|exact E3];
        apply get_s3_bucket_region_emits; exact I).
  assert (Hrest : forall region s4,
    Forall usable_answer (calls s4) ->
    bind (find_cloudfront_for_s3_bucket (Py.strip line) region)
         (fun cf_info =>
            bind (confirm_deletion (Py.strip line) (option_map fst cf_info))
                 (fun confirmed => if negb confirmed then sys_exit 0
                                   else teardown (Py.strip line) cf_info fuel)) s4
    = (r0, s_end) ->
    Forall usable_answer (calls s_end)).
  { intros region s4 H4 E. eapply Hkeep; [|exact H4|exact E].
    apply emits_bind.
    - apply find_cloudfront_for_s3_bucket_emits.
      intros e He. destruct e; try discriminate He; exact I.
    - intros cf_info. apply emits_bind.
      + apply confirm_deletion_emits. intros [l|]; [left; reflexivity | exact I].
      + intros confirmed. destruct (negb confirmed); [apply emits_sys_exit|].
        apply teardown_emits; intros e He; destruct e; try discriminate He; exact I. }
  assert (Hregion : forall r4 s4,
    (match found_region with
     | Some region =>
         if Py.truthy region then ret region
         else bind (input (region_prompt (Py.strip line))) (fun line0 =>
                if negb (Py.truthy (Py.strip line0)) then sys_exit 1
                else ret (Py.strip line0))
     | None =>
         bind (input (region_prompt (Py.strip line))) (fun line0 =>
           if negb (Py.truthy (Py.strip line0)) then sys_exit 1
           else ret (Py.strip line0))
     end) s3 = (r4, s4) ->
    Forall usable_answer (calls s4)
    \/ (r4 = Raise (SystemExit 1)
        /\ exists before prompt line,
            calls s4 = before ++ [Input prompt (Some line)]
            /\ Forall usable_answer before)).
  { intros r4 s4 E4.
    destruct found_region as [region0|];
      [destruct (Py.truthy region0);
       [unfold ret in E4; injection E4 as <- <-; left; exact H3|]|];
      (apply Hask in E4; [|exact H3]);
      (destruct E4 as [Hs | [Hblank | (line0 & s5 & H5 & Ek)]];
       [ left; exact Hs | right; exact Hblank
       | unfold ret in Ek; injection Ek as <- <-; left; exact H5 ]). }
  apply bind_inv in Erun.
  destruct Erun as [(region & s4 & E4 & Erun) | [(e & E4 & ->) | (E4 & ->)]].
  - left. eapply Hrest; [|exact Erun].
    destruct (Hregion _ _ E4) as [Hs | (Hx & _)]; [exact Hs | discriminate Hx].
  - destruct (Hregion _ _ E4) as [Hs | Hblank]; [left; exact Hs | right].
    destruct Hblank as (Hx & Hrestx). injection Hx as ->. split; [reflexivity | exact Hrestx].
  - destruct (Hregion _ _ E4) as [Hs | (Hx & _)]; [left; exact Hs | discriminate Hx].
Qed.

Lemma existsb_none {A} (f : A -> bool) l :
  Forall (fun a => f a = false) l -> existsb f l = false.
Proof.
  induction 1 as [|a l Ha _ IH]; [reflexivity|]. simpl. rewrite Ha. exact IH.
Qed.

(** X15.  The gate is a barrier: a run of [main] that issues a mutating call
    has asked for the confirmation exactly once and has read an affirmative
    answer, and every mutating call comes after that answer. *)
Theorem mutation_needs_confirmation (fuel : nat) (w : W) :
  existsb mutating (calls (snd (run (main fuel) w))) = true ->
  exists before answer after,
    calls (snd (run (main fuel) w)) = before ++ Input confirm_prompt answer :: after
    /\ affirmative answer = true
    /\ Forall (fun e => mutating e = false) before
    /\ Forall (fun e => gate_call e = false) (before ++ after).
Proof.
  intros Hmut.
  assert (Hgate : forall l, Forall (fun e => before_gate e = true) l ->
                            Forall (fun e => gate_call e = false) l).
  { intros l Hl. eapply Forall_impl; [|exact Hl].
    intros e He. destruct e; try reflexivity. simpl in *.
    apply Bool.negb_true_iff in He. exact He. }
  destruct (main_run fuel w)
    as [(Hb & _) | (b & region & cf_info & s0 & s1 & s2 & answer & H4 & E5 & H5 & E6 & Hc & Ht)].
  { exfalso. rewrite existsb_none in Hmut; [discriminate|].
    apply before_gate_not_mutating, prelude_is_before_gate. exact Hb. }
  destruct (affirmative answer) eqn:Ha.
  - destruct (teardown_calls _ _ _ _ _ _ Ht) as (l & Hl & Hq).
    exists (calls s1), answer, l.
    split; [rewrite Hl, Hc, <- app_assoc; reflexivity|].
    split; [exact Ha|].
    split; [apply before_gate_not_mutating; exact H5|].
    apply Forall_app. split; [apply Hgate; exact H5|].
    eapply Forall_impl; [|exact Hq]. intros e He.
    destruct e; try reflexivity. exfalso. exact (He _ _ eq_refl).
  - exfalso. destruct Ht as (_ & Hend).
    rewrite Hend, Hc, existsb_none in Hmut; [discriminate|].
    apply Forall_app. split; [apply before_gate_not_mutating; exact H5|].
    repeat constructor.
Qed.


(** X17.  No [ClientError] and no [WaiterError] of a service call escapes
    [main], and when [main] exits, the status is 0 or 1.  Status 0 is raised
    only with no mutating call issued; the [EOFError] of a closed input
    stream escapes only before the locator has started. *)
Theorem service_errors_do_not_escape_main (fuel : nat) (w : W) (e : exn) :
  fst (run (main fuel) w) = Raise e ->
  ((forall code, e <> ClientError code)
   /\ e <> WaiterError
   /\ (forall status, e = SystemExit status -> status = 0%Z \/ status = 1%Z))
  /\ (e = SystemExit 0 ->
      Forall (fun c => mutating c = false) (calls (snd (run (main fuel) w))))
  /\ (e = EOFError ->
      Forall (fun c => prelude_call c = true) (calls (snd (run (main fuel) w)))).
Proof.
  intros Hr. split.
  { unfold run in Hr.
    destruct (main fuel {| world := w; trace := [] |}) as [r s'] eqn:E.
    cbn [fst] in Hr. subst r.
    destruct (main_throws fuel _ _ _ E) as [-> | [-> | ->]];
      (split; [discriminate|]; split; [discriminate|]);
      intros status Hs; try discriminate Hs; injection Hs as <-; auto. }
  destruct (main_run fuel w)
    as [(Hb & _) | (b & region & cf_info & s0 & s1 & s2 & answer & H4 & E5 & H5 & E6 & Hc & Ht)].
  { split; intros _; [|exact Hb].
    apply before_gate_not_mutating, prelude_is_before_gate. exact Hb. }
  destruct (affirmative answer).
  - rewrite Hr in Ht. pose proof (teardown_throws _ _ _ _ _ _ Ht) as He.
    cbv beta in He. subst e. split; discriminate.
  - destruct Ht as (Hx & ->). rewrite Hr in Hx. injection Hx as ->.
    split; [intros _ | discriminate].
    rewrite Hc. apply Forall_app. split; [apply before_gate_not_mutating; exact H5|].
    repeat constructor.
Qed.

(** X18.  A blank answer (empty or white space only) to the prompt for the
    bucket name or for the region ends the run at once with exit status 1:
    that answer is the last call, and the run has called neither the
    locator nor any stage of the teardown. *)
Theorem blank_answer_exits_early (fuel : nat) (w : W) (prompt line : string) :
  In (Input prompt (Some line)) (calls (snd (run (main fuel) w))) ->
  prompt <> confirm_prompt ->
  blank line = true ->
  fst (run (main fuel) w) = Raise (SystemExit 1)
  /\ (exists before,
        calls (snd (run (main fuel) w)) = before ++ [Input prompt (Some line)])
  /\ Forall (fun e => prelude_call e = true) (calls (snd (run (main fuel) w))).
Proof.
  intros Hin Hp Hb.
  assert (Hbad : ~ usable_answer (Input prompt (Some line))).
  { intros [Hx | Hx]; [contradiction | rewrite Hb in Hx; discriminate]. }
  destruct (main_answers fuel w) as [Hu | (Hr & before & p & l & Hc & Hu)].
  { exfalso. rewrite Forall_forall in Hu. exact (Hbad (Hu _ Hin)). }
  assert (Hlast : Input p (Some l) = Input prompt (Some line)).
  { rewrite Hc in Hin. apply in_app_or in Hin. destruct Hin as [Hin | [Hin | []]].
    - exfalso. rewrite Forall_forall in Hu. exact (Hbad (Hu _ Hin)).
    - exact Hin. }
  rewrite Hlast in Hc. clear Hlast p l.
  split; [exact Hr|]. split; [exists before; exact Hc|].
  destruct (main_run fuel w)
    as [(Hpre & _) | (b & region & cf_info & s0 & s1 & s2 & answer & H4 & E5 & H5 & E6 & Hc2 & Ht)].
  { exact Hpre. }
  exfalso. destruct (affirmative answer).
  - destruct (teardown_calls _ _ _ _ _ _ Ht) as (l & Hl & Hq).
    rewrite Hl, Hc2 in Hc.
    destruct (exists_last (l := Input confirm_prompt answer :: l)) as (l' & y & Hy);
      [discriminate|].
    rewrite <- app_assoc in Hc. cbn [app] in Hc. rewrite Hy, app_assoc in Hc.
    apply app_inj_tail in Hc. destruct Hc as (_ & Hx).
    assert (Hyin : In y (Input confirm_prompt answer :: l))
      by (rewrite Hy; apply in_or_app; right; left; reflexivity).
    destruct Hyin as [Hyin | Hyin].
    + rewrite <- Hyin in Hx. injection Hx as Hx _. symmetry in Hx. contradiction.
    + rewrite Forall_forall in Hq. exact (Hq _ Hyin _ _ Hx).
  - destruct Ht as (Hx & _). rewrite Hr in Hx. discriminate Hx.
Qed.

(** X19.  The stages of a run of [main] never interleave: its calls are the
    calls made before the gate, then at most one confirmation prompt, then
    the calls of the CDN teardown, then those of the emptier, then those of
    the bucket deleter; without a confirmation prompt nothing follows. *)
Theorem stages_run_in_order (fuel : nat) (w : W) :
  exists before gate cdn emptying deleting,
    calls (snd (run (main fuel) w)) = before ++ gate ++ cdn ++ emptying ++ deleting
    /\ Forall (fun e => before_gate e = true) before
    /\ ((gate = [] /\ cdn ++ emptying ++ deleting = [])
        \/ exists answer, gate = [Input confirm_prompt answer])
    /\ Forall (fun e => cdn_call e = true) cdn
    /\ Forall (fun e => emptier_call e = true) emptying
    /\ Forall (fun e => deleter_call e = true) deleting.
Proof.
  destruct (main_run fuel w)
    as [(Hb & _) | (b & region & cf_info & s0 & s1 & s2 & answer & H4 & E5 & H5 & E6 & Hc & Ht)].
  { exists (calls (snd (run (main fuel) w))), [], [], [], [].
    rewrite !app_nil_r. split; [reflexivity|].
    split; [apply prelude_is_before_gate; exact Hb|]. auto 10. }
  destruct (affirmative answer).
  - destruct (teardown_stage_calls _ _ _ _ _ _ Ht) as (l1 & l2 & l3 & Hl & H1 & H2 & H3).
    exists (calls s1), [Input confirm_prompt answer], l1, l2, l3.
    split; [rewrite Hl, Hc, <- app_assoc; reflexivity|].
    split; [exact H5|]. split; [right; exists answer; reflexivity|]. auto.
  - destruct Ht as (_ & ->).
    exists (calls s1), [Input confirm_prompt answer], [], [], [].
    split; [rewrite Hc; reflexivity|].
    split; [exact H5|]. split; [right; exists answer; reflexivity|]. auto.
Qed.

End Orchestrator_claims.

Lemma mutation_needs_confirmation_witness :
  let C := Timeline.cloud Scenes.crowded in
  exists before answer after,
    calls (snd (run (main (cloud := C) 62) 0%Z))
    = before ++ Input confirm_prompt answer :: after
    /\ affirmative answer = true
    /\ Forall (fun e => mutating e = false) before
    /\ Forall (fun e => gate_call e = false) (before ++ after).
Proof.
  intros C. apply (mutation_needs_confirmation (cloud := C) 62 0%Z).
  vm_compute. reflexivity.
Defined.


Lemma service_errors_do_not_escape_main_witness :
  let C := Timeline.cloud (Accounts.answering (Some "no") Scenes.crowded) in
  Forall (fun c => mutating c = false) (calls (snd (run (main (cloud := C) 62) 0%Z))).
Proof.
  intros C.
  destruct (service_errors_do_not_escape_main (cloud := C) 62 0%Z (SystemExit 0))
    as (_ & H2 & _).
  - vm_compute. reflexivity.
  - exact (H2 eq_refl).
Defined.

Lemma blank_answer_exits_early_witness :
  let C := Timeline.cloud (Scenes.hearing (fun _ => Some "   ") Scenes.lingering) in
  fst (run (main (cloud := C) 0) 0%Z) = Raise (SystemExit 1)
  /\ calls (snd (run (main (cloud := C) 0) 0%Z))
     = [ClientInit "s3"; ClientInit "cloudfront"; Input bucket_prompt (Some "   ")].
Proof.
  intros C.
  destruct (blank_answer_exits_early (cloud := C) 0 0%Z bucket_prompt "   ")
    as (Hr & _ & _).
  - vm_compute. repeat (first [left; reflexivity | right]).
  - discriminate.
  - reflexivity.
  - split; [exact Hr | vm_compute; reflexivity].
Defined.

(** ** Pace of the polling *)

Section Pace.

Context {W : Type} {cloud : Cloud W}.

Lemma spaced_rounds id statuses rest :
  spaced (flat_map (round id) statuses ++ rest) = spaced rest.
Proof.
  induction statuses as [|status statuses IH]; [reflexivity|].
  cbn [flat_map round app]. cbn [spaced]. rewrite IH.
  unfold POLLING_INTERVAL_SECONDS. reflexivity.
Qed.

Lemma spaced_last id (last : list event) :
  last = [] \/ (exists status, last = [GetDistribution id status]) ->
  spaced last = true.
Proof. intros [-> | (status & ->)]; reflexivity. Qed.

(** One round of the wait for the deletion, case by case. *)
Lemma poll_deleted_cases id start (s : @st W) :
  (exists code w,
      get_distribution id (world s) = (inl code, w)
      /\ poll_deleted id start s
         = (Ok (Return (inr (String.eqb code "NoSuchDistribution"))),
            record w (GetDistribution id None) s))
  \/ (exists d w,
        get_distribution id (world s) = (inr d, w)
        /\ (now w - start > CLOUDFRONT_TIMEOUT_SECONDS)%Z
        /\ poll_deleted id start s
           = (Ok (Return (inr false)),
              record w (GetDistribution id (Some (Status d))) s))
  \/ (exists d w,
        get_distribution id (world s) = (inr d, w)
        /\ (now w - start <= CLOUDFRONT_TIMEOUT_SECONDS)%Z
        /\ poll_deleted id start s
           = (Ok (Continue tt),
              record (sleep POLLING_INTERVAL_SECONDS w) (Sleep POLLING_INTERVAL_SECONDS)
                     (record w (GetDistribution id (Some (Status d))) s))).
Proof.
  unfold poll_deleted.
  destruct (invoke_cases (get_distribution id)
              (fun r => GetDistribution id (status_of r)) s)
    as [(d & w & Ew & E) | (code & w & Ew & E)].
  - right.
    match goal with |- context [try_except ?m _ s] =>
      assert (Hin : m s =
        (if (now w - start >? CLOUDFRONT_TIMEOUT_SECONDS)%Z
         then ret (Return (inr false))
         else bind (time_sleep POLLING_INTERVAL_SECONDS)
                   (fun _ => ret (Continue tt)))
          (record w (GetDistribution id (Some (Status d))) s))
        by (erewrite bind_ok by exact E; erewrite bind_ok by reflexivity;
            reflexivity) end.
    destruct (now w - start >? CLOUDFRONT_TIMEOUT_SECONDS)%Z eqn:Ht.
    + left. exists d, w. repeat split; auto; [lia|].
      apply try_except_ok. exact Hin.
    + right. exists d, w. repeat split; auto; [lia|].
      apply try_except_ok. exact Hin.
  - left. exists code, w. split; [exact Ew|].
    erewrite try_except_caught;
      [ | erewrite bind_raise by exact E; reflexivity | reflexivity ].
    destruct (String.eqb code "NoSuchDistribution"); reflexivity.
Qed.

(** The calls of the disable wait: rounds of a poll and a sleep, and at
    most one more poll. *)
Lemma wait_disabled_rounds id start fuel (s : @st W) :
  exists statuses last,
    calls (snd (while_true fuel (poll_disabled id start) s))
    = calls s ++ flat_map (round id) statuses ++ last
    /\ (last = [] \/ exists status, last = [GetDistribution id status]).
Proof.
  revert s. induction fuel as [|fuel IH]; intros s.
  - exists [], []. simpl. rewrite app_nil_r. auto.
  - simpl while_true.
    destruct (poll_disabled_cases id start s)
      as [(code & w & _ & E) | [(d & w & _ & Hd & E) | [(d & w & _ & Hd & Ht & E)
         | (d & w & _ & Hd & Ht & E)]]];
      rewrite (bind_ok _ _ _ _ _ E).
    + exists [], [GetDistribution id None]. simpl. rewrite calls_record. eauto.
    + exists [], [GetDistribution id (Some "Deployed")]. simpl. rewrite calls_record. eauto.
    + exists [], [GetDistribution id (Some (Status d))]. simpl. rewrite calls_record. eauto.
    + match goal with |- context [while_true fuel _ ?s0] =>
        destruct (IH s0) as (statuses & last & Hc & Hlast) end.
      exists (Status d :: statuses), last. split; [|exact Hlast].
      rewrite Hc, !calls_record, <- !app_assoc. reflexivity.
Qed.

Lemma wait_deleted_rounds id start fuel (s : @st W) :
  exists statuses last,
    calls (snd (while_true fuel (poll_deleted id start) s))
    = calls s ++ flat_map (round id) statuses ++ last
    /\ (last = [] \/ exists status, last = [GetDistribution id status]).
Proof.
  revert s. induction fuel as [|fuel IH]; intros s.
  - exists [], []. simpl. rewrite app_nil_r. auto.
  - simpl while_true.
    destruct (poll_deleted_cases id start s)
      as [(code & w & _ & E) | [(d & w & _ & Ht & E) | (d & w & _ & Ht & E)]];
      rewrite (bind_ok _ _ _ _ _ E).
    + exists [], [GetDistribution id None]. simpl. rewrite calls_record. eauto.
    + exists [], [GetDistribution id (Some (Status d))]. simpl. rewrite calls_record. eauto.
    + match goal with |- context [while_true fuel _ ?s0] =>
        destruct (IH s0) as (statuses & last & Hc & Hlast) end.
      exists (Status d :: statuses), last. split; [|exact Hlast].
      rewrite Hc, !calls_record, <- !app_assoc. reflexivity.
Qed.

(** The delete step: the delete call, then the rounds of its wait. *)
Lemma delete_and_wait_spaced id latest_etag fuel (s : @st W) :
  exists tail,
    calls (snd (delete_and_wait id latest_etag fuel s))
    = calls s ++ DeleteDistribution id latest_etag :: tail
    /\ spaced tail = true.
Proof.
  unfold delete_and_wait.
  destruct (invoke_cases (delete_distribution id latest_etag)
              (fun _ => DeleteDistribution id latest_etag) s)
    as [(a & w & Ew & E) | (code & w & Ew & E)].
  - rewrite !(bind_ok _ _ _ _ _ E).
    rewrite !(bind_ok _ _ _ _ _ (eq_refl : time_time _ = (Ok _, _))).
    rewrite !bind_state by (intros [[]|b] s1; reflexivity).
    match goal with |- context [while_true fuel (poll_deleted id ?t0) ?s0] =>
      destruct (wait_deleted_rounds id t0 fuel s0) as (statuses & last & Hc & Hlast) end.
    rewrite Hc, calls_record, <- app_assoc. eexists. split; [reflexivity|].
    rewrite spaced_rounds. apply (spaced_last id). exact Hlast.
  - rewrite !(bind_raise _ _ _ _ _ E). simpl. rewrite calls_record.
    exists []. auto.
Qed.

(** X20.  The CDN teardown never polls the status of the distribution twice
    in a row: between two status polls it sleeps, or issues the delete call;
    and every sleep lasts the polling interval of 10 seconds. *)
Theorem status_polls_are_spaced (id etag : string) (fuel : nat) (w : W) :
  spaced (calls (snd (run (delete_cloudfront_distribution id etag fuel) w))) = true.
Proof.
  unfold run. rewrite delete_cloudfront_distribution_absorbs. cbn [snd].
  unfold disable_then_delete.
  destruct (invoke_cases (get_distribution_config id)
              (fun r => GetDistributionConfig id (etag_of r)) {| world := w; trace := [] |})
    as [(c & w1 & _ & E) | (code & w1 & _ & E)].
  2:{ rewrite (bind_raise _ _ _ _ _ E). reflexivity. }
  rewrite (bind_ok _ _ _ _ _ E). unfold disable_and_wait.
  destruct (Enabled (Config c)); simpl negb; cbv iota.
  2:{ erewrite bind_ok by reflexivity. cbv iota.
      match goal with |- context [delete_and_wait id ?t fuel ?s0] =>
        destruct (delete_and_wait_spaced id t fuel s0) as (tail & Hc & Hs) end.
      rewrite Hc, calls_record. exact Hs. }
  set (s1 := record w1 (GetDistributionConfig id (etag_of (inr c)))
                  {| world := w; trace := [] |}) in *.
  rewrite bind_assoc.
  destruct (invoke_cases
              (update_distribution (disable (Config c)) id (ETag c))
              (fun r => UpdateDistribution id (disable (Config c)) (ETag c) (new_etag_of r))
              s1) as [(t' & w2 & _ & E2) | (code & w2 & _ & E2)].
  2:{ rewrite (bind_raise _ _ _ _ _ E2). cbn [snd]. subst s1.
      rewrite !calls_record. reflexivity. }
  rewrite (bind_ok _ _ _ _ _ E2). rewrite bind_assoc.
  erewrite bind_ok by reflexivity. rewrite bind_assoc.
  match goal with |- context [bind (while_true fuel (poll_disabled id ?t0)) _ ?s0] =>
    destruct (wait_disabled_rounds id t0 fuel s0) as (statuses & last & Hc & Hlast);
    destruct (while_true fuel (poll_disabled id t0) s0) as [r s'] eqn:El end.
  cbn [snd] in Hc. subst s1. rewrite !calls_record in Hc. cbn [calls trace map app] in Hc.
  assert (Hwait : spaced (calls s') = true).
  { rewrite Hc. cbn [spaced]. rewrite spaced_rounds. apply (spaced_last id). exact Hlast. }
  destruct r as [[[] | b] | e | ].
  - rewrite (bind_ok _ _ _ _ _ El). erewrite bind_ok by reflexivity. cbv iota.
    destruct (delete_and_wait_spaced id t' fuel s') as (tail & Hd & Hs).
    rewrite Hd, Hc. cbn [app spaced]. rewrite <- !app_assoc, spaced_rounds.
    destruct Hlast as [-> | (status & ->)]; cbn [app spaced]; exact Hs.
  - rewrite (bind_ok _ _ _ _ _ El). erewrite bind_ok by reflexivity. exact Hwait.
  - rewrite (bind_raise _ _ _ _ _ El). exact Hwait.
  - rewrite (bind_out_of_fuel _ _ _ _ El). exact Hwait.
Qed.

End Pace.

(** ** From the locator to the teardown *)

Section Located.

Context {W : Type} {cloud : Cloud W}.







End Located.



(** A whole run on the crowded account: the distribution [E1] is disabled
    and deleted, the 1500 entries go in two batches, and the bucket is
    deleted. *)
Example crowded_teardown :
  let outcome := Timeline.play Scenes.crowded (fun W cloud => main 62) in
  fst outcome = Ok tt
  /\ filter mutating (map snd (snd outcome))
     = [ UpdateDistribution "E1" (Accounts.site_config false) "T1" (Some "T2");
         DeleteDistribution "E1" "T2";
         DeleteObjects "site" (Accounts.objects 0 1000) (Some []);
         DeleteObjects "site" (Accounts.objects 1000 500) (Some []);
         DeleteBucket "site" ].
Proof. vm_compute. split; reflexivity. Qed.

(** ** Budget of the waits *)

Section Budget.

Context {W : Type} {cloud : Cloud W}.

Lemma trace_record w e (s : @st W) : trace (record w e s) = trace s ++ [(now w, e)].
Proof. reflexivity. Qed.

Lemma within_budget_rounds id start rounds rest :
  Forall (fun r => (fst (fst r) - start <= CLOUDFRONT_TIMEOUT_SECONDS)%Z) rounds ->
  within_budget (Some start) (flat_map (stamped_round id) rounds ++ rest)
  = within_budget (Some start) rest.
Proof.
  induction 1 as [|r rounds Hr _ IH]; [reflexivity|].
  cbn [flat_map stamped_round app]. cbn [within_budget]. rewrite IH.
  apply Z.leb_le in Hr. rewrite Hr. reflexivity.
Qed.

Lemma within_budget_last id started (last : list (Z * event)) :
  last = [] \/ (exists t status, last = [(t, GetDistribution id status)]) ->
  within_budget started last = true.
Proof. intros [-> | (t & status & ->)]; reflexivity. Qed.

(** The disable wait with its times: every round goes on within the
    budget. *)
Lemma wait_disabled_stamped id start fuel (s : @st W) :
  exists rounds last,
    trace (snd (while_true fuel (poll_disabled id start) s))
    = trace s ++ flat_map (stamped_round id) rounds ++ last
    /\ Forall (fun r => (fst (fst r) - start <= CLOUDFRONT_TIMEOUT_SECONDS)%Z) rounds
    /\ (last = [] \/ exists t status, last = [(t, GetDistribution id status)]).
Proof.
  revert s. induction fuel as [|fuel IH]; intros s.
  - exists [], []. simpl. rewrite app_nil_r. auto.
  - simpl while_true.
    destruct (poll_disabled_cases id start s)
      as [(code & w & _ & E) | [(d & w & _ & Hd & E) | [(d & w & _ & Hd & Ht & E)
         | (d & w & _ & Hd & Ht & E)]]];
      rewrite (bind_ok _ _ _ _ _ E).
    + exists [], [(now w, GetDistribution id None)]. simpl.
      split; [reflexivity|]. split; [constructor|]. right. eauto.
    + exists [], [(now w, GetDistribution id (Some "Deployed"))]. simpl.
      split; [reflexivity|]. split; [constructor|]. right. eauto.
    + exists [], [(now w, GetDistribution id (Some (Status d)))]. simpl.
      split; [reflexivity|]. split; [constructor|]. right. eauto.
    + match goal with |- context [while_true fuel _ ?s0] =>
        destruct (IH s0) as (rounds & last & Hc & Hr & Hlast) end.
      exists ((now w, Status d, now (sleep POLLING_INTERVAL_SECONDS w)) :: rounds), last.
      split; [|split; [constructor; [exact Ht | exact Hr] | exact Hlast]].
      rewrite Hc, !trace_record, <- !app_assoc. reflexivity.
Qed.

Lemma wait_deleted_stamped id start fuel (s : @st W) :
  exists rounds last,
    trace (snd (while_true fuel (poll_deleted id start) s))
    = trace s ++ flat_map (stamped_round id) rounds ++ last
    /\ Forall (fun r => (fst (fst r) - start <= CLOUDFRONT_TIMEOUT_SECONDS)%Z) rounds
    /\ (last = [] \/ exists t status, last = [(t, GetDistribution id status)]).
Proof.
  revert s. induction fuel as [|fuel IH]; intros s.
  - exists [], []. simpl. rewrite app_nil_r. auto.
  - simpl while_true.
    destruct (poll_deleted_cases id start s)
      as [(code & w & _ & E) | [(d & w & _ & Ht & E) | (d & w & _ & Ht & E)]];
      rewrite (bind_ok _ _ _ _ _ E).
    + exists [], [(now w, GetDistribution id None)]. simpl.
      split; [reflexivity|]. split; [constructor|]. right. eauto.
    + exists [], [(now w, GetDistribution id (Some (Status d)))]. simpl.
      split; [reflexivity|]. split; [constructor|]. right. eauto.
    + match goal with |- context [while_true fuel _ ?s0] =>
        destruct (IH s0) as (rounds & last & Hc & Hr & Hlast) end.
      exists ((now w, Status d, now (sleep POLLING_INTERVAL_SECONDS w)) :: rounds), last.
      split; [|split; [constructor; [exact Ht | exact Hr] | exact Hlast]].
      rewrite Hc, !trace_record, <- !app_assoc. reflexivity.
Qed.

(** The delete step with its times. *)
Lemma delete_and_wait_within_budget id latest_etag fuel (s : @st W) :
  exists t tail,
    trace (snd (delete_and_wait id latest_etag fuel s))
    = trace s ++ (t, DeleteDistribution id latest_etag) :: tail
    /\ within_budget (Some t) tail = true.
Proof.
  unfold delete_and_wait.
  destruct (invoke_cases (delete_distribution id latest_etag)
              (fun _ => DeleteDistribution id latest_etag) s)
    as [(a & w & Ew & E) | (code & w & Ew & E)].
  - rewrite !(bind_ok _ _ _ _ _ E).
    rewrite !(bind_ok _ _ _ _ _ (eq_refl : time_time _ = (Ok _, _))).
    rewrite !bind_state by (intros [[]|b] s1; reflexivity).
    rewrite world_record.
    destruct (wait_deleted_stamped id (now w) fuel
                (record w (DeleteDistribution id latest_etag) s))
      as (rounds & last & Hc & Hr & Hlast).
    rewrite Hc, trace_record, <- app_assoc. eexists _, _. split; [reflexivity|].
    rewrite (within_budget_rounds _ _ _ _ Hr).
    apply (within_budget_last id). exact Hlast.
  - rewrite !(bind_raise _ _ _ _ _ E). simpl.
    exists (now w), []. split; reflexivity.
Qed.

(** X23.  A wait of the CDN teardown never goes on past its budget: a status
    poll is followed by a sleep only when it completed within 600 seconds
    of the completion of the call that started the wait (the update call for
    the disable wait, the delete call for the deletion wait). *)
Theorem waits_stay_within_budget (id etag : string) (fuel : nat) (w : W) :
  within_budget None
    (trace (snd (run (delete_cloudfront_distribution id etag fuel) w))) = true.
Proof.
  unfold run. rewrite delete_cloudfront_distribution_absorbs. cbn [snd].
  unfold disable_then_delete.
  destruct (invoke_cases (get_distribution_config id)
              (fun r => GetDistributionConfig id (etag_of r)) {| world := w; trace := [] |})
    as [(c & w1 & _ & E) | (code & w1 & _ & E)].
  2:{ rewrite (bind_raise _ _ _ _ _ E). reflexivity. }
  rewrite (bind_ok _ _ _ _ _ E). unfold disable_and_wait.
  destruct (Enabled (Config c)); simpl negb; cbv iota.
  2:{ erewrite bind_ok by reflexivity. cbv iota.
      match goal with |- context [delete_and_wait id ?t fuel ?s0] =>
        destruct (delete_and_wait_within_budget id t fuel s0) as (t0 & tail & Hc & Hs) end.
      rewrite Hc, trace_record. exact Hs. }
  set (s1 := record w1 (GetDistributionConfig id (etag_of (inr c)))
                  {| world := w; trace := [] |}) in *.
  rewrite bind_assoc.
  destruct (invoke_cases
              (update_distribution (disable (Config c)) id (ETag c))
              (fun r => UpdateDistribution id (disable (Config c)) (ETag c) (new_etag_of r))
              s1) as [(t' & w2 & _ & E2) | (code & w2 & _ & E2)].
  2:{ rewrite (bind_raise _ _ _ _ _ E2). cbn [snd]. subst s1.
      rewrite !trace_record. reflexivity. }
  rewrite (bind_ok _ _ _ _ _ E2). rewrite bind_assoc.
  erewrite bind_ok by reflexivity. rewrite bind_assoc. rewrite world_record.
  set (s2 := record w2 (UpdateDistribution id (disable (Config c)) (ETag c)
                                            (new_etag_of (inr t'))) s1) in *.
  destruct (wait_disabled_stamped id (now w2) fuel s2) as (rounds & last & Hc & Hr & Hlast).
  destruct (while_true fuel (poll_disabled id (now w2)) s2) as [r s'] eqn:El.
  cbn [snd] in Hc.
  assert (Htr : trace s2 = [(now w1, GetDistributionConfig id (Some (ETag c)));
                            (now w2, UpdateDistribution id (disable (Config c)) (ETag c)
                                                        (Some t'))])
    by reflexivity.
  rewrite Htr in Hc.
  assert (Hwait : within_budget None (trace s') = true).
  { rewrite Hc. cbn [app within_budget]. rewrite (within_budget_rounds _ _ _ _ Hr).
    apply (within_budget_last id). exact Hlast. }
  destruct r as [[[] | b] | e | ].
  - rewrite (bind_ok _ _ _ _ _ El). erewrite bind_ok by reflexivity. cbv iota.
    destruct (delete_and_wait_within_budget id t' fuel s') as (t0 & tail & Hd & Hs).
    rewrite Hd, Hc. cbn [app within_budget]. rewrite <- !app_assoc.
    rewrite (within_budget_rounds _ _ _ _ Hr).
    destruct Hlast as [-> | (t & status & ->)]; cbn [app within_budget]; exact Hs.
  - rewrite (bind_ok _ _ _ _ _ El). erewrite bind_ok by reflexivity. exact Hwait.
  - rewrite (bind_raise _ _ _ _ _ El). exact Hwait.
  - rewrite (bind_out_of_fuel _ _ _ _ El). exact Hwait.
Qed.

End Budget.

(** ** The bucket of the storage calls *)

Section Named.

Context {W : Type} {cloud : Cloud W}.

Lemma delete_full_batches_on (P : event -> Prop) rounds bucket_name start objs :
  (forall batch errors, P (DeleteObjects bucket_name batch errors)) ->
  emits P (delete_full_batches rounds bucket_name start objs).
Proof.
  intros HP. revert objs. induction rounds as [|rounds IH]; intros objs;
    rewrite delete_full_batches_unfold;
    destruct (BATCH_SIZE <=? List.length objs)%nat; emits_auto.
Qed.

Lemma empty_s3_bucket_on (P : event -> Prop) bucket_name :
  (forall e, bucket_of e = Some bucket_name -> P e) ->
  emits P (empty_s3_bucket bucket_name).
Proof.
  intros HP. unfold empty_s3_bucket, collect_page.
  repeat first [ apply delete_full_batches_on; intros; apply HP; reflexivity
               | emits_step ];
    auto; try (apply HP; reflexivity).
Qed.

Lemma delete_s3_bucket_on (P : event -> Prop) bucket_name :
  (forall e, bucket_of e = Some bucket_name -> P e) ->
  emits P (delete_s3_bucket bucket_name).
Proof.
  intros HP. unfold delete_s3_bucket.
  apply emits_try_except.
  - emits_auto; try (apply HP; reflexivity).
    apply bucket_not_exists_waiter_emits. apply HP; reflexivity.
  - intros e h Hh. destruct e; inversion Hh; subst; emits_auto.
Qed.

(** After the prompt for the bucket name, every storage call is made on the
    name passed on. *)
Lemma named_bucket_emits (bucket_name : string) (fuel : nat) :
  let P := fun e => forall b, bucket_of e = Some b -> b = bucket_name in
  emits P
    (found_region <- get_s3_bucket_region bucket_name ;;
     region <- (match found_region with
                | Some region =>
                    if Py.truthy region then ret region
                    else
                      line <- input (region_prompt bucket_name) ;;
                      let region := Py.strip line in
                      if negb (Py.truthy region) then sys_exit 1 else ret region
                | None =>
                    line <- input (region_prompt bucket_name) ;;
                    let region := Py.strip line in
                    if negb (Py.truthy region) then sys_exit 1 else ret region
                end) ;;
     cf_info <- find_cloudfront_for_s3_bucket bucket_name region ;;
     let distribution_id := option_map fst cf_info in
     confirmed <- confirm_deletion bucket_name distribution_id ;;
     if negb confirmed then sys_exit 0 else
     teardown bucket_name cf_info fuel).
Proof.
  intros P.
  assert (Hsame : forall e, bucket_of e = Some bucket_name -> P e)
    by (intros e He b Hb; congruence).
  assert (Hnone : forall e, bucket_of e = None -> P e)
    by (intros e He b Hb; congruence).
  unfold teardown. cbv zeta.
  repeat first
    [ apply get_s3_bucket_region_emits; apply Hsame; reflexivity
    | apply find_cloudfront_for_s3_bucket_emits;
      intros e He; apply Hnone; destruct e; try discriminate He; reflexivity
    | apply confirm_deletion_emits; intros; apply Hnone; reflexivity
    | apply delete_cloudfront_distribution_emits;
      intros e He; apply Hnone; destruct e; try discriminate He; reflexivity
    | apply empty_s3_bucket_on; exact Hsame
    | apply delete_s3_bucket_on; exact Hsame
    | emits_step ]; auto with emits; try (apply Hnone; reflexivity).
Qed.

(** X24.  Every storage call of a run is made on one bucket: the answer to
    the first prompt, stripped of surrounding white space.  The calls that
    name a bucket are [get_bucket_location], [get_bucket_versioning], the
    listing of the object versions, [delete_objects], [delete_bucket] and
    the waiter; a run that makes one has started with the two client
    initialisations followed by the prompt for the bucket name, and the
    bucket of the call is the stripped answer. *)
Theorem only_the_named_bucket_is_called (fuel : nat) (w : W) (e : event) (b : string) :
  In e (calls (snd (run (main fuel) w))) ->
  bucket_of e = Some b ->
  exists line rest,
    calls (snd (run (main fuel) w))
    = ClientInit "s3" :: ClientInit "cloudfront"
        :: Input bucket_prompt (Some line) :: rest
    /\ b = Py.strip line.
Proof.
  intros Hin Hb.
  destruct (run (main fuel) w) as [r0 s_end] eqn:Erun. cbn [snd] in *.
  unfold run, main in Erun.
  assert (Hout : forall l, Forall (fun e => bucket_of e = None) l -> ~ In e l).
  { intros l Hl Hel. rewrite Forall_forall in Hl. apply Hl in Hel. congruence. }
  assert (Hinit : emits (fun e => bucket_of e = None)
                    (try_except
                       (invoke (boto3_client "s3") (fun _ => ClientInit "s3") ;;;
                        invoke (boto3_client "cloudfront")
                               (fun _ => ClientInit "cloudfront"))
                       (except_Exception (sys_exit 1))))
    by (emits_auto; reflexivity).
  (* client initialisation *)
  apply bind_inv in Erun.
  destruct Erun as [(u & s1 & E1 & Erun) | [(e1 & E1 & Eend) | (E1 & Eend)]].
  2,3: exfalso;
       destruct (emits_calls _ _ _ _ _ Hinit E1) as (l & Hl & Hf);
       rewrite Hl in Hin; apply (Hout l Hf); exact Hin.
  assert (H1 : calls s1 = [ClientInit "s3"; ClientInit "cloudfront"]).
  { apply try_except_inv in E1.
    destruct E1 as [(E1 & _) | (e1 & h & s0 & _ & Hh & E1)].
    - apply bind_inv in E1.
      destruct E1 as [(u1 & s0 & Ea & Eb) | [(e1 & _ & Eb) | (_ & Eb)]];
        try discriminate Eb.
      unfold invoke in Ea, Eb.
      destruct (boto3_client "s3" _) as [[c1|a1] w1]; try discriminate Ea.
      injection Ea as _ <-.
      destruct (boto3_client "cloudfront" _) as [[c2|a2] w2]; try discriminate Eb.
      injection Eb as _ <-. reflexivity.
    - destruct e1; simpl in Hh; try discriminate Hh;
        injection Hh as <-; discriminate E1. }
  (* bucket name *)
  cbv zeta in Erun. apply input_cases in Erun.
  destruct Erun as [(_ & Hc) | (line & s2 & Hc & Erun)].
  { exfalso. rewrite Hc, H1 in Hin. revert Hin. apply Hout.
    repeat constructor. }
  rewrite H1 in Hc. cbv beta in Erun.
  destruct (Py.truthy (Py.strip line)); cbn [negb] in Erun.
  2:{ exfalso. injection Erun as _ <-. rewrite Hc in Hin. revert Hin. apply Hout.
      repeat constructor. }
  destruct (emits_calls _ _ _ _ _ (named_bucket_emits (Py.strip line) fuel) Erun)
    as (rest & Hrest & Hf).
  exists line, rest. split; [rewrite Hrest, Hc; reflexivity|].
  rewrite Hrest, Hc in Hin. apply in_app_or in Hin. destruct Hin as [Hin | Hin].
  - exfalso. revert Hin. apply Hout. repeat constructor.
  - rewrite Forall_forall in Hf. apply (Hf e Hin). exact Hb.
Qed.

End Named.

(** ** A refused page of the listing *)

Section Refused_page.

Context {W : Type} {cloud : Cloud W}.

(** The refused page is the last call of the loop over the pages, and the
    only refusal. *)
Lemma for_each_check_page_last target pages acc (s : @st W) r s' :
  for_each (check_page target) pages acc s = (r, s') ->
  exists new,
    calls s' = calls s ++ new
    /\ (In (ListDistributions false) new ->
        (exists code, r = Raise (ClientError code))
        /\ exists pre, new = pre ++ [ListDistributions false]
                       /\ ~ In (ListDistributions false) pre).
Proof.
  revert acc s. induction pages as [|page pages IH]; intros acc s E.
  - inversion E; subst. exists []. rewrite app_nil_r. split; [reflexivity | intros []].
  - rewrite for_each_cons in E. destruct page as [code | page].
    + erewrite bind_raise in E by reflexivity. inversion E; subst.
      exists [ListDistributions false]. rewrite calls_record.
      split; [reflexivity|]. intros _. split; [eauto|].
      exists []. split; [reflexivity | intros []].
    + destruct (check_page target (inr page) acc s) as [r1 s1] eqn:E1.
      assert (H1 : exists new1, calls s1 = calls s ++ new1
                                /\ ~ In (ListDistributions false) new1).
      { unfold check_page in E1. erewrite bind_ok in E1 by reflexivity.
        match type of E1 with ?m ?s0 = _ =>
          assert (Hm : emits (fun e => e <> ListDistributions false) m)
            by (unfold check_distribution; emits_auto; discriminate);
          destruct (emits_calls _ _ _ _ _ Hm E1) as (l & Hl & Hq) end.
        rewrite calls_record, <- app_assoc in Hl. eexists. split; [exact Hl|].
        intros [Hin | Hin]; [discriminate|].
        rewrite Forall_forall in Hq. apply (Hq _ Hin). reflexivity. }
      destruct H1 as (new1 & Hnew1 & Hno1).
      destruct r1 as [[acc' | x] | e | ].
      * rewrite (bind_ok _ _ _ _ _ E1) in E.
        destruct (IH _ _ E) as (new & Hnew & Hr).
        exists (new1 ++ new). rewrite Hnew, Hnew1, app_assoc. split; [reflexivity|].
        intros Hin. apply in_app_or in Hin. destruct Hin as [Hin | Hin]; [contradiction|].
        destruct (Hr Hin) as (Hraise & pre & -> & Hpre). split; [exact Hraise|].
        exists (new1 ++ pre). rewrite app_assoc. split; [reflexivity|].
        intros Hin'. apply in_app_or in Hin'. tauto.
      * rewrite (bind_ok _ _ _ _ _ E1) in E. inversion E; subst.
        exists new1. split; [exact Hnew1 | contradiction].
      * rewrite (bind_raise _ _ _ _ _ E1) in E. inversion E; subst.
        exists new1. split; [exact Hnew1 | contradiction].
      * rewrite (bind_out_of_fuel _ _ _ _ E1) in E. inversion E; subst.
        exists new1. split; [exact Hnew1 | contradiction].
Qed.

(** X25.  A page of the listing that is refused ends the search at once:
    the refused page is the last call the locator makes, no page before it
    was refused, and the locator returns [None]. *)
Theorem refused_page_ends_the_search (bucket_name region : string) (w : W) :
  In (ListDistributions false)
     (calls (snd (run (find_cloudfront_for_s3_bucket bucket_name region) w))) ->
  fst (run (find_cloudfront_for_s3_bucket bucket_name region) w) = Ok None
  /\ exists before,
      calls (snd (run (find_cloudfront_for_s3_bucket bucket_name region) w))
      = before ++ [ListDistributions false]
      /\ ~ In (ListDistributions false) before.
Proof.
  unfold run. set (s := {| world := w; trace := [] |}).
  destruct (for_each (check_page (target_domain bucket_name region))
              (list_distributions (world s)) (None, O) s) as [r s1] eqn:El.
  destruct (for_each_check_page_last _ _ _ _ _ _ El) as (new & Hnew & Hr).
  assert (Hs : snd (find_cloudfront_for_s3_bucket bucket_name region s) = s1).
  { unfold find_cloudfront_for_s3_bucket.
    rewrite try_except_state
      by (intros e h s2 Hh; destruct e; inversion Hh; reflexivity).
    erewrite bind_ok by reflexivity. rewrite bind_state, El; [reflexivity|].
    intros [[found n] | x] s2; [|reflexivity].
    destruct (n =? 1)%nat; [reflexivity|]. destruct (n =? 0)%nat; reflexivity. }
  rewrite Hs, Hnew. cbn [calls trace s map app]. intros Hin.
  destruct (Hr Hin) as ((code & ->) & pre & -> & Hpre).
  split; [|exists pre; auto].
  unfold find_cloudfront_for_s3_bucket.
  rewrite (try_except_caught _ _ s (ClientError code) (ret None) s1);
    [ reflexivity
    | erewrite bind_ok by reflexivity; rewrite (bind_raise _ _ _ _ _ El); reflexivity
    | reflexivity ].
Qed.

End Refused_page.

(** ** The configuration sent by the update *)

Section Update.

Context {W : Type} {cloud : Cloud W}.

Lemma delete_and_wait_no_update id latest_etag fuel :
  emits (fun e => is_update e = false) (delete_and_wait id latest_etag fuel).
Proof.
  unfold delete_and_wait, poll_deleted. emits_auto; reflexivity.
Qed.

(** X26.  The CDN teardown updates a distribution only when the opening
    configuration fetch answered with an enabled configuration, and the
    configuration it sends is the fetched one with [Enabled] set to false:
    the origins are unchanged, the distribution is the one given and the
    token is the fetched one. *)
Theorem update_changes_nothing_but_enabled
        (id etag : string) (fuel : nat) (w : W)
        (i : string) (config : DistributionConfig) (t : string) (answer : option string) :
  In (UpdateDistribution i config t answer)
     (calls (snd (run (delete_cloudfront_distribution id etag fuel) w))) ->
  exists c w1,
    get_distribution_config id w = (inr c, w1)
    /\ Enabled (Config c) = true
    /\ Enabled config = false
    /\ Origins config = Origins (Config c)
    /\ i = id /\ t = ETag c.
Proof.
  unfold run. rewrite delete_cloudfront_distribution_absorbs. cbn [snd].
  unfold disable_then_delete.
  destruct (invoke_cases (get_distribution_config id)
              (fun r => GetDistributionConfig id (etag_of r)) {| world := w; trace := [] |})
    as [(c & w1 & Ew & E) | (code & w1 & _ & E)].
  2:{ rewrite (bind_raise _ _ _ _ _ E). cbn [snd]. rewrite calls_record.
      intros [H | []]. discriminate H. }
  rewrite (bind_ok _ _ _ _ _ E). unfold disable_and_wait.
  destruct (Enabled (Config c)) eqn:Hen; simpl negb; cbv iota.
  2:{ erewrite bind_ok by reflexivity. cbv iota.
      match goal with |- context [delete_and_wait id ?t0 fuel ?s0] =>
        destruct (delete_and_wait id t0 fuel s0) as [r s'] eqn:Ed;
        destruct (emits_calls _ _ _ _ _ (delete_and_wait_no_update id t0 fuel) Ed)
          as (l & Hl & Hq) end.
      cbn [snd]. rewrite Hl, calls_record. intros Hin.
      apply in_app_or in Hin. destruct Hin as [[H | []] | Hin]; [discriminate H|].
      rewrite Forall_forall in Hq. apply Hq in Hin. discriminate Hin. }
  set (s1 := record w1 (GetDistributionConfig id (etag_of (inr c)))
                  {| world := w; trace := [] |}) in *.
  rewrite bind_assoc.
  assert (Hsent : forall r l,
    In (UpdateDistribution i config t answer)
       (calls s1 ++ UpdateDistribution id (disable (Config c)) (ETag c) r :: l) ->
    Forall (fun e => is_update e = false) l ->
    exists c0 w0,
      get_distribution_config id w = (inr c0, w0)
      /\ Enabled (Config c0) = true
      /\ Enabled config = false
      /\ Origins config = Origins (Config c0)
      /\ i = id /\ t = ETag c0).
  { intros r l Hin Hq. exists c, w1.
    apply in_app_or in Hin. destruct Hin as [[H | []] | [H | Hin]].
    - discriminate H.
    - injection H as <- <- <- _. auto 6.
    - rewrite Forall_forall in Hq. apply Hq in Hin. discriminate Hin. }
  destruct (invoke_cases
              (update_distribution (disable (Config c)) id (ETag c))
              (fun r => UpdateDistribution id (disable (Config c)) (ETag c) (new_etag_of r))
              s1) as [(t' & w2 & _ & E2) | (code & w2 & _ & E2)].
  2:{ rewrite (bind_raise _ _ _ _ _ E2). cbn [snd]. rewrite calls_record.
      intros Hin. apply (Hsent _ [] Hin). constructor. }
  rewrite (bind_ok _ _ _ _ _ E2).
  match goal with |- context [bind ?m ?k ?s0] =>
    destruct (bind m k s0) as [r s'] eqn:Er;
    assert (Hm : emits (fun e => is_update e = false) (bind m k)) end.
  { unfold delete_and_wait, poll_disabled, poll_deleted. emits_auto; reflexivity. }
  destruct (emits_calls _ _ _ _ _ Hm Er) as (l & Hl & Hq).
  cbn [snd]. rewrite Hl, calls_record, <- app_assoc. intros Hin.
  apply (Hsent _ l Hin Hq).
Qed.

End Update.

Lemma only_the_named_bucket_is_called_witness :
  let C := Timeline.cloud
             (Scenes.hearing
                (fun prompt => if String.eqb prompt bucket_prompt
                               then Some "  site " else Some "yes")
                Scenes.crowded) in
  exists line rest,
    calls (snd (run (main (cloud := C) 62) 0%Z))
    = ClientInit "s3" :: ClientInit "cloudfront"
        :: Input bucket_prompt (Some line) :: rest
    /\ "site" = Py.strip line.
Proof.
  intros C.
  apply (only_the_named_bucket_is_called (cloud := C) 62 0%Z (DeleteBucket "site")).
  - vm_compute. repeat first [left; reflexivity | right].
  - reflexivity.
Defined.

Lemma refused_page_ends_the_search_witness :
  let C := Timeline.cloud Accounts.unlistable in
  fst (run (find_cloudfront_for_s3_bucket (cloud := C) "site" "us-east-1") 0%Z) = Ok None
  /\ exists before,
      calls (snd (run (find_cloudfront_for_s3_bucket (cloud := C) "site" "us-east-1") 0%Z))
      = before ++ [ListDistributions false]
      /\ ~ In (ListDistributions false) before.
Proof.
  intros C.
  apply (refused_page_ends_the_search (cloud := C) "site" "us-east-1" 0%Z).
  vm_compute. repeat first [left; reflexivity | right].
Defined.

Lemma update_changes_nothing_but_enabled_witness :
  let C := Timeline.cloud Scenes.crowded in
  exists c w1,
    get_distribution_config (Cloud := C) "E1" 0%Z = (inr c, w1)
    /\ Enabled (Config c) = true
    /\ Enabled (disable (Accounts.site_config true)) = false
    /\ Origins (disable (Accounts.site_config true)) = Origins (Config c)
    /\ "E1" = "E1" /\ "T1" = ETag c.
Proof.
  intros C.
  apply (update_changes_nothing_but_enabled (cloud := C) "E1" "T0" 62 0%Z
           "E1" (disable (Accounts.site_config true)) "T1" (Some "T2")).
  vm_compute. repeat first [left; reflexivity | right].
Defined.

(** The budget is a real constraint on a record of calls: a sleep after a
    poll that completed 601 seconds after the update is over budget, one
    after a poll at 600 seconds is not. *)
Example late_round_is_over_budget :
  within_budget None
    [ (0, GetDistributionConfig "E1" (Some "T1"));
      (1, UpdateDistribution "E1" (disable (Accounts.site_config true)) "T1" (Some "T2"));
      (602, GetDistribution "E1" (Some "InProgress"));
      (612, Sleep POLLING_INTERVAL_SECONDS) ]%Z = false
  /\ within_budget None
       [ (0, GetDistributionConfig "E1" (Some "T1"));
         (1, UpdateDistribution "E1" (disable (Accounts.site_config true)) "T1" (Some "T2"));
         (601, GetDistribution "E1" (Some "InProgress"));
         (611, Sleep POLLING_INTERVAL_SECONDS) ]%Z = true.
Proof. split; reflexivity. Qed.

(** ** The teardown of the bucket alone *)

Section Bucket_only.

Context {W : Type} {cloud : Cloud W}.

(** The emptier opens with the versioning call. *)
Lemma empty_s3_bucket_first_call bucket_name (s : @st W) :
  exists ok rest,
    calls (snd (empty_s3_bucket bucket_name s))
    = calls s ++ GetBucketVersioning bucket_name ok :: rest.
Proof.
  unfold empty_s3_bucket. erewrite bind_ok by reflexivity.
  rewrite try_except_state.
  2:{ intros e h s1 Hh. destruct e; inversion Hh; subst.
      destruct (String.eqb code "NoSuchBucket"); reflexivity. }
  destruct (invoke_cases (get_bucket_versioning bucket_name)
              (fun r => GetBucketVersioning bucket_name (is_answer r)) s)
    as [(v & w1 & _ & E) | (code & w1 & _ & E)].
  - rewrite (bind_ok _ _ _ _ _ E).
    match goal with |- context [snd (?k ?s1)] =>
      destruct (k s1) as [r s'] eqn:Ek;
      assert (Hk : emits (fun _ => True) k) end.
    { unfold collect_page.
      repeat first [ apply delete_full_batches_emits; intros; exact I | emits_step ];
        auto. }
    destruct (emits_calls _ _ _ _ _ Hk Ek) as (l & Hl & _).
    cbn [snd]. rewrite Hl, calls_record, <- app_assoc.
    exists true, l. reflexivity.
  - rewrite (bind_raise _ _ _ _ _ E). cbn [snd]. rewrite calls_record.
    exists false, []. reflexivity.
Qed.

(** C10.  In a run of [main] whose listing of the distributions fails on
    some page, the locator returns [None], the value it returns for no
    match, and the run goes on with the teardown of the bucket alone: the
    gate is asked about the bucket with no distribution; on an affirmative
    answer the emptier runs at once, its versioning call being the first
    call after the prompt, the deleter runs when the emptier has returned
    [True], and the outcome of the run is theirs.  The run issues no call
    of the CDN teardown, and whatever it calls after the confirmation
    prompt is a call on the bucket. *)
Theorem listing_failure_means_bucket_only_teardown (fuel : nat) (w : W) :
  let r := fst (run (main fuel) w) in
  let s_end := snd (run (main fuel) w) in
  In (ListDistributions false) (calls s_end) ->
  (exists bucket_name region s0 s1 s2 answer,
      Forall (fun e => prelude_call e = true) (calls s0)
      /\ find_cloudfront_for_s3_bucket bucket_name region s0 = (Ok None, s1)
      /\ confirm_deletion bucket_name None s1 = (Ok (affirmative answer), s2)
      /\ calls s2 = calls s1 ++ [Input confirm_prompt answer]
      /\ (exists rest, calls s_end = calls s1 ++ rest)
      /\ if affirmative answer
         then exists r2 s3 ok rest,
             empty_s3_bucket bucket_name s2 = (r2, s3)
             /\ calls s3 = calls s2 ++ GetBucketVersioning bucket_name ok :: rest
             /\ match r2 with
                | Ok true =>
                    exists r3,
                      delete_s3_bucket bucket_name s3 = (r3, s_end)
                      /\ r = match r3 with
                             | Ok true => Ok tt
                             | Ok false => Raise (SystemExit 1)
                             | Raise e => Raise e
                             | OutOfFuel => OutOfFuel
                             end
                | Ok false => s_end = s3 /\ r = Raise (SystemExit 1)
                | Raise e => s_end = s3 /\ r = Raise e
                | OutOfFuel => s_end = s3 /\ r = OutOfFuel
                end
         else r = Raise (SystemExit 0) /\ s_end = s2)
  /\ Forall (fun e => cdn_stage_call e = false) (calls s_end)
  /\ forall before answer after,
      calls s_end = before ++ Input confirm_prompt answer :: after ->
      Forall (fun e => bucket_call e = true) after.
Proof.
  intros r s_end Hfail.
  destruct (failed_listing_run fuel w Hfail)
    as (b & region & s0 & s1 & s2 & answer0 & H4 & E5 & H5 & E6 & Hc & Ht).
  fold r s_end in Ht.
  set (G := fun e => exists answer, e = Input confirm_prompt answer).
  assert (Hgate : forall l, Forall (fun e => before_gate e = true) l ->
                            Forall (fun e => ~ G e) l).
  { intros l Hl. eapply Forall_impl; [|exact Hl].
    intros e He (a & ->). rewrite gate_input_not_before_gate in He. discriminate. }
  assert (Hrest : exists l, calls s_end = calls s1 ++ Input confirm_prompt answer0 :: l
                            /\ Forall (fun e => bucket_call e = true) l).
  { destruct (affirmative answer0).
    - destruct (emits_calls _ _ _ _ _ (teardown_without_distribution_emits b fuel) Ht)
        as (l & Hl & Hq).
      exists l. rewrite Hl, Hc, <- app_assoc. split; [reflexivity | exact Hq].
    - destruct Ht as (_ & ->). exists []. rewrite Hc. auto. }
  destruct Hrest as (l & Hl & Hbucket).
  split; [|split].
  - exists b, region, s0, s1, s2, answer0.
    split; [exact H4|]. split; [exact E5|]. split; [exact E6|]. split; [exact Hc|].
    split; [rewrite Hl; eauto|].
    destruct (affirmative answer0); [|exact Ht].
    destruct (empty_s3_bucket_first_call b s2) as (ok & rest & Hfirst).
    apply teardown_cases in Ht. cbn [identified] in Ht.
    destruct Ht as [(id & etag & r1 & Hid & _) | (s3 & -> & Ht)]; [discriminate Hid|].
    destruct Ht as [(r2 & E2 & Hr2 & Hr) | (s4 & r3 & E2 & E3 & Hr)].
    + exists r2, s_end, ok, rest. split; [exact E2|].
      split; [rewrite E2 in Hfirst; exact Hfirst|].
      destruct r2 as [[|]|e|]; auto. contradiction Hr2. reflexivity.
    + exists (Ok true), s4, ok, rest. split; [exact E2|].
      split; [rewrite E2 in Hfirst; exact Hfirst|].
      exists r3. split; [exact E3 | exact Hr].
  - rewrite Hl. apply Forall_app. split.
    + apply before_gate_not_cdn_stage. exact H5.
    + constructor; [reflexivity|].
      eapply Forall_impl; [|exact Hbucket]. intros e He.
      destruct e; first [reflexivity | discriminate He].
  - intros before answer after Hs. rewrite Hl in Hs. symmetry in Hs.
    rewrite (split_at_unique G _ _ _ _ _ _ Hs); [exact Hbucket | | | |].
    + exists answer. reflexivity.
    + exists answer0. reflexivity.
    + apply Hgate. exact H5.
    + eapply Forall_impl; [|exact Hbucket]. intros e He (a & ->). discriminate.
Qed.

End Bucket_only.

Lemma listing_failure_means_bucket_only_teardown_witness :
  let C := Timeline.cloud Accounts.unlistable in
  (exists bucket_name region s0 s1,
      find_cloudfront_for_s3_bucket (cloud := C) bucket_name region s0 = (Ok None, s1)
      /\ Forall (fun e => prelude_call e = true) (calls s0)
      /\ exists rest, calls (snd (run (main (cloud := C) 5) 0%Z)) = calls s1 ++ rest)
  /\ Forall (fun e => cdn_stage_call e = false)
            (calls (snd (run (main (cloud := C) 5) 0%Z))).
Proof.
  intros C.
  destruct (listing_failure_means_bucket_only_teardown (cloud := C) 5 0%Z)
    as (H1 & H2 & _).
  - vm_compute. repeat (first [left; reflexivity | right]).
  - split; [|exact H2].
    destruct H1 as (b & region & s0 & s1 & s2 & answer & H4 & E5 & _ & _ & Hrest & _).
    exists b, region, s0, s1. auto.
Defined.

(** ** The emptier, call by call *)

Section Emptier_pace.

Context {W : Type} {cloud : Cloud W}.

Variable bucket : string.
Variable start : Z.

(** A call that stops the emptier is its last call. *)
Lemma stops_at_the_last {A} (f : A -> bool) (l pre post : list A) (x : A) :
  forallb f (removelast l) = true ->
  l = pre ++ x :: post -> f x = false -> post = [].
Proof.
  intros Hl -> Hx. destruct post as [|y post]; [reflexivity|]. exfalso.
  rewrite removelast_app in Hl by discriminate.
  change (removelast (x :: y :: post)) with (x :: removelast (y :: post)) in Hl.
  rewrite forallb_app in Hl. cbn [forallb] in Hl. rewrite Hx in Hl.
  rewrite Bool.andb_false_r in Hl. discriminate Hl.
Qed.

(** A request found among calls of which the last ones are no requests
    lies before them. *)
Lemma request_lies_before (l1 l2 pre post : list event) (y : event) :
  l1 ++ l2 = pre ++ y :: post ->
  Forall (fun e => is_page_request e = false) l2 ->
  is_page_request y = true ->
  exists post', l1 = pre ++ y :: post'.
Proof.
  intros E H2 Hy. revert pre E. induction l1 as [|a l1 IH]; intros pre E.
  - exfalso. cbn [app] in E. subst l2. rewrite Forall_forall in H2.
    rewrite (H2 y) in Hy; [discriminate|]. apply in_or_app. right. left. reflexivity.
  - destruct pre as [|a' pre]; cbn [app] in E; injection E as Ea E.
    + subst a. exists l1. reflexivity.
    + subst a'. destruct (IH pre E) as (post' & ->). exists post'. reflexivity.
Qed.

(** A request found after one page and its deletions is the request of that
    page, or lies among the later calls. *)
Lemma request_lies_after (x y : event) (dels l2 pre post : list event) :
  (x :: dels) ++ l2 = pre ++ y :: post ->
  Forall (fun e => is_page_request e = false) dels ->
  is_page_request y = true ->
  pre = [] \/ exists m, pre = (x :: dels) ++ m /\ l2 = m ++ y :: post.
Proof.
  intros E Hd Hy. destruct pre as [|a pre]; [left; reflexivity|]. right.
  cbn [app] in E. injection E as <- E.
  revert pre E. induction Hd as [|d dels Hd0 Hd IH]; intros pre E.
  - exists pre. split; [reflexivity | exact E].
  - destruct pre as [|a pre]; cbn [app] in E; injection E as Ea E.
    + subst d. rewrite Hy in Hd0. discriminate Hd0.
    + subst a. destruct (IH pre E) as (m & Hm & Hl2).
      injection Hm as ->. exists m. split; [reflexivity | exact Hl2].
Qed.

Lemma pages_requested_app l1 l2 :
  pages_requested (l1 ++ l2) = (pages_requested l1 + pages_requested l2)%nat.
Proof. unfold pages_requested. rewrite filter_app. apply length_app. Qed.

Lemma pages_requested_none l :
  Forall (fun e => is_page_request e = false) l -> pages_requested l = 0%nat.
Proof.
  unfold pages_requested. induction 1 as [|e l He _ IH]; [reflexivity|].
  cbn [filter]. rewrite He. exact IH.
Qed.

(** The loop that deletes the full batches issues bulk deletes only, and
    goes on after each of them but the last. *)
Lemma delete_full_batches_paced rounds objs (s : @st W) r s' :
  (List.length objs <= rounds)%nat ->
  delete_full_batches rounds bucket start objs s = (r, s') ->
  exists new,
    trace s' = trace s ++ new
    /\ Forall (fun e => is_page_request e = false) (map snd new)
    /\ forallb (goes_on start) (removelast new) = true
    /\ (forall after, r = Ok (Continue after) -> forallb (goes_on start) new = true).
Proof.
  revert objs s r s'. induction rounds as [|rounds IH]; intros objs s r s' Hrounds E;
    rewrite delete_full_batches_unfold in E;
    destruct (BATCH_SIZE <=? List.length objs)%nat eqn:Hb;
    try (unfold ret in E; injection E as <- <-;
         exists []; rewrite app_nil_r; split; [reflexivity|];
         split; [constructor|]; split; [reflexivity|]; intros; reflexivity).
  apply Nat.leb_le in Hb.
  assert (Hlen : List.length (firstn BATCH_SIZE objs) = BATCH_SIZE)
    by (apply firstn_length_le; exact Hb).
  assert (Hlater : (List.length (skipn BATCH_SIZE objs) <= rounds)%nat)
    by (rewrite length_skipn; pose proof BATCH_SIZE_pos; lia).
  remember (firstn BATCH_SIZE objs) as batch eqn:Hbatch.
  remember (skipn BATCH_SIZE objs) as later eqn:Hlater'.
  clear Hbatch Hlater'.
  assert (Hsingle : forall t errors (r0 : res (flow (list ObjectIdentifier) bool)),
    (forall after, r0 <> Ok (Continue after)) ->
    exists new,
      trace s ++ [(t, DeleteObjects bucket batch errors)] = trace s ++ new
      /\ Forall (fun e => is_page_request e = false) (map snd new)
      /\ forallb (goes_on start) (removelast new) = true
      /\ (forall after, r0 = Ok (Continue after) -> forallb (goes_on start) new = true)).
  { intros t errors r0 Hnot. eexists. split; [reflexivity|].
    split; [repeat constructor|]. split; [reflexivity|].
    intros after Ha. exfalso. exact (Hnot after Ha). }
  destruct (invoke_cases (delete_objects bucket batch)
              (fun r => DeleteObjects bucket batch (errors_of r)) s)
    as [(resp & w & _ & E1) | (code & w & _ & E1)].
  2:{ rewrite (bind_raise _ _ _ _ _ E1) in E. injection E as <- <-.
      apply Hsingle. discriminate. }
  rewrite (bind_ok _ _ _ _ _ E1) in E. cbn [errors_of] in E.
  destruct (Errors resp) as [|x errs] eqn:Herr; cbn [nonempty] in E.
  2:{ unfold ret in E. injection E as <- <-. apply Hsingle. discriminate. }
  erewrite bind_ok in E by reflexivity. rewrite world_record in E.
  destruct (now w - start >? S3_DELETE_TIMEOUT_SECONDS)%Z eqn:Ht.
  { unfold ret in E. injection E as <- <-. apply Hsingle. discriminate. }
  assert (Hgo : goes_on start (now w, DeleteObjects bucket batch (Some [])) = true).
  { unfold goes_on, late_full_batch, over_budget. cbn [fst snd answered].
    rewrite Z.gtb_ltb in Ht. rewrite Ht, Bool.andb_false_r. reflexivity. }
  apply IH in E; [|exact Hlater].
  destruct E as (new & Htr & Hdel & Hlast & Hall).
  exists ((now w, DeleteObjects bucket batch (Some [])) :: new).
  split.
  { rewrite Htr. unfold record. cbn [trace]. rewrite <- app_assoc. reflexivity. }
  split; [rewrite map_cons; constructor; [reflexivity | exact Hdel]|].
  split; [apply forallb_removelast_cons; assumption|].
  intros after Ha. cbn [forallb]. rewrite Hgo. exact (Hall after Ha).
Qed.

(** One page of the listing: the request, then bulk deletes only. *)
Lemma collect_page_paced page acc (s : @st W) r s' :
  collect_page bucket start page acc s = (r, s') ->
  exists t ok dels,
    trace s' = trace s ++ (t, ListObjectVersions bucket ok) :: dels
    /\ Forall (fun e => is_page_request e = false) (map snd dels)
    /\ forallb (goes_on start)
               (removelast ((t, ListObjectVersions bucket ok) :: dels)) = true
    /\ (forall after, r = Ok (Continue after) ->
        forallb (goes_on start) ((t, ListObjectVersions bucket ok) :: dels) = true).
Proof.
  intros E. unfold collect_page in E.
  destruct page as [code | page].
  { erewrite bind_raise in E by reflexivity. injection E as <- <-.
    do 3 eexists. split; [reflexivity|]. split; [constructor|].
    split; [reflexivity | discriminate]. }
  erewrite bind_ok in E by reflexivity. cbv zeta in E. cbn [is_answer] in E.
  destruct (negb (nonempty (Versions page)) && negb (nonempty (DeleteMarkers page))).
  - unfold ret in E. injection E as <- <-.
    do 3 eexists. split; [reflexivity|]. split; [constructor|].
    split; [reflexivity | intros; reflexivity].
  - apply delete_full_batches_paced in E; [|apply le_n].
    destruct E as (new & Htr & Hdel & Hlast & Hall).
    exists (now (fetch_page (world s))), true, new.
    split; [rewrite Htr; unfold record; cbn [trace]; rewrite <- app_assoc; reflexivity|].
    split; [exact Hdel|].
    split; [apply forallb_removelast_cons; [reflexivity | exact Hlast]|].
    intros after Ha. cbn [forallb]. rewrite (Hall after Ha). reflexivity.
Qed.

(** The loop over the pages: whenever a page is requested, everything
    enumerated so far has been handed to the bulk delete, but for fewer than
    1000 entries; and the loop goes on after each call but the last. *)
Lemma for_each_collect_page_paced pages acc (s : @st W) r s' :
  (List.length acc < BATCH_SIZE)%nat ->
  for_each (collect_page bucket start) pages acc s = (r, s') ->
  exists new,
    trace s' = trace s ++ new
    /\ (forall pre ok post,
          map snd new = pre ++ ListObjectVersions bucket ok :: post ->
          exists pending,
            acc ++ keys_of (firstn (pages_requested pre) pages)
            = List.concat (batches pre) ++ pending
            /\ (List.length pending < BATCH_SIZE)%nat)
    /\ forallb (goes_on start) (removelast new) = true
    /\ (forall after, r = Ok (Continue after) -> forallb (goes_on start) new = true).
Proof.
  revert acc s r s'. induction pages as [|page pages IH]; intros acc s r s' Hacc E.
  - unfold for_each, ret in E. injection E as <- <-.
    exists []. rewrite app_nil_r. split; [reflexivity|].
    split; [intros [|e pre] ok post Hs; discriminate Hs|].
    split; [reflexivity | intros; reflexivity].
  - rewrite for_each_cons in E.
    destruct (collect_page bucket start page acc s) as [r1 s1] eqn:E1.
    destruct (collect_page_paced _ _ _ _ _ E1)
      as (t & ok1 & dels & Htr1 & Hdel & Hlast1 & Hall1).
    destruct (collect_page_sent bucket start _ _ _ _ _ Hacc E1)
      as (new1 & Htr1' & _ & (rest1 & Hrest1 & Hafter1) & _ & _ & Hr1).
    rewrite Htr1 in Htr1'. apply app_inv_head in Htr1'. subst new1.
    rewrite map_cons in Hrest1. cbn [snd] in Hrest1.
    assert (Hfirst : forall pre ok post l2,
      (ListObjectVersions bucket ok1 :: map snd dels) ++ l2
      = pre ++ ListObjectVersions bucket ok :: post ->
      pre = [] \/ exists m, pre = (ListObjectVersions bucket ok1 :: map snd dels) ++ m
                            /\ l2 = m ++ ListObjectVersions bucket ok :: post).
    { intros pre ok post l2 Hs.
      apply (request_lies_after _ _ _ _ _ _ Hs Hdel). reflexivity. }
    assert (Hnow : exists pending,
      acc ++ keys_of (firstn (pages_requested []) (page :: pages))
      = List.concat (batches []) ++ pending /\ (List.length pending < BATCH_SIZE)%nat).
    { exists acc. cbn. rewrite app_nil_r. auto. }
    assert (Hstop : forall r0, r1 = r0 -> (forall after, r0 <> Ok (Continue after)) ->
      exists new,
        trace s1 = trace s ++ new
        /\ (forall pre ok post,
              map snd new = pre ++ ListObjectVersions bucket ok :: post ->
              exists pending,
                acc ++ keys_of (firstn (pages_requested pre) (page :: pages))
                = List.concat (batches pre) ++ pending
                /\ (List.length pending < BATCH_SIZE)%nat)
        /\ forallb (goes_on start) (removelast new) = true
        /\ (forall after, r0 = Ok (Continue after) -> forallb (goes_on start) new = true)).
    { intros r0 <- Hnot. eexists. split; [exact Htr1|].
      split; [|split; [exact Hlast1 | exact Hall1]].
      intros pre ok post Hs. rewrite map_cons in Hs. cbn [snd] in Hs.
      rewrite <- (app_nil_r (_ :: map snd dels)) in Hs.
      destruct (Hfirst _ _ _ _ Hs) as [-> | (m & _ & Hm)]; [exact Hnow|].
      destruct m; discriminate Hm. }
    destruct r1 as [[acc1 | b] | e | ].
    + rewrite (bind_ok _ _ _ _ _ E1) in E.
      destruct Hr1 as (_ & Hacc1).
      specialize (Hafter1 acc1 eq_refl). subst rest1.
      destruct (IH _ _ _ _ Hacc1 E) as (new & Htr & Hsl & Hlast & Hall).
      exists (((t, ListObjectVersions bucket ok1) :: dels) ++ new).
      split; [rewrite Htr, Htr1, <- app_assoc; reflexivity|].
      split; [|split].
      * intros pre ok post Hs. rewrite map_app, map_cons in Hs. cbn [snd] in Hs.
        destruct (Hfirst _ _ _ _ Hs) as [-> | (m & -> & Hm)]; [exact Hnow|].
        destruct (Hsl _ _ _ Hm) as (pending & Hp & Hlen).
        exists pending. split; [|exact Hlen].
        rewrite pages_requested_app.
        change (pages_requested (ListObjectVersions bucket ok1 :: map snd dels))
          with (S (pages_requested (map snd dels))).
        rewrite (pages_requested_none _ Hdel). cbn [Nat.add firstn].
        rewrite keys_of_cons, <- keys_of_single, app_assoc, Hrest1.
        unfold batches at 2. rewrite flat_map_app. fold (batches m).
        fold (batches (ListObjectVersions bucket ok1 :: map snd dels)).
        rewrite concat_app, <- !app_assoc. f_equal. exact Hp.
      * apply forallb_removelast_app; [exact (Hall1 acc1 eq_refl) | exact Hlast].
      * intros after Ha. rewrite forallb_app, (Hall1 acc1 eq_refl). exact (Hall after Ha).
    + rewrite (bind_ok _ _ _ _ _ E1) in E. unfold ret in E. injection E as <- <-.
      apply Hstop; [reflexivity | discriminate].
    + rewrite (bind_raise _ _ _ _ _ E1) in E. injection E as <- <-.
      apply Hstop; [reflexivity | discriminate].
    + destruct Hr1.
Qed.

End Emptier_pace.

Section Emptier_sliced.

Context {W : Type} {cloud : Cloud W}.

(** The record of a run of the emptier: the versioning call, the calls of
    the loop over the pages, and at most one bulk delete for the
    remainder. *)
Lemma empty_s3_bucket_record (bucket : string) (w : W) :
  let outcome := snd (run (empty_s3_bucket bucket) w) in
  let pages := list_object_versions bucket (snd (get_bucket_versioning bucket w)) in
  exists t ok new fin,
    trace outcome = (t, GetBucketVersioning bucket ok) :: new ++ fin
    /\ (forall pre ok' post,
          map snd new = pre ++ ListObjectVersions bucket ok' :: post ->
          exists pending,
            keys_of (firstn (pages_requested pre) pages)
            = List.concat (batches pre) ++ pending
            /\ (List.length pending < BATCH_SIZE)%nat)
    /\ forallb (goes_on (now w)) (removelast new) = true
    /\ (ok = false -> new = [] /\ fin = [])
    /\ (fin = []
        \/ exists t' after errors,
            fin = [(t', DeleteObjects bucket after errors)]
            /\ forallb (goes_on (now w)) new = true).
Proof.
  intros outcome pages. subst outcome pages. unfold run.
  set (s0 := {| world := w; trace := [] |}).
  destruct (empty_s3_bucket_run bucket (now w) s0 eq_refl)
    as [(code & w1 & Ew & E) | (v & w1 & r_loop & s2 & Ew & El & E)].
  { rewrite E. cbn [snd]. exists (now w1), false, [], [].
    split; [reflexivity|].
    split; [intros [|e pre] ok' post Hs; discriminate Hs|].
    split; [reflexivity|]. split; [auto | left; reflexivity]. }
  change (world s0) with w in Ew. rewrite Ew. cbn [snd].
  destruct (for_each_collect_page_paced bucket (now w) _ [] _ _ _ BATCH_SIZE_pos El)
    as (new & Htr & Hsl & Hlast & Hall).
  assert (Htr2 : trace s2 = (now w1, GetBucketVersioning bucket true) :: new)
    by (rewrite Htr; reflexivity).
  assert (Hshort : snd (empty_s3_bucket bucket s0) = s2 ->
    exists t ok new0 fin,
      trace (snd (empty_s3_bucket bucket s0))
      = (t, GetBucketVersioning bucket ok) :: new0 ++ fin
      /\ (forall pre ok' post,
            map snd new0 = pre ++ ListObjectVersions bucket ok' :: post ->
            exists pending,
              keys_of (firstn (pages_requested pre) (list_object_versions bucket w1))
              = List.concat (batches pre) ++ pending
              /\ (List.length pending < BATCH_SIZE)%nat)
      /\ forallb (goes_on (now w)) (removelast new0) = true
      /\ (ok = false -> new0 = [] /\ fin = [])
      /\ (fin = []
          \/ exists t' after errors,
              fin = [(t', DeleteObjects bucket after errors)]
              /\ forallb (goes_on (now w)) new0 = true)).
  { intros ->. exists (now w1), true, new, []. rewrite app_nil_r.
    split; [exact Htr2|]. split; [exact Hsl|]. split; [exact Hlast|].
    split; [discriminate | left; reflexivity]. }
  destruct r_loop as [[after | b] | e | ].
  - destruct (nonempty after).
    + destruct E as (r_d & w3 & _ & E). rewrite E. cbn [snd].
      exists (now w1), true, new,
        [(now w3, DeleteObjects bucket after (errors_of r_d))].
      split; [unfold record; cbn [trace]; rewrite Htr2; reflexivity|].
      split; [exact Hsl|]. split; [exact Hlast|]. split; [discriminate|].
      right. do 3 eexists. split; [reflexivity | exact (Hall after eq_refl)].
    + apply Hshort. rewrite E. reflexivity.
  - apply Hshort. rewrite E. reflexivity.
  - destruct e as [code | | | n]; try contradiction. apply Hshort. rewrite E. reflexivity.
  - contradiction.
Qed.

(** C5, as the code has it.  In a run of the emptier that returns success
    and in which every storage call is answered without error, the batches
    handed to the bulk delete are the enumeration cut in discovery order:
    batches of exactly 1000, then the non-empty remainder of fewer than 1000
    as a final batch; for an enumeration of 2500 entries these are three
    calls of 1000, 1000 and 500 entries.  In every run the batches are
    sliced off after each page: whenever a page of the listing is requested,
    all that the pages before it have listed has been handed to the bulk
    delete, but for fewer than 1000 entries.  And in every run a call that
    is refused, a bulk delete that reports errors, and a full batch whose
    deletion completes over the budget, is the last call of the run. *)
Theorem batches_follow_the_enumeration (bucket : string) (w : W) :
  let r := fst (run (empty_s3_bucket bucket) w) in
  let outcome := snd (run (empty_s3_bucket bucket) w) in
  let issued := calls outcome in
  let pages := list_object_versions bucket (snd (get_bucket_versioning bucket w)) in
  let keys := keys_of pages in
  (r = Ok true ->
   forallb answered issued = true ->
   List.concat (batches issued) = keys
   /\ (exists full rest,
         batches issued = full ++ (if nonempty rest then [rest] else [])
         /\ Forall (fun b => List.length b = BATCH_SIZE) full
         /\ (List.length rest < BATCH_SIZE)%nat)
   /\ (List.length keys = 2500%nat ->
       map (@List.length ObjectIdentifier) (batches issued) = [1000; 1000; 500]%nat))
  /\ (forall pre ok post,
        issued = pre ++ ListObjectVersions bucket ok :: post ->
        exists pending,
          keys_of (firstn (pages_requested pre) pages)
          = List.concat (batches pre) ++ pending
          /\ (List.length pending < BATCH_SIZE)%nat)
  /\ (forall pre te post,
        trace outcome = pre ++ te :: post ->
        answered (snd te) = false \/ late_full_batch (now w) te = true ->
        post = []).
Proof.
  intros r outcome issued pages keys.
  split; [exact (successful_run_is_cut_in_order bucket w)|].
  destruct (empty_s3_bucket_record bucket w)
    as (t & ok0 & new & fin & Htr & Hsl & Hlast & Hrefused & Hfin).
  fold outcome pages in Htr, Hsl.
  assert (Hfin_calls : Forall (fun e => is_page_request e = false) (map snd fin)).
  { destruct Hfin as [-> | (t' & after & errors & -> & _)]; repeat constructor. }
  split.
  - intros pre ok post Hs. subst issued. unfold calls in Hs. rewrite Htr in Hs.
    rewrite map_cons, map_app in Hs. cbn [snd] in Hs.
    destruct pre as [|e pre]; [discriminate Hs|].
    cbn [app] in Hs. injection Hs as <- Hs.
    destruct (request_lies_before _ _ _ _ _ Hs Hfin_calls eq_refl) as (post' & Hnew).
    exact (Hsl _ _ _ Hnew).
  - intros pre te post Hs Hstop.
    apply (stops_at_the_last (goes_on (now w)) (trace outcome) pre post te);
      [ | exact Hs | ].
    + rewrite Htr.
      assert (Hfirst : ok0 = true -> goes_on (now w) (t, GetBucketVersioning bucket ok0) = true)
        by (intros ->; reflexivity).
      destruct ok0.
      * destruct Hfin as [-> | (t' & after & errors & -> & Hall)].
        -- rewrite app_nil_r. apply forallb_removelast_cons; [auto | exact Hlast].
        -- change ((t, GetBucketVersioning bucket true) :: new ++ [(t', DeleteObjects bucket after errors)])
             with (((t, GetBucketVersioning bucket true) :: new) ++ [(t', DeleteObjects bucket after errors)]).
           rewrite removelast_last. cbn [forallb]. rewrite Hall. reflexivity.
      * destruct (Hrefused eq_refl) as (-> & ->). reflexivity.
    + unfold goes_on. destruct Hstop as [Hx | Hx]; rewrite Hx;
        [reflexivity | apply Bool.andb_false_r].
Qed.

End Emptier_sliced.

Lemma batches_follow_the_enumeration_witness :
  let C := Timeline.cloud (Accounts.stocked Accounts.pages_2500 0 0 []) in
  let issued := calls (snd (run (empty_s3_bucket (cloud := C) "site") 0%Z)) in
  List.concat (batches issued) = Accounts.objects 0 2500
  /\ map (@List.length ObjectIdentifier) (batches issued) = [1000; 1000; 500]%nat.
Proof.
  intros C issued.
  destruct (batches_follow_the_enumeration (cloud := C) "site" 0%Z) as (Hcut & _ & _).
  destruct Hcut as (H1 & _ & H3).
  - vm_compute. reflexivity.
  - vm_compute. reflexivity.
  - split.
    + fold issued in H1. rewrite H1. vm_compute. reflexivity.
    + apply H3. vm_compute. reflexivity.
Defined.

(** The run on the three pages of 1200, 1300 and no entries: a batch is cut
    off after the first page and after the second, the remainder is sent
    after the last page. *)
Example batches_are_cut_after_each_page :
  let C := Timeline.cloud (Accounts.stocked Accounts.pages_2500 0 0 []) in
  map (fun e => match e with
                | DeleteObjects _ batch _ => inr (List.length batch)
                | e => inl (is_page_request e)
                end)
      (calls (snd (run (empty_s3_bucket (cloud := C) "site") 0%Z)))
  = [inl false; inl true; inr 1000; inl true; inr 1000; inl true; inr 500]%nat.
Proof. vm_compute. reflexivity. Qed.

Lemma bucket_deletion_waits_for_confirmation_witness :
  let C := Timeline.cloud Scenes.lingering in
  fst (delete_s3_bucket (cloud := C) "site" {| world := 0%Z; trace := [] |}) = Ok false
  /\ calls (snd (delete_s3_bucket (cloud := C) "site" {| world := 0%Z; trace := [] |}))
     = [DeleteBucket "site"; WaitBucketNotExists "site"].
Proof.
  intros C.
  destruct (bucket_deletion_waits_for_confirmation
              (cloud := C) "site" {| world := 0%Z; trace := [] |}) as (_ & Haccepted).
  exact (Haccepted tt 0%Z eq_refl).
Defined.
